(** * Trading-performance analytics engine

    A shallow embedding of [backend/src/utils/calculations.ts]:
    [calculatePnL], [calculateMetrics] (with its private helper
    [calculateMaxDrawdown]) and [detectBehaviorWarnings], and of the
    handlers that call them or work on the same rows: the risk calculators
    of [routes/risk.ts], the trade handlers of [routes/trades.ts], and the
    aggregations of [routes/analytics.ts] and [routes/portfolio.ts], each
    from the parsed request or the rows of its query to its answer.

    The engine is embedded twice.

    The first embedding computes on [number]: an exact rational, or one of
    the three special values a division or an [Infinity] literal can
    introduce.  It carries the control flow, the counts, the order and the
    comparisons of the inputs, and reads the arithmetic of the code as
    arithmetic on the reals: rounding error, overflow and the sign of zero
    are not in it.

    The second embedding, [Binary64], computes on IEEE doubles, the numbers
    the code runs on.  The properties about the two-decimal outputs, about
    overflow and underflow, and about the thresholds the code applies to
    the values it has computed are stated on it. *)

From Stdlib Require Import String ZArith QArith Qround Qabs Qpower Lia Lqa.
From Stdlib Require Import Bool List.
From Stdlib Require Import Sorted Permutation.
From Stdlib Require Import Floats.
Import ListNotations.

Local Open Scope Q_scope.

(** Decimal constants stand for the nearest double. *)
Set Warnings "-inexact-float".

(** ** JavaScript numbers *)

Module Number.

Inductive number : Type :=
| Fin (q : Q)
| PosInf
| NegInf
| NaN.

Definition zero : number := Fin 0.
Definition hundred : number := Fin 100.

(** [array.length] used as a number. *)
Definition of_nat (n : nat) : number := Fin (inject_Z (Z.of_nat n)).

Definition Qltb (x y : Q) : bool :=
  match x ?= y with Lt => true | _ => false end.

(** Sign of a finite value, used where an infinity meets a finite factor. *)
Definition signed (x : Q) (pos neg zer : number) : number :=
  match x ?= 0 with Gt => pos | Lt => neg | Eq => zer end.

Definition neg (a : number) : number :=
  match a with
  | Fin x => Fin (- x)
  | PosInf => NegInf
  | NegInf => PosInf
  | NaN => NaN
  end.

Definition add (a b : number) : number :=
  match a, b with
  | NaN, _ | _, NaN => NaN
  | Fin x, Fin y => Fin (x + y)
  | PosInf, NegInf | NegInf, PosInf => NaN
  | PosInf, _ | _, PosInf => PosInf
  | NegInf, _ | _, NegInf => NegInf
  end.

Definition sub (a b : number) : number := add a (neg b).

Definition mul (a b : number) : number :=
  match a, b with
  | NaN, _ | _, NaN => NaN
  | Fin x, Fin y => Fin (x * y)
  | Fin x, PosInf | PosInf, Fin x => signed x PosInf NegInf NaN
  | Fin x, NegInf | NegInf, Fin x => signed x NegInf PosInf NaN
  | PosInf, PosInf | NegInf, NegInf => PosInf
  | PosInf, NegInf | NegInf, PosInf => NegInf
  end.

(** [a / b].  A finite value over zero is an infinity of the sign of the
    numerator, and [0 / 0] is [NaN]: nothing is raised. *)
Definition div (a b : number) : number :=
  match a, b with
  | NaN, _ | _, NaN => NaN
  | Fin x, Fin y =>
      if Qeq_bool y 0 then signed x PosInf NegInf NaN else Fin (x / y)
  | Fin _, _ => Fin 0
  | PosInf, Fin y => signed y PosInf NegInf PosInf
  | NegInf, Fin y => signed y NegInf PosInf NegInf
  | _, _ => NaN
  end.

(** [a < b]; any comparison with [NaN] is false. *)
Definition ltb (a b : number) : bool :=
  match a, b with
  | NaN, _ | _, NaN => false
  | Fin x, Fin y => Qltb x y
  | PosInf, _ | _, NegInf => false
  | NegInf, _ | _, PosInf => true
  end.

Definition gtb (a b : number) : bool := ltb b a.

(** Strict equality [a === b] on numbers. *)
Definition eqb (a b : number) : bool :=
  match a, b with
  | Fin x, Fin y => Qeq_bool x y
  | PosInf, PosInf | NegInf, NegInf => true
  | _, _ => false
  end.

(** [Math.abs]. *)
Definition abs (a : number) : number :=
  match a with
  | Fin x => Fin (Qabs x)
  | PosInf | NegInf => PosInf
  | NaN => NaN
  end.

(** [Math.round]: the nearest integer, a tie going to the larger one. *)
Definition round (a : number) : number :=
  match a with
  | Fin x => Fin (inject_Z (Qfloor (x + (1 # 2))))
  | _ => a
  end.

(** Truthiness of a number: [0] and [NaN] are falsy. *)
Definition truthy (a : number) : bool :=
  match a with
  | Fin x => negb (Qeq_bool x 0)
  | NaN => false
  | _ => true
  end.

(** Same mathematical value (the representation of a rational is not
    unique). *)
Definition equiv (a b : number) : Prop :=
  match a, b with
  | Fin x, Fin y => x == y
  | PosInf, PosInf | NegInf, NegInf | NaN, NaN => True
  | _, _ => False
  end.

Definition finite (a : number) : Prop :=
  match a with Fin _ => True | _ => False end.

End Number.

Import Number.

Declare Scope number_scope.
Delimit Scope number_scope with num.
Bind Scope number_scope with number.
Infix "+" := add : number_scope.
Infix "-" := sub : number_scope.
Infix "*" := mul : number_scope.
Infix "/" := div : number_scope.
Infix "<?" := ltb : number_scope.
Infix ">?" := gtb : number_scope.
Infix "=~=" := equiv (at level 70, no associativity).

#[export] Instance equiv_Equivalence : Equivalence equiv.
Proof.
  split.
  - intros [x| | |]; simpl; auto. reflexivity.
  - intros [x| | |] [y| | |]; simpl; auto. intros H; now symmetry.
  - intros [x| | |] [y| | |] [z| | |]; simpl; auto; try contradiction.
    intros H1 H2. now rewrite H1.
Qed.

(** ** Data model *)

(** The [Position] enum after the rename migration. *)
Inductive Position : Type := BELI | JUAL.

Record PnLResult : Type := mkPnL { pnl : number; pnlPercent : number }.

(** ** PnL calculator *)

Definition calculatePnL (position : Position)
    (entryPrice exitPrice quantity fees : number) : PnLResult :=
  let pnl :=
    match position with
    | BELI => ((exitPrice - entryPrice) * quantity - fees)%num
    | JUAL => ((entryPrice - exitPrice) * quantity - fees)%num
    end in
  let investment := (entryPrice * quantity)%num in
  let pnlPercent :=
    if (investment >? zero)%num then ((pnl / investment) * hundred)%num
    else zero in
  {| pnl := pnl; pnlPercent := pnlPercent |}.

(** [fees: number = 0]: an omitted argument takes the default. *)
Definition calculatePnL_opt (position : Position)
    (entryPrice exitPrice quantity : number) (fees : option number)
    : PnLResult :=
  calculatePnL position entryPrice exitPrice quantity
    (match fees with Some f => f | None => zero end).

(** ** Trades *)

Inductive Market : Type := STOCK | CRYPTO.

(** The [Trade] row of the schema, with the columns the engine reads.
    Timestamps are milliseconds since the epoch ([Date.getTime]); a nullable
    column is an [option]; prices, quantities and stored P&L are reals. *)
Module Trade.
Record t : Type := mk {
  asset : string;
  market : Market;
  position : Position;
  entryPrice : Q;
  exitPrice : option Q;
  quantity : Q;
  fees : Q;
  openedAt : Z;
  closedAt : option Z;
  pnl : option Q;
  pnlPercent : option Q;
  isOpen : bool
}.
End Trade.
Abbreviation Trade := Trade.t.

Definition isSome {A : Type} (o : option A) : bool :=
  match o with Some _ => true | None => false end.

(** [t.pnl ?? 0] *)
Definition pnlOrZero (t : Trade) : number :=
  match Trade.pnl t with Some p => Fin p | None => zero end.

(** ** Metrics aggregator *)

Record PerformanceMetrics : Type := mkMetrics {
  totalTrades : nat;
  winningTrades : nat;
  losingTrades : nat;
  winRate : number;
  avgWin : number;
  avgLoss : number;
  profitFactor : number;
  maxDrawdown : number;
  expectancy : number
}.

(** [a.closedAt ? new Date(a.closedAt).getTime() : 0] *)
Definition closeTime (t : Trade) : Z :=
  match Trade.closedAt t with Some d => d | None => 0%Z end.

(** [[...trades].sort((a, b) => dateA - dateB)]: [Array.prototype.sort] is
    stable, so the result is the stable ordering by [closeTime]. *)
Fixpoint insertByClose (t : Trade) (l : list Trade) : list Trade :=
  match l with
  | [] => [t]
  | u :: r =>
      if (closeTime t <=? closeTime u)%Z then t :: l
      else u :: insertByClose t r
  end.

Fixpoint sortByClose (l : list Trade) : list Trade :=
  match l with
  | [] => []
  | t :: r => insertByClose t (sortByClose r)
  end.

(** Ascending close time. *)
Definition closesBefore (a b : Trade) : Prop := (closeTime a <= closeTime b)%Z.

(** The three loop variables of [calculateMaxDrawdown]. *)
Record Drawdown : Type := mkDD {
  dd_peak : number;
  dd_maxDrawdown : number;
  dd_cumulative : number
}.

Definition drawdownStart : Drawdown := mkDD zero zero zero.

(** One iteration of [for (const trade of sortedTrades)]. *)
Definition drawdownStep (s : Drawdown) (trade : Trade) : Drawdown :=
  let cumulative := (dd_cumulative s + pnlOrZero trade)%num in
  let peak := if (cumulative >? dd_peak s)%num then cumulative else dd_peak s in
  let drawdown := (peak - cumulative)%num in
  let maxDrawdown :=
    if (drawdown >? dd_maxDrawdown s)%num then drawdown
    else dd_maxDrawdown s in
  mkDD peak maxDrawdown cumulative.

Definition calculateMaxDrawdown (trades : list Trade) : number :=
  match trades with
  | [] => zero
  | _ =>
      let sortedTrades := sortByClose trades in
      dd_maxDrawdown (fold_left drawdownStep sortedTrades drawdownStart)
  end.

(** What the loop of [calculateMaxDrawdown] maintains: the three variables
    are finite, the maximum drawdown and the peak are never negative, and the
    cumulative P&L never exceeds the peak. *)
Definition drawdownInv (s : Drawdown) : Prop :=
  exists p m c : Q,
    s = mkDD (Fin p) (Fin m) (Fin c) /\ 0 <= m /\ 0 <= p /\ c <= p.

(** While no trade loses, the cumulative P&L stays at its peak and no
    drawdown is recorded. *)
Definition drawdownFlat (s : Drawdown) : Prop :=
  exists p m c : Q, s = mkDD (Fin p) (Fin m) (Fin c) /\ m == 0 /\ c == p.

(** The maximum drawdown recorded so far, as a real. *)
Definition recordedDrawdown (s : Drawdown) : Q :=
  match dd_maxDrawdown s with Fin m => m | _ => 0 end.

(** The full-precision values [calculateMetrics] accumulates before it
    builds its result, one definition per [const] of the source, as functions
    of [closedTrades]. *)
Module Internal.

Definition winningTrades (closedTrades : list Trade) : list Trade :=
  filter (fun t => (pnlOrZero t >? zero)%num) closedTrades.

Definition losingTrades (closedTrades : list Trade) : list Trade :=
  filter (fun t => (pnlOrZero t <? zero)%num) closedTrades.

(** [list.reduce((sum, t) => sum + (t.pnl ?? 0), 0)] *)
Definition sumPnl (l : list Trade) : number :=
  fold_left (fun sum t => (sum + pnlOrZero t)%num) l zero.

Definition grossProfit (closedTrades : list Trade) : number :=
  sumPnl (winningTrades closedTrades).

Definition grossLoss (closedTrades : list Trade) : number :=
  abs (sumPnl (losingTrades closedTrades)).

Definition winRate (closedTrades : list Trade) : number :=
  if (0 <? length closedTrades)%nat
  then (of_nat (length (winningTrades closedTrades))
        / of_nat (length closedTrades) * hundred)%num
  else zero.

Definition avgWin (closedTrades : list Trade) : number :=
  if (0 <? length (winningTrades closedTrades))%nat
  then (grossProfit closedTrades
        / of_nat (length (winningTrades closedTrades)))%num
  else zero.

Definition avgLoss (closedTrades : list Trade) : number :=
  if (0 <? length (losingTrades closedTrades))%nat
  then (grossLoss closedTrades
        / of_nat (length (losingTrades closedTrades)))%num
  else zero.

Definition profitFactor (closedTrades : list Trade) : number :=
  if (grossLoss closedTrades >? zero)%num
  then (grossProfit closedTrades / grossLoss closedTrades)%num
  else if (grossProfit closedTrades >? zero)%num then PosInf else zero.

Definition maxDrawdown (closedTrades : list Trade) : number :=
  calculateMaxDrawdown closedTrades.

Definition lossRate (closedTrades : list Trade) : number :=
  (hundred - winRate closedTrades)%num.

Definition expectancy (closedTrades : list Trade) : number :=
  (winRate closedTrades / hundred * avgWin closedTrades
   - lossRate closedTrades / hundred * avgLoss closedTrades)%num.

End Internal.

(** [Math.round(x * 100) / 100] *)
Definition round2 (x : number) : number :=
  (round (x * hundred) / hundred)%num.

Definition zeroMetrics : PerformanceMetrics :=
  mkMetrics 0 0 0 zero zero zero zero zero zero.

(** [trades.filter(t => !t.isOpen && t.pnl !== null)] *)
Definition closedWithPnl (trades : list Trade) : list Trade :=
  filter (fun t => negb (Trade.isOpen t) && isSome (Trade.pnl t)) trades.

Definition calculateMetrics (trades : list Trade) : PerformanceMetrics :=
  let closedTrades := closedWithPnl trades in
  if (length closedTrades =? 0)%nat then zeroMetrics
  else
    {| totalTrades := length closedTrades;
       winningTrades := length (Internal.winningTrades closedTrades);
       losingTrades := length (Internal.losingTrades closedTrades);
       winRate := round2 (Internal.winRate closedTrades);
       avgWin := round2 (Internal.avgWin closedTrades);
       avgLoss := round2 (Internal.avgLoss closedTrades);
       profitFactor := round2 (Internal.profitFactor closedTrades);
       maxDrawdown := round2 (Internal.maxDrawdown closedTrades);
       expectancy := round2 (Internal.expectancy closedTrades) |}.

(** ** Behaviour analyser *)

Inductive WarningType : Type :=
  OVERTRADING | REVENGE_TRADING | HIGH_RISK | CONSECUTIVE_LOSS.

Inductive Severity : Type := LOW | MEDIUM | HIGH.

(** The template literal of each warning, kept as the template and the
    values interpolated into it. *)
Inductive Message : Type :=
| MsgOvertrading (todayCount : nat)
| MsgRevenge
| MsgHighRisk (asset : string) (riskPercent : number)
| MsgConsecutive (consecutiveLosses : nat).

(** [date] is the instant whose ISO rendering the source stores. *)
Record BehaviorWarning : Type := mkWarning {
  type : WarningType;
  message : Message;
  severity : Severity;
  date : Z
}.

(** What the function reads from its host: the current instant
    ([new Date()]) and the local midnight of an instant
    ([setHours(0, 0, 0, 0)], which depends on the time zone). *)
Record Clock : Type := mkClock {
  now : Z;
  startOfDay : Z -> Z
}.

Definition fiveMinutes : Z := 5 * 60 * 1000.

(** [trades.filter(t => !t.isOpen && t.closedAt)] *)
Definition closedWithDate (trades : list Trade) : list Trade :=
  filter (fun t => negb (Trade.isOpen t) && isSome (Trade.closedAt t)) trades.

(** The test on one adjacent pair of the revenge loop:
    [prevTrade.pnl && prevTrade.pnl < 0 && prevTrade.closedAt], then
    [timeDiff < 5 * 60 * 1000]. *)
Definition revengePair (prevTrade currTrade : Trade) : bool :=
  match Trade.pnl prevTrade, Trade.closedAt prevTrade with
  | Some p, Some closed =>
      truthy (Fin p) && (Fin p <? zero)%num &&
      (let timeDiff := (Trade.openedAt currTrade - closed)%Z in
       (timeDiff <? fiveMinutes)%Z)
  | _, _ => false
  end.

Definition revengeWarning (currTrade : Trade) : BehaviorWarning :=
  mkWarning REVENGE_TRADING MsgRevenge HIGH (Trade.openedAt currTrade).

(** [for (let i = 1; i < closedTrades.length; i++)] over the pairs
    [(closedTrades[i - 1], closedTrades[i])], leaving at the first push. *)
Fixpoint revengeScan (closedTrades : list Trade) : list BehaviorWarning :=
  match closedTrades with
  | prevTrade :: rest =>
      match rest with
      | currTrade :: _ =>
          if revengePair prevTrade currTrade then [revengeWarning currTrade]
          else revengeScan rest
      | [] => []
      end
  | [] => []
  end.

Definition riskPercentOf (accountBalance : number) (trade : Trade) : number :=
  let riskAmount := (Fin (Trade.entryPrice trade) * Fin (Trade.quantity trade))%num in
  (riskAmount / accountBalance * hundred)%num.

(** The body of [for (const trade of todayTrades)]. *)
Definition riskWarning (accountBalance : number) (trade : Trade)
    : list BehaviorWarning :=
  let riskPercent := riskPercentOf accountBalance trade in
  if (riskPercent >? Fin 2)%num then
    [ mkWarning HIGH_RISK (MsgHighRisk (Trade.asset trade) riskPercent)
        (if (riskPercent >? Fin 5)%num then HIGH else MEDIUM)
        (Trade.openedAt trade) ]
  else [].

(** [list.slice(-n)] *)
Definition sliceLast {A : Type} (n : nat) (l : list A) : list A :=
  skipn (length l - n) l.

(** [for (let i = recentClosed.length - 1; i >= 0; i--)]: the first argument
    [k] is [i + 1], so that [k = 0] is the exit of the loop. *)
Fixpoint lossLoop (recentClosed : list Trade) (k : nat)
    (consecutiveLosses : nat) : nat :=
  match k with
  | O => consecutiveLosses
  | S i =>
      match nth_error recentClosed i with
      | Some t =>
          if (pnlOrZero t <? zero)%num
          then lossLoop recentClosed i (S consecutiveLosses)
          else consecutiveLosses
      | None => consecutiveLosses
      end
  end.

Definition countConsecutiveLosses (closedTrades : list Trade) : nat :=
  let recentClosed := sliceLast 5 closedTrades in
  lossLoop recentClosed (length recentClosed) 0.

(** [today]: the local midnight of the current instant. *)
Definition todayOf (clock : Clock) : Z := startOfDay clock (now clock).

(** The trades whose opening falls on the current calendar day. *)
Definition todayTradesOf (clock : Clock) (trades : list Trade) : list Trade :=
  filter (fun t => (startOfDay clock (Trade.openedAt t) =? todayOf clock)%Z)
    trades.

Definition defaultAccountBalance : number := Fin 10000.

Definition detectBehaviorWarnings (clock : Clock) (trades : list Trade)
    (accountBalance : number) : list BehaviorWarning :=
  let today := todayOf clock in
  let todayTrades := todayTradesOf clock trades in
  let overtrading :=
    if (10 <? length todayTrades)%nat then
      [ mkWarning OVERTRADING (MsgOvertrading (length todayTrades))
          (if (15 <? length todayTrades)%nat then HIGH else MEDIUM) today ]
    else [] in
  let closedTrades := closedWithDate trades in
  let revenge := revengeScan closedTrades in
  let risk := flat_map (riskWarning accountBalance) todayTrades in
  let consecutiveLosses := countConsecutiveLosses closedTrades in
  let streak :=
    if (3 <=? consecutiveLosses)%nat then
      [ mkWarning CONSECUTIVE_LOSS (MsgConsecutive consecutiveLosses)
          (if (5 <=? consecutiveLosses)%nat then HIGH else MEDIUM) today ]
    else [] in
  overtrading ++ revenge ++ risk ++ streak.

(** [accountBalance: number = 10000]: an omitted argument takes the
    default. *)
Definition detectBehaviorWarnings_opt (clock : Clock) (trades : list Trade)
    (accountBalance : option number) : list BehaviorWarning :=
  detectBehaviorWarnings clock trades
    (match accountBalance with Some b => b | None => defaultAccountBalance end).

Definition hasType (ty : WarningType) (w : BehaviorWarning) : bool :=
  match ty, type w with
  | OVERTRADING, OVERTRADING | REVENGE_TRADING, REVENGE_TRADING
  | HIGH_RISK, HIGH_RISK | CONSECUTIVE_LOSS, CONSECUTIVE_LOSS => true
  | _, _ => false
  end.

(** The warnings of one type, in the order they were pushed. *)
Definition warningsOf (ty : WarningType) (ws : list BehaviorWarning)
    : list BehaviorWarning :=
  filter (hasType ty) ws.

(** A clock in UTC, for concrete evaluations. *)
Definition msPerDay : Z := 86400000.
Definition utcClock (now : Z) : Clock :=
  mkClock now (fun t => (t - t mod msPerDay)%Z).

(** ** The specification's vocabulary

    Definitions that follow the words of the specification, to be compared
    with those taken from the source. *)

Module Spec.

(** The P&L of a trade as a real, a missing one counting as [0]. *)
Definition pnlQ (t : Trade) : Q :=
  match Trade.pnl t with Some p => p | None => 0 end.

Definition sumQ (l : list Q) : Q := fold_right Qplus 0 l.

(** [grossProfit = Σ pnl] over winners. *)
Definition grossProfit (closed : list Trade) : Q :=
  sumQ (filter (fun p => Qltb 0 p) (map pnlQ closed)).

(** [grossLoss = |Σ pnl|] over losers. *)
Definition grossLoss (closed : list Trade) : Q :=
  Qabs (sumQ (filter (fun p => Qltb p 0) (map pnlQ closed))).

Definition profitFactor (closed : list Trade) : number :=
  if Qltb 0 (grossLoss closed)
  then Fin (grossProfit closed / grossLoss closed)
  else if Qltb 0 (grossProfit closed) then PosInf else Fin 0.

(** A finite value that is not negative. *)
Definition finiteNonneg (x : number) : Prop :=
  exists q : Q, x = Fin q /\ 0 <= q.

Fixpoint nondecreasing (l : list Q) : bool :=
  match l with
  | [] => true
  | x :: r =>
      match r with
      | [] => true
      | y :: _ => Qle_bool x y && nondecreasing r
      end
  end.

(** The P&L values in close-time order. *)
Definition pnlByCloseTime (closed : list Trade) : list Q :=
  map pnlQ (sortByClose closed).

(** Revenge rule: in ascending close-time order, the later trade of the
    first adjacent pair whose earlier trade lost and whose gap from that
    close to the next open is under five minutes. *)
Fixpoint firstRevenge (ordered : list Trade) : option Trade :=
  match ordered with
  | [] => None
  | earlier :: rest =>
      match rest with
      | [] => None
      | later :: _ =>
          if Qltb (pnlQ earlier) 0 &&
             (Trade.openedAt later - closeTime earlier <? 5 * 60 * 1000)%Z
          then Some later
          else firstRevenge rest
      end
  end.

Definition revengeWarnings (trades : list Trade) : list BehaviorWarning :=
  match firstRevenge (sortByClose (closedWithDate trades)) with
  | Some later => [mkWarning REVENGE_TRADING MsgRevenge HIGH (Trade.openedAt later)]
  | None => []
  end.

(** The [n] last entries of a list. *)
Definition lastEntries {A : Type} (n : nat) (l : list A) : list A :=
  rev (firstn n (rev l)).

Fixpoint leadingLosses (l : list Trade) : nat :=
  match l with
  | [] => 0
  | t :: r => if Qltb (pnlQ t) 0 then S (leadingLosses r) else 0
  end.

(** The streak of losses at the end of a list, counted from its last entry
    back to the first trade that did not lose. *)
Definition trailingLossStreak (l : list Trade) : nat :=
  leadingLosses (rev l).

(** The streak over the five last closed trades of a list, in the order of
    the list. *)
Definition listLossStreak (trades : list Trade) : nat :=
  trailingLossStreak (lastEntries 5 (closedWithDate trades)).

(** Consecutive-loss rule: the streak over the five most recently closed
    trades, counted from the most recent one. *)
Definition recentLossStreak (trades : list Trade) : nat :=
  trailingLossStreak (lastEntries 5 (sortByClose (closedWithDate trades))).

(** Running totals of a sequence of P&L values. *)
Fixpoint runningTotals (from : Q) (l : list Q) : list Q :=
  match l with
  | [] => []
  | x :: r => (from + x) :: runningTotals (from + x) r
  end.

End Spec.

(** ** Concrete trades used in the examples *)

Definition closedTrade (opened closed : Z) (p : Q) : Trade :=
  Trade.mk "BBCA" STOCK BELI 100 (Some (100 + p)) 1 0 opened (Some closed)
    (Some p) (Some p) false.

Definition openTrade (opened : Z) (entry qty : Q) : Trade :=
  Trade.mk "BBCA" STOCK BELI entry None qty 0 opened None None None true.

(** A trade opened at 10:00 UTC and closed at 11:00 UTC, [day] days after
    1 January 2024. *)
Definition dayTrade (day : Z) (p : Q) : Trade :=
  closedTrade (1704103200000 + day * msPerDay)
              (1704106800000 + day * msPerDay) p.

(** ** Vocabulary for the properties beyond the specification *)


(** A trade that closed at exactly zero. *)
Definition breaksEven (t : Trade) : bool := Qeq_bool (Spec.pnlQ t) 0.

(** ** Answers of the handlers and checks of the schemas *)


(** What a handler answers: a body with status 200, status 400 with the
    errors of the schema, or status 400 with a message of the handler. *)
Inductive Response (A : Type) : Type :=
| Ok (body : A)
| Invalid
| Rejected (error : string).
Arguments Ok {A} body.
Arguments Invalid {A}.
Arguments Rejected {A} error.

(** [z.number().positive()] on a number of the request body. *)
Definition positive (x : Q) : bool := Qltb 0 x.

(** ** Trade handlers ([routes/trades.ts])

    The handlers are modelled from the parsed request body to the row they
    write; looking the row up and the 404 answer are left to the storage
    layer.  A date-time string of the body is the instant it denotes. *)

(** A number written to a [Float?] column. *)
Definition stored (x : number) : option Q :=
  match x with Fin q => Some q | _ => None end.

(** Truthiness of an optional number: [x && ...]. *)
Definition given (x : option Q) : bool :=
  match x with Some q => truthy (Fin q) | None => false end.

(** [z.number().min(0)] *)
Definition nonNegative (x : Q) : bool := Qle_bool 0 x.

(** An optional field of a schema passes when it is absent. *)
Definition optionally {A : Type} (check : A -> bool) (x : option A) : bool :=
  match x with Some a => check a | None => true end.

(** [x ?? y] *)
Definition orElse {A : Type} (x : option A) (y : A) : A :=
  match x with Some a => a | None => y end.

(** [z.string().min(1)] *)
Definition nonEmpty (s0 : string) : bool :=
  match s0 with EmptyString => false | _ => true end.

(** The body of [POST /] after [tradeSchema.parse], [fees] before its
    default. *)
Module NewTrade.
Record t : Type := mk {
  asset : string;
  market : Market;
  position : Position;
  entryPrice : Q;
  exitPrice : option Q;
  quantity : Q;
  fees : option Q;
  openedAt : Z;
  closedAt : option Z
}.
End NewTrade.

(** The body of [PUT /:id]: [tradeSchema.partial()]. *)
Module TradePatch.
Record t : Type := mk {
  asset : option string;
  market : option Market;
  position : option Position;
  entryPrice : option Q;
  exitPrice : option Q;
  quantity : option Q;
  fees : option Q;
  openedAt : option Z;
  closedAt : option Z
}.
End TradePatch.

(** The body of [POST /:id/close]. *)
Module CloseRequest.
Record t : Type := mk {
  exitPrice : Q;
  closedAt : option Z;
  fees : option Q
}.
End CloseRequest.

(** [pnl], [pnlPercent] and [isOpen] of a row: computed when an exit price
    and a close time are both there, left as they were otherwise. *)
Definition settle (position : Position) (entryPrice : Q) (exitPrice : option Q)
    (quantity fees : Q) (closedAt : option Z)
    (otherwise : option Q * option Q * bool) : option Q * option Q * bool :=
  match exitPrice, closedAt with
  | Some x, Some _ =>
      if truthy (Fin x) then
        let result :=
          calculatePnL position (Fin entryPrice) (Fin x) (Fin quantity)
            (Fin fees) in
        (stored (pnl result), stored (pnlPercent result), false)
      else otherwise
  | _, _ => otherwise
  end.

Section TradeHandlers.

(** [String.prototype.toUpperCase] *)
Variable toUpperCase : string -> string.

(** [POST /] *)
Definition createTrade (data : NewTrade.t) : Response Trade :=
  if nonEmpty (NewTrade.asset data) && positive (NewTrade.entryPrice data)
     && optionally positive (NewTrade.exitPrice data)
     && positive (NewTrade.quantity data)
     && optionally nonNegative (NewTrade.fees data)
  then
    let fees := orElse (NewTrade.fees data) 0 in
    let '(pnl, pnlPercent, isOpen) :=
      settle (NewTrade.position data) (NewTrade.entryPrice data)
        (NewTrade.exitPrice data) (NewTrade.quantity data) fees
        (NewTrade.closedAt data) (None, None, true) in
    Ok (Trade.mk (toUpperCase (NewTrade.asset data)) (NewTrade.market data)
          (NewTrade.position data) (NewTrade.entryPrice data)
          (NewTrade.exitPrice data) (NewTrade.quantity data) fees
          (NewTrade.openedAt data) (NewTrade.closedAt data)
          pnl pnlPercent isOpen)
  else Invalid.


End TradeHandlers.

(** [POST /:id/close], on the row found, at the instant [now]. *)
Definition closeTrade (now : Z) (existingTrade : Trade)
    (body : CloseRequest.t) : Response Trade :=
  if positive (CloseRequest.exitPrice body)
     && optionally nonNegative (CloseRequest.fees body)
  then
    if negb (Trade.isOpen existingTrade)
    then Rejected "Trade is already closed"
    else
      let totalFees :=
        (Fin (Trade.fees existingTrade) + Fin (orElse (CloseRequest.fees body) 0))%num in
      let result :=
        calculatePnL (Trade.position existingTrade)
          (Fin (Trade.entryPrice existingTrade))
          (Fin (CloseRequest.exitPrice body))
          (Fin (Trade.quantity existingTrade)) totalFees in
      Ok (Trade.mk (Trade.asset existingTrade) (Trade.market existingTrade)
            (Trade.position existingTrade) (Trade.entryPrice existingTrade)
            (Some (CloseRequest.exitPrice body))
            (Trade.quantity existingTrade)
            (Trade.fees existingTrade + orElse (CloseRequest.fees body) 0)
            (Trade.openedAt existingTrade)
            (Some (orElse (CloseRequest.closedAt body) now))
            (stored (pnl result)) (stored (pnlPercent result)) false)
  else Invalid.

(** The P&L of a closed trade, as reals. *)
Definition pnlOf (position : Position) (e x q f : Q) : Q :=
  match position with
  | BELI => (x - e) * q - f
  | JUAL => (e - x) * q - f
  end.

Definition pnlPercentOf (position : Position) (e x q f : Q) : Q :=
  pnlOf position e x q f / (e * q) * 100.



(** Two optional numbers of the same value. *)
Definition sameValue (a b : option Q) : Prop :=
  match a, b with
  | Some x, Some y => x == y
  | None, None => True
  | _, _ => False
  end.

(** Two rows with the same content, numbers compared by value. *)
Definition sameRow (a b : Trade) : Prop :=
  Trade.asset a = Trade.asset b /\ Trade.market a = Trade.market b /\
  Trade.position a = Trade.position b /\
  Trade.entryPrice a == Trade.entryPrice b /\
  sameValue (Trade.exitPrice a) (Trade.exitPrice b) /\
  Trade.quantity a == Trade.quantity b /\ Trade.fees a == Trade.fees b /\
  Trade.openedAt a = Trade.openedAt b /\ Trade.closedAt a = Trade.closedAt b /\
  sameValue (Trade.pnl a) (Trade.pnl b) /\
  sameValue (Trade.pnlPercent a) (Trade.pnlPercent b) /\
  Trade.isOpen a = Trade.isOpen b.

(** ** Accumulating by key

    The handlers group rows with a [Map] (or an array searched with
    [find]): the first row of a key adds an entry at the end, a later row of
    that key updates the entry where it stands. *)

Section Grouping.

Context {K V Row : Type}.
Variable keyEq : K -> K -> bool.
Variable key : Row -> K.
Variable init : Row -> V.
Variable merge : V -> Row -> V.

Fixpoint upsert (acc : list (K * V)) (e : Row) : list (K * V) :=
  match acc with
  | [] => [(key e, init e)]
  | (k, v) :: rest =>
      if keyEq k (key e) then (k, merge v e) :: rest
      else (k, v) :: upsert rest e
  end.

Definition groupBy (l : list Row) : list (K * V) := fold_left upsert l [].

(** [map.get(k)] *)
Definition lookup (k : K) (acc : list (K * V)) : option V :=
  match find (fun kv => keyEq (fst kv) k) acc with
  | Some kv => Some (snd kv)
  | None => None
  end.

(** The keys of a list in the order they first appear. *)
Fixpoint firstSeen (l : list K) : list K :=
  match l with
  | [] => []
  | k :: r => k :: filter (fun k' => negb (keyEq k k')) (firstSeen r)
  end.

(** What the rows of one key accumulate to. *)
Definition accumulated (k : K) (l : list Row) : option V :=
  match filter (fun e => keyEq (key e) k) l with
  | [] => None
  | e :: es => Some (fold_left merge es (init e))
  end.

End Grouping.

(** ** Analytics handlers ([routes/analytics.ts])

    Each handler is modelled on the rows its query returns, in the order in
    which the query returns them. *)

(** [===] on a value that is a string or [undefined]. *)
Definition sameKey (a b : option string) : bool :=
  match a, b with
  | Some x, Some y => String.eqb x y
  | None, None => true
  | _, _ => false
  end.

Module EquityPoint.
Record t : Type := mk {
  date : option string;
  equity : number;
  pnl : number
}.
End EquityPoint.

(** The four bucket sizes of [/profit-by-period]; a [period] that is none
    of ['daily'], ['weekly'] and ['monthly'] is read as yearly. *)
Inductive Period : Type := Daily | Weekly | Monthly | Yearly.

Section Analytics.

(** [toISOString().split('T')[0]]: the UTC calendar day of an instant. *)
Variable isoDate : Z -> string.

(** [t.closedAt?.toISOString().split('T')[0]] *)
Definition closeDate (t : Trade) : option string :=
  option_map isoDate (Trade.closedAt t).

(** [trades.map(t => { cumulative += t.pnl ?? 0; return {...} })], from the
    value [cumulative] has before the first row. *)
Fixpoint curveFrom (cumulative : number) (trades : list Trade)
    : list EquityPoint.t :=
  match trades with
  | [] => []
  | t :: rest =>
      let cumulative := (cumulative + pnlOrZero t)%num in
      EquityPoint.mk (closeDate t) (round2 cumulative) (round2 (pnlOrZero t))
        :: curveFrom cumulative rest
  end.

End Analytics.

Module Tally.
Record t : Type := mk { count : nat; pnl : number }.
End Tally.

Module Distribution.
Record t : Type := mk {
  byAsset : list (string * Tally.t);
  byMarket : list (string * Tally.t);
  byPosition : list (string * Tally.t)
}.
End Distribution.

(** The strings the enums of the schema are at run time. *)
Definition marketName (m : Market) : string :=
  match m with STOCK => "STOCK"%string | CRYPTO => "CRYPTO"%string end.

Definition positionName (p : Position) : string :=
  match p with BELI => "BELI"%string | JUAL => "JUAL"%string end.

Definition emptyTally : Tally.t := Tally.mk 0 zero.

(** [existing.count++; existing.pnl += trade.pnl ?? 0] *)
Definition tally (existing : Tally.t) (trade : Trade) : Tally.t :=
  Tally.mk (S (Tally.count existing))
    (Tally.pnl existing + pnlOrZero trade)%num.

(** [obj[name].count++; obj[name].pnl += trade.pnl ?? 0] on an object
    literal: [obj[name]] is [undefined] when the object has no property
    [name], and reading [count] of [undefined] throws ([None]). *)
Definition tallyAt (name : string) (obj : list (string * Tally.t))
    (trade : Trade) : option (list (string * Tally.t)) :=
  match lookup String.eqb name obj with
  | Some _ =>
      Some (map (fun entry =>
                   if String.eqb (fst entry) name
                   then (fst entry, tally (snd entry) trade)
                   else entry) obj)
  | None => None
  end.

(** [for (const trade of trades) { obj[name(trade)]... }] *)
Fixpoint tallyAll (name : Trade -> string) (obj : list (string * Tally.t))
    (trades : list Trade) : option (list (string * Tally.t)) :=
  match trades with
  | [] => Some obj
  | trade :: rest =>
      match tallyAt (name trade) obj trade with
      | Some obj' => tallyAll name obj' rest
      | None => None
      end
  end.

(** [pnl: Math.round(data.pnl * 100) / 100] on every entry. *)
Definition roundedTallies (entries : list (string * Tally.t))
    : list (string * Tally.t) :=
  map (fun entry =>
         (fst entry,
          Tally.mk (Tally.count (snd entry)) (round2 (Tally.pnl (snd entry)))))
    entries.

Definition byMarketStart : list (string * Tally.t) :=
  [("STOCK"%string, emptyTally); ("CRYPTO"%string, emptyTally)].

Definition byPositionStart : list (string * Tally.t) :=
  [("LONG"%string, emptyTally); ("SHORT"%string, emptyTally)].

(** [GET /distribution]; [None] is the answer of the [catch], status 500. *)
Definition distribution (trades : list Trade) : option Distribution.t :=
  let byAsset :=
    groupBy String.eqb Trade.asset (fun trade => tally emptyTally trade)
      tally trades in
  match tallyAll (fun trade => marketName (Trade.market trade))
          byMarketStart trades with
  | None => None
  | Some byMarket =>
      match tallyAll (fun trade => positionName (Trade.position trade))
              byPositionStart trades with
      | None => None
      | Some byPosition =>
          Some (Distribution.mk (roundedTallies byAsset)
                  (roundedTallies byMarket) (roundedTallies byPosition))
      end
  end.

(** ** Portfolio handlers ([routes/portfolio.ts]) *)




Module Summary.
Record t : Type := mk {
  totalValue : number;
  accountBalance : number;
  investedAmount : number;
  realizedPnL : number;
  unrealizedPnL : number;
  openPositions : nat;
  totalPositions : nat
}.
End Summary.


Module Holding.
Record t : Type := mk { value : number; quantity : number }.
End Holding.







Module PerformancePoint.
Record t : Type := mk {
  date : string;
  pnl : number;
  cumulativePnL : number
}.
End PerformancePoint.

Section Performance.

Variable isoDate : Z -> string.



End Performance.






(** * The engine on IEEE doubles

    [+], [-], [*] and [/] are the IEEE operations, a comparison with [NaN]
    is false, and [Math.round] and [Math.floor] work on the bits of their
    argument. *)

Module Binary64.

Local Open Scope float_scope.

(** ** JavaScript numbers *)

(** The integer [n] as a double; a zero takes the sign asked for.  The
    conversion is exact for [|n| <= 2^53]. *)
Definition ofInteger (negative : bool) (n : Z) : float :=
  match n with
  | Z0 => if negative then -0 else 0
  | Zpos _ => of_uint63 (Uint63.of_Z n)
  | Zneg p => - of_uint63 (Uint63.of_Z (Zpos p))
  end.

(** [array.length] used as a number. *)
Definition of_nat (n : nat) : float := ofInteger false (Z.of_nat n).

(** [Math.round], on the sign [s], mantissa [m] and exponent [e] of its
    argument [(-1)^s * m * 2^e]: a double with no fractional bit, an
    infinity or [NaN] is returned as it is; otherwise the result is the
    integer [floor (y + 1/2)], computed on the bits, with the sign of [y]
    when it is zero. *)
Definition round (y : float) : float :=
  match Prim2SF y with
  | S754_finite s m e =>
      if (0 <=? e)%Z then y
      else
        let v := cond_Zopp s (Zpos m) in
        if (v mod 2 ^ (- e) =? 0)%Z then y
        else ofInteger s ((v + 2 ^ (- e - 1)) / 2 ^ (- e))%Z
  | _ => y
  end.

(** [Math.round(x * 100) / 100] *)
Definition round2 (x : float) : float := round (x * 100) / 100.

(** The real a finite double stands for. *)
Definition exact (x : float) : option Q :=
  match Prim2SF x with
  | S754_zero _ => Some 0%Q
  | S754_finite s m e => Some (inject_Z (cond_Zopp s (Zpos m)) * 2 ^ e)%Q
  | _ => None
  end.

(** ** PnL calculator *)

Record PnLResult : Type := mkPnL { pnl : float; pnlPercent : float }.

Definition calculatePnL (position : Position)
    (entryPrice exitPrice quantity fees : float) : PnLResult :=
  let pnl :=
    match position with
    | BELI => (exitPrice - entryPrice) * quantity - fees
    | JUAL => (entryPrice - exitPrice) * quantity - fees
    end in
  let investment := entryPrice * quantity in
  let pnlPercent := if 0 <? investment then (pnl / investment) * 100 else 0 in
  {| pnl := pnl; pnlPercent := pnlPercent |}.

(** ** Trades *)

(** The [Trade] row with its [Float] columns as doubles. *)
Module Trade.
Record t : Type := mk {
  asset : string;
  market : Market;
  position : Position;
  entryPrice : float;
  exitPrice : option float;
  quantity : float;
  fees : float;
  openedAt : Z;
  closedAt : option Z;
  pnl : option float;
  pnlPercent : option float;
  isOpen : bool
}.
End Trade.

(** [t.pnl ?? 0] *)
Definition pnlOrZero (t : Trade.t) : float :=
  match Trade.pnl t with Some p => p | None => 0 end.

(** ** Metrics aggregator *)

Record PerformanceMetrics : Type := mkMetrics {
  totalTrades : nat;
  winningTrades : nat;
  losingTrades : nat;
  winRate : float;
  avgWin : float;
  avgLoss : float;
  profitFactor : float;
  maxDrawdown : float;
  expectancy : float
}.

(** [a.closedAt ? new Date(a.closedAt).getTime() : 0] *)
Definition closeTime (t : Trade.t) : Z :=
  match Trade.closedAt t with Some d => d | None => 0%Z end.

(** [[...trades].sort((a, b) => dateA - dateB)], a stable sort. *)
Fixpoint insertByClose (t : Trade.t) (l : list Trade.t) : list Trade.t :=
  match l with
  | [] => [t]
  | u :: r =>
      if (closeTime t <=? closeTime u)%Z then t :: l
      else u :: insertByClose t r
  end.

Fixpoint sortByClose (l : list Trade.t) : list Trade.t :=
  match l with
  | [] => []
  | t :: r => insertByClose t (sortByClose r)
  end.

(** The three loop variables of [calculateMaxDrawdown]. *)
Record Drawdown : Type := mkDD {
  dd_peak : float;
  dd_maxDrawdown : float;
  dd_cumulative : float
}.

(** One iteration of [for (const trade of sortedTrades)]. *)
Definition drawdownStep (s : Drawdown) (trade : Trade.t) : Drawdown :=
  let cumulative := dd_cumulative s + pnlOrZero trade in
  let peak := if dd_peak s <? cumulative then cumulative else dd_peak s in
  let drawdown := peak - cumulative in
  let maxDrawdown :=
    if dd_maxDrawdown s <? drawdown then drawdown else dd_maxDrawdown s in
  mkDD peak maxDrawdown cumulative.

Definition calculateMaxDrawdown (trades : list Trade.t) : float :=
  match trades with
  | [] => 0
  | _ =>
      let sortedTrades := sortByClose trades in
      dd_maxDrawdown (fold_left drawdownStep sortedTrades (mkDD 0 0 0))
  end.

(** The full-precision values of [calculateMetrics], one definition per
    [const] of the source, as functions of [closedTrades]. *)
Module Internal.

Definition winningTrades (closedTrades : list Trade.t) : list Trade.t :=
  filter (fun t => 0 <? pnlOrZero t) closedTrades.

Definition losingTrades (closedTrades : list Trade.t) : list Trade.t :=
  filter (fun t => pnlOrZero t <? 0) closedTrades.

(** [list.reduce((sum, t) => sum + (t.pnl ?? 0), 0)] *)
Definition sumPnl (l : list Trade.t) : float :=
  fold_left (fun sum t => sum + pnlOrZero t) l 0.

Definition grossProfit (closedTrades : list Trade.t) : float :=
  sumPnl (winningTrades closedTrades).

Definition grossLoss (closedTrades : list Trade.t) : float :=
  PrimFloat.abs (sumPnl (losingTrades closedTrades)).

Definition winRate (closedTrades : list Trade.t) : float :=
  if (0 <? length closedTrades)%nat
  then of_nat (length (winningTrades closedTrades))
       / of_nat (length closedTrades) * 100
  else 0.

Definition avgWin (closedTrades : list Trade.t) : float :=
  if (0 <? length (winningTrades closedTrades))%nat
  then grossProfit closedTrades / of_nat (length (winningTrades closedTrades))
  else 0.

Definition avgLoss (closedTrades : list Trade.t) : float :=
  if (0 <? length (losingTrades closedTrades))%nat
  then grossLoss closedTrades / of_nat (length (losingTrades closedTrades))
  else 0.

Definition profitFactor (closedTrades : list Trade.t) : float :=
  if 0 <? grossLoss closedTrades
  then grossProfit closedTrades / grossLoss closedTrades
  else if 0 <? grossProfit closedTrades then infinity else 0.

Definition maxDrawdown (closedTrades : list Trade.t) : float :=
  calculateMaxDrawdown closedTrades.

Definition lossRate (closedTrades : list Trade.t) : float :=
  100 - winRate closedTrades.

Definition expectancy (closedTrades : list Trade.t) : float :=
  winRate closedTrades / 100 * avgWin closedTrades
  - lossRate closedTrades / 100 * avgLoss closedTrades.

End Internal.

Definition zeroMetrics : PerformanceMetrics :=
  mkMetrics 0 0 0 0 0 0 0 0 0.

(** [trades.filter(t => !t.isOpen && t.pnl !== null)] *)
Definition closedWithPnl (trades : list Trade.t) : list Trade.t :=
  filter (fun t => negb (Trade.isOpen t) && isSome (Trade.pnl t)) trades.

Definition calculateMetrics (trades : list Trade.t) : PerformanceMetrics :=
  let closedTrades := closedWithPnl trades in
  if (length closedTrades =? 0)%nat then zeroMetrics
  else
    {| totalTrades := length closedTrades;
       winningTrades := length (Internal.winningTrades closedTrades);
       losingTrades := length (Internal.losingTrades closedTrades);
       winRate := round2 (Internal.winRate closedTrades);
       avgWin := round2 (Internal.avgWin closedTrades);
       avgLoss := round2 (Internal.avgLoss closedTrades);
       profitFactor := round2 (Internal.profitFactor closedTrades);
       maxDrawdown := round2 (Internal.maxDrawdown closedTrades);
       expectancy := round2 (Internal.expectancy closedTrades) |}.

(** ** Analytics handlers ([routes/analytics.ts])

    Each handler is modelled on the rows its query returns, in the order in
    which the query returns them. *)

Module EquityPoint.
Record t : Type := mk {
  date : option string;
  equity : float;
  pnl : float
}.
End EquityPoint.

Section Analytics.

(** [toISOString().split('T')[0]]: the UTC calendar day of an instant. *)
Variable isoDate : Z -> string.

(** The other keys of [/profit-by-period], which read the calendar of the
    host: the day of the Monday of the week, the month and the year. *)
Variable weekStartDate : Z -> string.
Variable monthKey : Z -> string.
Variable yearKey : Z -> string.

(** [t.closedAt?.toISOString().split('T')[0]] *)
Definition closeDate (t : Trade.t) : option string :=
  option_map isoDate (Trade.closedAt t).

(** [trades.map(t => { cumulative += t.pnl ?? 0; return {...} })], from the
    value [cumulative] has before the first row. *)
Fixpoint curveFrom (cumulative : float) (trades : list Trade.t)
    : list EquityPoint.t :=
  match trades with
  | [] => []
  | t :: rest =>
      let cumulative := cumulative + pnlOrZero t in
      EquityPoint.mk (closeDate t) (round2 cumulative) (round2 (pnlOrZero t))
        :: curveFrom cumulative rest
  end.

(** [existing.equity = point.equity; existing.pnl += point.pnl] *)
Definition aggregate (existing point : EquityPoint.t) : EquityPoint.t :=
  EquityPoint.mk (EquityPoint.date existing) (EquityPoint.equity point)
    (EquityPoint.pnl existing + EquityPoint.pnl point).

(** [GET /equity-curve]: [curve.reduce] finds the point of a date in the
    accumulator or pushes a copy of the point at its end. *)
Definition equityCurve (trades : list Trade.t) : list EquityPoint.t :=
  let curve := curveFrom 0 trades in
  map snd (groupBy sameKey EquityPoint.date (fun point => point) aggregate
             curve).

Definition periodKey (period : Period) (date : Z) : string :=
  match period with
  | Daily => isoDate date
  | Weekly => weekStartDate date
  | Monthly => monthKey date
  | Yearly => yearKey date
  end.

(** [if (!trade.closedAt) continue] *)
Definition dated (trades : list Trade.t) : list Trade.t :=
  filter (fun t => isSome (Trade.closedAt t)) trades.

(** The [Map] of [/profit-by-period] when its loop ends:
    [grouped.set(key, (grouped.get(key) ?? 0) + (trade.pnl ?? 0))]. *)
Definition grouped (period : Period) (trades : list Trade.t)
    : list (string * float) :=
  groupBy String.eqb (fun trade => periodKey period (closeTime trade))
    (fun trade => 0 + pnlOrZero trade)
    (fun profit trade => profit + pnlOrZero trade)
    (dated trades).

(** [GET /profit-by-period] *)
Definition profitByPeriod (period : Period) (trades : list Trade.t)
    : list (string * float) :=
  map (fun entry => (fst entry, round2 (snd entry))) (grouped period trades).

End Analytics.

(** ** Behaviour analyser *)

Inductive Message : Type :=
| MsgOvertrading (todayCount : nat)
| MsgRevenge
| MsgHighRisk (asset : string) (riskPercent : float)
| MsgConsecutive (consecutiveLosses : nat).

Record BehaviorWarning : Type := mkWarning {
  type : WarningType;
  message : Message;
  severity : Severity;
  date : Z
}.

(** A number used as a condition: [0], [-0] and [NaN] are falsy. *)
Definition truthy (x : float) : bool := negb (x =? 0) && negb (is_nan x).

(** [trades.filter(t => !t.isOpen && t.closedAt)] *)
Definition closedWithDate (trades : list Trade.t) : list Trade.t :=
  filter (fun t => negb (Trade.isOpen t) && isSome (Trade.closedAt t)) trades.

(** The test on one adjacent pair of the revenge loop:
    [prevTrade.pnl && prevTrade.pnl < 0 && prevTrade.closedAt], then
    [timeDiff < 5 * 60 * 1000]. *)
Definition revengePair (prevTrade currTrade : Trade.t) : bool :=
  match Trade.pnl prevTrade, Trade.closedAt prevTrade with
  | Some p, Some closed =>
      truthy p && (p <? 0) &&
      (let timeDiff := (Trade.openedAt currTrade - closed)%Z in
       (timeDiff <? fiveMinutes)%Z)
  | _, _ => false
  end.

Definition revengeWarning (currTrade : Trade.t) : BehaviorWarning :=
  mkWarning REVENGE_TRADING MsgRevenge HIGH (Trade.openedAt currTrade).

(** [for (let i = 1; i < closedTrades.length; i++)] over the pairs
    [(closedTrades[i - 1], closedTrades[i])], leaving at the first push. *)
Fixpoint revengeScan (closedTrades : list Trade.t) : list BehaviorWarning :=
  match closedTrades with
  | prevTrade :: rest =>
      match rest with
      | currTrade :: _ =>
          if revengePair prevTrade currTrade then [revengeWarning currTrade]
          else revengeScan rest
      | [] => []
      end
  | [] => []
  end.

Definition riskPercentOf (accountBalance : float) (trade : Trade.t) : float :=
  let riskAmount := Trade.entryPrice trade * Trade.quantity trade in
  (riskAmount / accountBalance) * 100.

(** The body of [for (const trade of todayTrades)]. *)
Definition riskWarning (accountBalance : float) (trade : Trade.t)
    : list BehaviorWarning :=
  let riskPercent := riskPercentOf accountBalance trade in
  if 2 <? riskPercent then
    [ mkWarning HIGH_RISK (MsgHighRisk (Trade.asset trade) riskPercent)
        (if 5 <? riskPercent then HIGH else MEDIUM)
        (Trade.openedAt trade) ]
  else [].

(** [for (let i = recentClosed.length - 1; i >= 0; i--)]: the first argument
    [k] is [i + 1], so that [k = 0] is the exit of the loop. *)
Fixpoint lossLoop (recentClosed : list Trade.t) (k : nat)
    (consecutiveLosses : nat) : nat :=
  match k with
  | O => consecutiveLosses
  | S i =>
      match nth_error recentClosed i with
      | Some t =>
          if pnlOrZero t <? 0
          then lossLoop recentClosed i (S consecutiveLosses)
          else consecutiveLosses
      | None => consecutiveLosses
      end
  end.

Definition countConsecutiveLosses (closedTrades : list Trade.t) : nat :=
  let recentClosed := sliceLast 5 closedTrades in
  lossLoop recentClosed (length recentClosed) 0.

(** The trades whose opening falls on the current calendar day. *)
Definition todayTradesOf (clock : Clock) (trades : list Trade.t)
    : list Trade.t :=
  filter (fun t => (startOfDay clock (Trade.openedAt t) =? todayOf clock)%Z)
    trades.

Definition defaultAccountBalance : float := 10000.

Definition detectBehaviorWarnings (clock : Clock) (trades : list Trade.t)
    (accountBalance : float) : list BehaviorWarning :=
  let today := todayOf clock in
  let todayTrades := todayTradesOf clock trades in
  let overtrading :=
    if (10 <? length todayTrades)%nat then
      [ mkWarning OVERTRADING (MsgOvertrading (length todayTrades))
          (if (15 <? length todayTrades)%nat then HIGH else MEDIUM) today ]
    else [] in
  let closedTrades := closedWithDate trades in
  let revenge := revengeScan closedTrades in
  let risk := flat_map (riskWarning accountBalance) todayTrades in
  let consecutiveLosses := countConsecutiveLosses closedTrades in
  let streak :=
    if (3 <=? consecutiveLosses)%nat then
      [ mkWarning CONSECUTIVE_LOSS (MsgConsecutive consecutiveLosses)
          (if (5 <=? consecutiveLosses)%nat then HIGH else MEDIUM) today ]
    else [] in
  overtrading ++ revenge ++ risk ++ streak.

Definition hasType (ty : WarningType) (w : BehaviorWarning) : bool :=
  match ty, type w with
  | OVERTRADING, OVERTRADING | REVENGE_TRADING, REVENGE_TRADING
  | HIGH_RISK, HIGH_RISK | CONSECUTIVE_LOSS, CONSECUTIVE_LOSS => true
  | _, _ => false
  end.

(** The warnings of one type, in the order they were pushed. *)
Definition warningsOf (ty : WarningType) (ws : list BehaviorWarning)
    : list BehaviorWarning :=
  filter (hasType ty) ws.

(** ** Risk calculators ([routes/risk.ts]) *)

(** [Math.floor], on the sign, mantissa and exponent of its argument: a
    double with no fractional bit, an infinity or [NaN] is returned as it
    is; otherwise the result is the integer below, computed on the bits. *)
Definition floor (y : float) : float :=
  match Prim2SF y with
  | S754_finite s m e =>
      if (0 <=? e)%Z then y
      else
        let v := cond_Zopp s (Zpos m) in
        if (v mod 2 ^ (- e) =? 0)%Z then y
        else ofInteger s (v / 2 ^ (- e))%Z
  | _ => y
  end.

(** [Math.floor(x * 100) / 100] *)
Definition floor2 (x : float) : float := floor (x * 100) / 100.

(** [z.number().positive()] and [z.number().positive().max(100)] on a
    number of the request body; [NaN] is no number for the schema. *)
Definition positive (x : float) : bool := 0 <? x.
Definition percent (x : float) : bool := (0 <? x) && (x <=? 100).

Module PositionSize.

Record request : Type := mkRequest {
  accountBalance : float;
  riskPercent : float;
  entryPrice : float;
  stopLoss : float
}.

Record result : Type := mkResult {
  positionSize : float;
  totalValue : float;
  riskAmount : float;
  riskPerUnit : float;
  portfolioPercent : float
}.

Definition valid (r : request) : bool :=
  positive (accountBalance r) && percent (riskPercent r)
  && positive (entryPrice r) && positive (stopLoss r).

(** The values of the handler before [Math.floor(x * 100) / 100]. *)
Definition values (r : request) : result :=
  let riskAmount := accountBalance r * (riskPercent r / 100) in
  let riskPerUnit := PrimFloat.abs (entryPrice r - stopLoss r) in
  let positionSize := riskAmount / riskPerUnit in
  let totalValue := positionSize * entryPrice r in
  let portfolioPercent := (totalValue / accountBalance r) * 100 in
  mkResult positionSize totalValue riskAmount riskPerUnit portfolioPercent.

(** The body of the answer. *)
Definition answer (r : request) : result :=
  let v := values r in
  mkResult (floor2 (positionSize v)) (floor2 (totalValue v))
    (floor2 (riskAmount v)) (floor2 (riskPerUnit v))
    (floor2 (portfolioPercent v)).

(** [POST /calculate/position-size] *)
Definition handle (r : request) : Response result :=
  if valid r then
    if riskPerUnit (values r) =? 0
    then Rejected "Stop loss cannot be equal to entry price"
    else Ok (answer r)
  else Invalid.

End PositionSize.

Module RiskReward.

Record request : Type := mkRequest {
  entryPrice : float;
  stopLoss : float;
  targetPrice : float;
  position : Position
}.

Record result : Type := mkResult {
  risk : float;
  reward : float;
  riskRewardRatio : float;
  riskPercent : float;
  rewardPercent : float;
  isGoodTrade : bool
}.

Definition valid (r : request) : bool :=
  positive (entryPrice r) && positive (stopLoss r)
  && positive (targetPrice r).

Definition riskOf (r : request) : float :=
  match position r with
  | BELI => entryPrice r - stopLoss r
  | JUAL => stopLoss r - entryPrice r
  end.

Definition rewardOf (r : request) : float :=
  match position r with
  | BELI => targetPrice r - entryPrice r
  | JUAL => entryPrice r - targetPrice r
  end.

(** The body of the answer. *)
Definition answer (r : request) : result :=
  let risk := riskOf r in
  let reward := rewardOf r in
  let riskRewardRatio := reward / risk in
  let riskPercent := (risk / entryPrice r) * 100 in
  let rewardPercent := (reward / entryPrice r) * 100 in
  mkResult (floor2 risk) (floor2 reward) (floor2 riskRewardRatio)
    (floor2 riskPercent) (floor2 rewardPercent)
    (2 <=? riskRewardRatio).

(** [POST /calculate/risk-reward] *)
Definition handle (r : request) : Response result :=
  if valid r then
    if riskOf r <=? 0
    then Rejected "Invalid stop loss for the given position"
    else if rewardOf r <=? 0
    then Rejected "Invalid target price for the given position"
    else Ok (answer r)
  else Invalid.

End RiskReward.

(** ** The specification's vocabulary, on doubles *)

Module Spec.

(** [Math.round] as the language defines it: the integer nearest to the
    argument, a tie going toward [+infinity]; an argument that is an
    integer, an infinity or [NaN] is the result; a zero result has the
    sign of the argument. *)
Definition mathRound (y : float) : float :=
  match exact y with
  | Some q =>
      if Qeq_bool q (inject_Z (Qfloor q)) then y
      else ofInteger (Qltb q 0) (Qfloor (q + (1 # 2)))
  | None => y
  end.

(** Two decimals by [Math.round(x * 100) / 100]. *)
Definition roundTiesUp2 (x : float) : float := mathRound (x * 100) / 100.

(** [Math.floor] as the language defines it: the greatest integer that is
    not above the argument; an argument that is an integer, an infinity or
    [NaN] is the result. *)
Definition mathFloor (y : float) : float :=
  match exact y with
  | Some q =>
      if Qeq_bool q (inject_Z (Qfloor q)) then y
      else ofInteger (Qltb q 0) (Qfloor q)
  | None => y
  end.

(** Two decimals by round-half-away-from-zero: the multiple of [1/100]
    nearest to the value of [x], a tie going away from zero, as a double. *)
Definition roundHalfAway2 (x : float) : float :=
  match exact x with
  | Some q =>
      let k :=
        if Qltb q 0 then (- Qfloor (- q * 100 + (1 # 2)))%Z
        else Qfloor (q * 100 + (1 # 2)) in
      if (Z.abs k <? 2 ^ 53)%Z then ofInteger (Qltb q 0) k / 100 else x
  | None => x
  end.

End Spec.

(** Concrete rows used in the examples. *)
Definition closedTrade (closed : Z) (p : float) : Trade.t :=
  Trade.mk "BBCA" STOCK BELI 100 (Some (100 + p)) 1 0 0%Z (Some closed)
    (Some p) (Some p) false.

(** Two infinities of one sign: their difference is [NaN]. *)
Definition sameInfinity (x y : float) : bool := is_infinity x && (x =? y).

(** [x] is at most [y], and their difference is a number. *)
Definition notAbove (x y : float) : bool :=
  (x <=? y) && negb (sameInfinity x y).

(** A row opened at [opened] with the given entry price and quantity. *)
Definition openTrade (opened : Z) (entry qty : float) : Trade.t :=
  Trade.mk "BBCA" STOCK BELI entry None qty 0 opened None None None true.

End Binary64.

(** * Properties *)

(** ** Numbers *)

Lemma Qltb_lt (x y : Q) : Qltb x y = true <-> x < y.
Proof.
  unfold Qltb. rewrite Qlt_alt. destruct (x ?= y); split; congruence.
Qed.

Lemma Qltb_ge (x y : Q) : Qltb x y = false <-> y <= x.
Proof.
  rewrite <- not_true_iff_false, Qltb_lt. split.
  - apply Qnot_lt_le.
  - apply Qle_not_lt.
Qed.

Lemma Qeq_bool_false (x y : Q) : Qeq_bool x y = false <-> ~ x == y.
Proof.
  rewrite <- not_true_iff_false, Qeq_bool_iff. reflexivity.
Qed.

Lemma gtb_fin (x y : Q) : (Fin x >? Fin y)%num = Qltb y x.
Proof. reflexivity. Qed.

Lemma div_fin (x y : Q) : ~ y == 0 -> (Fin x / Fin y)%num = Fin (x / y).
Proof.
  intros H. unfold div. apply Qeq_bool_false in H. now rewrite H.
Qed.

(** ** PnL calculator *)

(** C1. [calculatePnL], on doubles: [pnl] is
    [(exitPrice - entryPrice) * quantity - fees] for [BELI] (long) and
    [(entryPrice - exitPrice) * quantity - fees] for [JUAL] (short);
    [pnlPercent] is [pnl / (entryPrice * quantity) * 100] when
    [entryPrice * quantity > 0] and [0] otherwise.  The operations are those
    of the doubles, so the equations hold for every input, an overflow or an
    underflow of [entryPrice * quantity] included. *)
Theorem calculatePnL_formula (entryPrice exitPrice quantity fees : float) :
  Binary64.pnl (Binary64.calculatePnL BELI entryPrice exitPrice quantity fees)
  = ((exitPrice - entryPrice) * quantity - fees)%float /\
  Binary64.pnl (Binary64.calculatePnL JUAL entryPrice exitPrice quantity fees)
  = ((entryPrice - exitPrice) * quantity - fees)%float /\
  forall position : Position,
    let r :=
      Binary64.calculatePnL position entryPrice exitPrice quantity fees in
    let investment := (entryPrice * quantity)%float in
    ((0 <? investment)%float = true ->
     Binary64.pnlPercent r = (Binary64.pnl r / investment * 100)%float) /\
    ((0 <? investment)%float = false -> Binary64.pnlPercent r = 0%float).
Proof.
  split; [reflexivity|]. split; [reflexivity|].
  intros position r investment. subst r investment.
  unfold Binary64.calculatePnL. cbn [Binary64.pnl Binary64.pnlPercent].
  split; intros ->; reflexivity.
Qed.

(** A long trade of 3 units from 0.1 to 0.3: the P&L is the double 0.6 and
    the percentage is just under 200. *)
Example calculatePnL_rounding_example :
  Binary64.calculatePnL BELI 0.1 0.3 3 0
  = Binary64.mkPnL 0.6 199.99999999999994.
Proof. vm_compute. reflexivity. Qed.

(** Finite inputs whose products overflow: the P&L is [Infinity], the
    investment is [Infinity], which passes the guard, and the percentage is
    [NaN]. *)
Example calculatePnL_overflow_example :
  Binary64.calculatePnL BELI 0x1p600 0x1p601 0x1p600 0
  = Binary64.mkPnL infinity nan.
Proof. vm_compute. reflexivity. Qed.

(** Positive inputs whose product underflows to [0]: the guard fails and
    the percentage is [0]. *)
Example calculatePnL_underflow_example :
  Binary64.calculatePnL BELI 1e-200 2e-200 1e-200 0 = Binary64.mkPnL 0 0.
Proof. vm_compute. reflexivity. Qed.

(** C8. With no fees, the P&L of the long position is the exact negation of
    the P&L of the short position on the same prices and quantity, whether
    the zero fee is passed or left to the default. *)
Theorem calculatePnL_long_short_symmetry (e x q : Q) :
  forall fees : option number,
    let long := pnl (calculatePnL_opt BELI (Fin e) (Fin x) (Fin q) fees) in
    let short := pnl (calculatePnL_opt JUAL (Fin e) (Fin x) (Fin q) fees) in
    fees = None \/ fees = Some (Fin 0) ->
    long =~= neg short /\ eqb long (neg short) = true.
Proof.
  intros fees long short Hfees.
  assert (E : long = Fin ((x - e) * q - 0) /\ short = Fin ((e - x) * q - 0))
    by (destruct Hfees; subst; split; reflexivity).
  destruct E as [-> ->]. cbn [neg equiv eqb].
  assert (H : (x - e) * q - 0 == - ((e - x) * q - 0)) by ring.
  split; [exact H | now apply Qeq_bool_iff].
Qed.

Lemma calculatePnL_long_short_symmetry_witness :
  eqb (pnl (calculatePnL_opt BELI (Fin 100) (Fin 110) (Fin 10) None))
      (neg (pnl (calculatePnL_opt JUAL (Fin 100) (Fin 110) (Fin 10) None)))
    = true.
Proof.
  apply (calculatePnL_long_short_symmetry 100 110 10 None). left. reflexivity.
Defined.

(** ** Metrics aggregator: sums *)

Lemma pnlOrZero_fin (t : Trade) : pnlOrZero t = Fin (Spec.pnlQ t).
Proof.
  unfold pnlOrZero, Spec.pnlQ. now destruct (Trade.pnl t).
Qed.


Lemma fold_left_Qplus (l : list Q) (a : Q) :
  fold_left Qplus l a == a + Spec.sumQ l.
Proof.
  revert a. induction l as [|x l IH]; intros a; simpl.
  - ring.
  - rewrite IH. ring.
Qed.

Lemma sumPnl_from (l : list Trade) (a : Q) :
  fold_left (fun sum t => (sum + pnlOrZero t)%num) l (Fin a)
  = Fin (fold_left Qplus (map Spec.pnlQ l) a).
Proof.
  revert a. induction l as [|t l IH]; intros a; simpl.
  - reflexivity.
  - rewrite pnlOrZero_fin. cbn [add]. apply IH.
Qed.

Lemma sumPnl_fin (l : list Trade) :
  exists s : Q, Internal.sumPnl l = Fin s /\ s == Spec.sumQ (map Spec.pnlQ l).
Proof.
  exists (fold_left Qplus (map Spec.pnlQ l) 0). split.
  - apply sumPnl_from.
  - rewrite fold_left_Qplus. ring.
Qed.

Lemma map_filter_comm {A B : Type} (f : A -> B) (p : B -> bool) (l : list A) :
  map f (filter (fun a => p (f a)) l) = filter p (map f l).
Proof.
  induction l as [|a l IH]; simpl; [reflexivity|].
  destruct (p (f a)); simpl; now rewrite IH.
Qed.

Lemma winningTrades_pnl (closed : list Trade) :
  map Spec.pnlQ (Internal.winningTrades closed)
  = filter (fun p => Qltb 0 p) (map Spec.pnlQ closed).
Proof.
  rewrite <- map_filter_comm. unfold Internal.winningTrades. f_equal.
  apply filter_ext. intros t. now rewrite pnlOrZero_fin.
Qed.

Lemma losingTrades_pnl (closed : list Trade) :
  map Spec.pnlQ (Internal.losingTrades closed)
  = filter (fun p => Qltb p 0) (map Spec.pnlQ closed).
Proof.
  rewrite <- map_filter_comm. unfold Internal.losingTrades. f_equal.
  apply filter_ext. intros t. now rewrite pnlOrZero_fin.
Qed.

Lemma grossProfit_fin (closed : list Trade) :
  exists g : Q,
    Internal.grossProfit closed = Fin g /\ g == Spec.grossProfit closed.
Proof.
  destruct (sumPnl_fin (Internal.winningTrades closed)) as (s & Hs & Es).
  exists s. split; [exact Hs|].
  unfold Spec.grossProfit. now rewrite <- winningTrades_pnl.
Qed.

Lemma grossLoss_fin (closed : list Trade) :
  exists l : Q,
    Internal.grossLoss closed = Fin l /\ l == Spec.grossLoss closed.
Proof.
  destruct (sumPnl_fin (Internal.losingTrades closed)) as (s & Hs & Es).
  exists (Qabs s). split.
  - unfold Internal.grossLoss. now rewrite Hs.
  - unfold Spec.grossLoss. rewrite <- losingTrades_pnl. now rewrite Es.
Qed.

Lemma sumQ_nonneg (l : list Q) :
  Forall (fun p => 0 <= p) l -> 0 <= Spec.sumQ l.
Proof.
  induction 1 as [|p l Hp _ IH]; simpl; lra.
Qed.

Lemma grossProfit_nonneg (closed : list Trade) : 0 <= Spec.grossProfit closed.
Proof.
  apply sumQ_nonneg, Forall_forall. intros p Hp.
  apply filter_In in Hp as [_ Hp]. apply Qltb_lt in Hp. lra.
Qed.

Lemma grossLoss_nonneg (closed : list Trade) : 0 <= Spec.grossLoss closed.
Proof. apply Qabs_nonneg. Qed.

Lemma calculateMetrics_nonempty (trades : list Trade) :
  closedWithPnl trades <> [] ->
  calculateMetrics trades =
    let closedTrades := closedWithPnl trades in
    {| totalTrades := length closedTrades;
       winningTrades := length (Internal.winningTrades closedTrades);
       losingTrades := length (Internal.losingTrades closedTrades);
       winRate := round2 (Internal.winRate closedTrades);
       avgWin := round2 (Internal.avgWin closedTrades);
       avgLoss := round2 (Internal.avgLoss closedTrades);
       profitFactor := round2 (Internal.profitFactor closedTrades);
       maxDrawdown := round2 (Internal.maxDrawdown closedTrades);
       expectancy := round2 (Internal.expectancy closedTrades) |}.
Proof.
  intros H. unfold calculateMetrics.
  destruct (closedWithPnl trades) as [|t l]; [contradiction|reflexivity].
Qed.



(** ** Sorting by close time *)

Lemma insertByClose_perm (t : Trade) (l : list Trade) :
  Permutation (t :: l) (insertByClose t l).
Proof.
  induction l as [|u r IH]; simpl; [reflexivity|].
  destruct (closeTime t <=? closeTime u)%Z; [reflexivity|].
  rewrite perm_swap. now apply perm_skip.
Qed.

Lemma sortByClose_perm (l : list Trade) : Permutation l (sortByClose l).
Proof.
  induction l as [|t r IH]; simpl; [constructor|].
  rewrite <- insertByClose_perm. now apply perm_skip.
Qed.

Lemma insertByClose_sorted (t : Trade) (l : list Trade) :
  StronglySorted closesBefore l -> StronglySorted closesBefore (insertByClose t l).
Proof.
  induction 1 as [|u r Hr IH Hu]; simpl.
  - repeat constructor.
  - destruct (closeTime t <=? closeTime u)%Z eqn:E.
    + apply Z.leb_le in E. constructor; [now constructor|].
      constructor; [exact E|].
      eapply Forall_impl; [|exact Hu]. unfold closesBefore. intros; lia.
    + apply Z.leb_gt in E. constructor; [exact IH|].
      rewrite <- insertByClose_perm.
      constructor; [unfold closesBefore; lia | exact Hu].
Qed.

Lemma sortByClose_sorted (l : list Trade) :
  StronglySorted closesBefore (sortByClose l).
Proof.
  induction l as [|t r IH]; simpl; [constructor|].
  now apply insertByClose_sorted.
Qed.

(** Trades closed at the same instant keep the order of the input. *)
Lemma insertByClose_stable (k : Z) (t : Trade) (l : list Trade) :
  filter (fun u => (closeTime u =? k)%Z) (insertByClose t l)
  = filter (fun u => (closeTime u =? k)%Z) (t :: l).
Proof.
  induction l as [|u r IH]; [reflexivity|].
  cbn [insertByClose].
  destruct (closeTime t <=? closeTime u)%Z eqn:E; [reflexivity|].
  apply Z.leb_gt in E. cbn [filter] in *. rewrite IH.
  destruct (closeTime t =? k)%Z eqn:Et; [|reflexivity].
  apply Z.eqb_eq in Et.
  assert (Eu : (closeTime u =? k)%Z = false) by (apply Z.eqb_neq; lia).
  now rewrite Eu.
Qed.

Lemma sortByClose_stable (k : Z) (l : list Trade) :
  filter (fun u => (closeTime u =? k)%Z) (sortByClose l)
  = filter (fun u => (closeTime u =? k)%Z) l.
Proof.
  induction l as [|t r IH]; [reflexivity|].
  cbn [sortByClose]. rewrite insertByClose_stable. cbn [filter].
  now rewrite IH.
Qed.

(** ** Metrics aggregator: maximum drawdown *)

Lemma drawdownStep_at (p m c : Q) (t : Trade) :
  drawdownStep (mkDD (Fin p) (Fin m) (Fin c)) t =
    let c' := c + Spec.pnlQ t in
    let p' := if Qltb p c' then c' else p in
    let d := p' - c' in
    mkDD (Fin p') (Fin (if Qltb m d then d else m)) (Fin c').
Proof.
  unfold drawdownStep. cbn [dd_peak dd_maxDrawdown dd_cumulative].
  rewrite pnlOrZero_fin. cbn [add]. rewrite gtb_fin. cbn zeta.
  destruct (Qltb p (c + Spec.pnlQ t));
    unfold sub; cbn [neg add]; rewrite gtb_fin; unfold Qminus;
    match goal with |- context [Qltb ?a ?b] => destruct (Qltb a b) end;
    reflexivity.
Qed.

Lemma drawdownStep_inv (s : Drawdown) (t : Trade) :
  drawdownInv s -> drawdownInv (drawdownStep s t).
Proof.
  intros (p & m & c & -> & Hm & Hp & Hc).
  rewrite drawdownStep_at. cbn zeta.
  set (c' := c + Spec.pnlQ t).
  destruct (Qltb p c') eqn:E1.
  - apply Qltb_lt in E1.
    destruct (Qltb m (c' - c')) eqn:E2;
      [apply Qltb_lt in E2|]; do 3 eexists; (split; [reflexivity|]); lra.
  - apply Qltb_ge in E1.
    destruct (Qltb m (p - c')) eqn:E2;
      [apply Qltb_lt in E2|]; do 3 eexists; (split; [reflexivity|]); lra.
Qed.

Lemma drawdown_fold_inv (l : list Trade) (s : Drawdown) :
  drawdownInv s -> drawdownInv (fold_left drawdownStep l s).
Proof.
  revert s. induction l as [|t l IH]; intros s Hs; simpl.
  - exact Hs.
  - apply IH, drawdownStep_inv, Hs.
Qed.

Lemma drawdownStart_inv : drawdownInv drawdownStart.
Proof.
  exists 0, 0, 0. repeat split; try reflexivity; lra.
Qed.

Lemma calculateMaxDrawdown_nonneg (closed : list Trade) :
  exists d : Q, calculateMaxDrawdown closed = Fin d /\ 0 <= d.
Proof.
  destruct closed as [|t l].
  - exists 0. split; [reflexivity | lra].
  - unfold calculateMaxDrawdown.
    destruct (drawdown_fold_inv (sortByClose (t :: l)) _ drawdownStart_inv)
      as (p & m & c & E & Hm & _).
    exists m. rewrite E. split; [reflexivity | exact Hm].
Qed.

Lemma drawdownStep_flat (s : Drawdown) (t : Trade) :
  0 <= Spec.pnlQ t -> drawdownFlat s -> drawdownFlat (drawdownStep s t).
Proof.
  intros Ht (p & m & c & -> & Hm & Hc).
  rewrite drawdownStep_at. cbn zeta.
  set (c' := c + Spec.pnlQ t).
  destruct (Qltb p c') eqn:E1.
  - apply Qltb_lt in E1.
    destruct (Qltb m (c' - c')) eqn:E2;
      [apply Qltb_lt in E2|]; do 3 eexists; (split; [reflexivity|]); lra.
  - apply Qltb_ge in E1.
    destruct (Qltb m (p - c')) eqn:E2;
      [apply Qltb_lt in E2|]; do 3 eexists; (split; [reflexivity|]);
      subst c'; lra.
Qed.

Lemma drawdown_fold_flat (l : list Trade) (s : Drawdown) :
  Forall (fun t => 0 <= Spec.pnlQ t) l ->
  drawdownFlat s -> drawdownFlat (fold_left drawdownStep l s).
Proof.
  intros Hl. revert s. induction Hl as [|t l Ht _ IH]; intros s Hs; simpl.
  - exact Hs.
  - apply IH, drawdownStep_flat; assumption.
Qed.

Lemma nondecreasing_from (x : Q) (l : list Q) :
  0 <= x -> Spec.nondecreasing (x :: l) = true -> Forall (fun p => 0 <= p) (x :: l).
Proof.
  revert x. induction l as [|y l IH]; intros x Hx H.
  - constructor; [exact Hx | constructor].
  - simpl in H. apply andb_true_iff in H as [Hxy H].
    apply Qle_bool_iff in Hxy.
    constructor; [exact Hx|]. apply IH; [lra | exact H].
Qed.

Lemma calculateMaxDrawdown_flat (closed : list Trade) :
  Forall (fun p => 0 <= p) (Spec.pnlByCloseTime closed) ->
  exists d : Q, calculateMaxDrawdown closed = Fin d /\ d == 0.
Proof.
  intros H. destruct closed as [|t l].
  - exists 0. split; reflexivity.
  - unfold calculateMaxDrawdown.
    assert (Hs : drawdownFlat drawdownStart)
      by (exists 0, 0, 0; repeat split; reflexivity).
    unfold Spec.pnlByCloseTime in H. rewrite Forall_map in H.
    destruct (drawdown_fold_flat _ _ H Hs) as (p & m & c & E & Hm & _).
    exists m. rewrite E. split; [reflexivity | exact Hm].
Qed.

(** A recorded drawdown never shrinks, and a losing trade records one. *)
Lemma drawdownStep_mono (s : Drawdown) (t : Trade) :
  drawdownInv s -> recordedDrawdown s <= recordedDrawdown (drawdownStep s t).
Proof.
  intros (p & m & c & -> & Hm & Hp & Hc).
  rewrite drawdownStep_at. cbv zeta. unfold recordedDrawdown.
  cbn [dd_maxDrawdown].
  match goal with |- context [Qltb m ?d] => destruct (Qltb m d) eqn:E end.
  - apply Qltb_lt in E. lra.
  - lra.
Qed.

Lemma drawdownStep_loss (s : Drawdown) (t : Trade) :
  drawdownInv s -> Spec.pnlQ t < 0 -> 0 < recordedDrawdown (drawdownStep s t).
Proof.
  intros (p & m & c & -> & Hm & Hp & Hc) Ht.
  rewrite drawdownStep_at. cbv zeta. unfold recordedDrawdown.
  cbn [dd_maxDrawdown].
  destruct (Qltb p (c + Spec.pnlQ t)) eqn:E1;
    [apply Qltb_lt in E1; lra|].
  destruct (Qltb m (p - (c + Spec.pnlQ t))) eqn:E2.
  - lra.
  - apply Qltb_ge in E2. lra.
Qed.

Lemma drawdown_fold_mono (l : list Trade) (s : Drawdown) :
  drawdownInv s ->
  recordedDrawdown s <= recordedDrawdown (fold_left drawdownStep l s).
Proof.
  revert s. induction l as [|t l IH]; intros s Hs; simpl.
  - lra.
  - eapply Qle_trans; [apply drawdownStep_mono, Hs|].
    apply IH, drawdownStep_inv, Hs.
Qed.

Lemma drawdown_fold_loss (l : list Trade) (s : Drawdown) :
  drawdownInv s -> Exists (fun t => Spec.pnlQ t < 0) l ->
  0 < recordedDrawdown (fold_left drawdownStep l s).
Proof.
  intros Hs Hl. revert s Hs.
  induction Hl as [t l Ht | t l _ IH]; intros s Hs; simpl.
  - eapply Qlt_le_trans; [apply drawdownStep_loss; eassumption|].
    apply drawdown_fold_mono, drawdownStep_inv, Hs.
  - apply IH, drawdownStep_inv, Hs.
Qed.

Lemma insertByClose_In (x t : Trade) (l : list Trade) :
  In x (insertByClose t l) <-> x = t \/ In x l.
Proof.
  induction l as [|u r IH]; simpl.
  - intuition.
  - destruct (closeTime t <=? closeTime u)%Z; simpl; [|rewrite IH];
      intuition.
Qed.

Lemma sortByClose_In (x : Trade) (l : list Trade) :
  In x (sortByClose l) <-> In x l.
Proof.
  induction l as [|t r IH]; simpl; [reflexivity|].
  rewrite insertByClose_In, IH. intuition.
Qed.

(** The maximum drawdown is [0] exactly when no trade lost. *)
Lemma calculateMaxDrawdown_zero_iff (closed : list Trade) :
  exists d : Q,
    calculateMaxDrawdown closed = Fin d /\
    (d == 0 <-> Forall (fun t => 0 <= Spec.pnlQ t) closed).
Proof.
  destruct (calculateMaxDrawdown_nonneg closed) as (d & Hd & Hd0).
  exists d. split; [exact Hd|]. split.
  - intros Ez. apply Forall_forall. intros t Ht.
    apply Qnot_lt_le. intros Hneg.
    assert (Hex : Exists (fun t => Spec.pnlQ t < 0) (sortByClose closed))
      by (apply Exists_exists; exists t; split;
          [now apply sortByClose_In | exact Hneg]).
    pose proof (drawdown_fold_loss _ _ drawdownStart_inv Hex) as Hpos.
    destruct closed as [|u l]; [contradiction|].
    unfold calculateMaxDrawdown in Hd. unfold recordedDrawdown in Hpos.
    cbv zeta in Hd. rewrite Hd in Hpos. lra.
  - intros Hall.
    assert (Hs : Forall (fun p => 0 <= p) (Spec.pnlByCloseTime closed)).
    { unfold Spec.pnlByCloseTime. rewrite Forall_map.
      apply Forall_forall. intros t Ht.
      apply (proj1 (sortByClose_In t closed)) in Ht.
      rewrite Forall_forall in Hall. now apply Hall. }
    destruct (calculateMaxDrawdown_flat closed Hs) as (d' & Hd' & Ez).
    rewrite Hd in Hd'. now injection Hd' as ->.
Qed.

(** ** Metrics aggregator: output rounding *)

Lemma round2_fin (x : Q) :
  round2 (Fin x) = Fin (inject_Z (Qfloor (x * 100 + (1 # 2))) / 100).
Proof. reflexivity. Qed.

Lemma Qfloor_nonneg (y : Q) : 0 <= y -> (0 <= Qfloor y)%Z.
Proof.
  intros H. change 0%Z with (Qfloor 0). now apply Qfloor_resp_le.
Qed.

Lemma round2_nonneg (x : Q) :
  0 <= x ->
  exists r : Q, round2 (Fin x) = Fin r /\ 0 <= r /\ (x == 0 -> r == 0).
Proof.
  intros H. eexists. split; [apply round2_fin|]. split.
  - assert (Hz : (0 <= Qfloor (x * 100 + (1 # 2)))%Z)
      by (apply Qfloor_nonneg; lra).
    assert (Hq : 0 <= inject_Z (Qfloor (x * 100 + (1 # 2))))
      by (rewrite <- (Zle_Qle 0); exact Hz).
    unfold Qdiv. change (/ 100) with (1 # 100). lra.
  - intros E. rewrite E. reflexivity.
Qed.

(** C3, as the code has it.  The maximum drawdown [calculateMetrics] computes
    is never negative, before and after the output rounding; and it is [0]
    whenever the P&L values form a non-decreasing sequence in close-time
    order whose earliest value is not negative. *)
Theorem maxDrawdown_nonneg_and_flat (trades : list Trade) :
  let closed := closedWithPnl trades in
  exists d r : Q,
    Internal.maxDrawdown closed = Fin d /\
    maxDrawdown (calculateMetrics trades) = Fin r /\
    0 <= d /\ 0 <= r /\
    (Spec.nondecreasing (Spec.pnlByCloseTime closed) = true ->
     0 <= hd 0 (Spec.pnlByCloseTime closed) ->
     d == 0 /\ r == 0).
Proof.
  intros closed.
  destruct (calculateMaxDrawdown_nonneg closed) as (d & Hd & Hd0).
  destruct (round2_nonneg d Hd0) as (r & Hr & Hr0 & Hrz).
  assert (Hflat : Spec.nondecreasing (Spec.pnlByCloseTime closed) = true ->
                  0 <= hd 0 (Spec.pnlByCloseTime closed) -> d == 0).
  { intros Hmono Hhd.
    assert (Hall : Forall (fun p => 0 <= p) (Spec.pnlByCloseTime closed)).
    { destruct (Spec.pnlByCloseTime closed) as [|x l]; [constructor|].
      now apply nondecreasing_from. }
    destruct (calculateMaxDrawdown_flat closed Hall) as (d' & Hd' & Ez).
    unfold Internal.maxDrawdown in *. rewrite Hd in Hd'.
    injection Hd' as ->. exact Ez. }
  destruct closed as [|t l] eqn:E.
  - exists 0, 0. unfold calculateMetrics. fold closed. rewrite E.
    repeat split; try reflexivity; lra.
  - exists d, r. unfold Internal.maxDrawdown.
    rewrite calculateMetrics_nonempty by (fold closed; rewrite E; discriminate).
    cbn [maxDrawdown]. fold closed. rewrite E.
    unfold Internal.maxDrawdown. rewrite Hd.
    repeat split; auto.
Qed.

(** C3, counterexample.  A loss of 5, then gains of 1 and 2: the P&L
    values [-5, 1, 2] are non-decreasing in close-time order (and so are
    their running totals [-5, -4, -2]), yet the first total is under the
    initial peak [0] and the maximum drawdown is [5]. *)
Lemma maxDrawdown_nondecreasing_counterexample :
  let trades := [dayTrade 0 (-5); dayTrade 1 1; dayTrade 2 2] in
  let closed := closedWithPnl trades in
  Spec.pnlByCloseTime closed = [-5; 1; 2] /\
  Spec.nondecreasing (Spec.pnlByCloseTime closed) = true /\
  Spec.nondecreasing (Spec.runningTotals 0 (Spec.pnlByCloseTime closed)) = true /\
  maxDrawdown (calculateMetrics trades) =~= Fin 5 /\
  eqb (maxDrawdown (calculateMetrics trades)) zero = false.
Proof.
  cbv zeta. repeat split; vm_compute; reflexivity.
Qed.

Lemma of_nat_pos (n : nat) : (0 < n)%nat -> 0 < inject_Z (Z.of_nat n).
Proof.
  intros H. rewrite <- (Zlt_Qlt 0). lia.
Qed.

Lemma Qdiv_nonneg (a b : Q) : 0 <= a -> 0 < b -> 0 <= a / b.
Proof.
  intros Ha Hb. apply Qle_shift_div_l; [exact Hb | lra].
Qed.

Lemma finiteNonneg_zero : Spec.finiteNonneg zero.
Proof. exists 0. split; [reflexivity | lra]. Qed.

Lemma div_of_nat_nonneg (x : Q) (n : nat) :
  0 <= x -> (0 < n)%nat -> Spec.finiteNonneg (Fin x / of_nat n)%num.
Proof.
  intros Hx Hn. apply of_nat_pos in Hn. unfold of_nat.
  rewrite div_fin by lra. eexists. split; [reflexivity|].
  now apply Qdiv_nonneg.
Qed.

(** The win rate is a percentage. *)
Lemma winRate_bounds (closed : list Trade) :
  exists w : Q, Internal.winRate closed = Fin w /\ 0 <= w <= 100.
Proof.
  unfold Internal.winRate.
  destruct (0 <? length closed)%nat eqn:E;
    [|exists 0; split; [reflexivity | lra]].
  apply Nat.ltb_lt in E.
  set (nw := length (Internal.winningTrades closed)).
  assert (Hle : (nw <= length closed)%nat) by apply filter_length_le.
  assert (Hn : 0 < inject_Z (Z.of_nat (length closed))) by now apply of_nat_pos.
  assert (Hw : 0 <= inject_Z (Z.of_nat nw)) by (rewrite <- (Zle_Qle 0); lia).
  assert (Hwn : inject_Z (Z.of_nat nw) <= inject_Z (Z.of_nat (length closed)))
    by (rewrite <- Zle_Qle; lia).
  unfold of_nat. rewrite div_fin by lra. cbn [mul hundred].
  eexists. split; [reflexivity|].
  assert (H0 : 0 <= inject_Z (Z.of_nat nw) / inject_Z (Z.of_nat (length closed)))
    by now apply Qdiv_nonneg.
  assert (H1 : inject_Z (Z.of_nat nw) / inject_Z (Z.of_nat (length closed)) <= 1)
    by (apply Qle_shift_div_r; [exact Hn | lra]).
  lra.
Qed.

Lemma winRate_nonneg (closed : list Trade) :
  Spec.finiteNonneg (Internal.winRate closed).
Proof.
  destruct (winRate_bounds closed) as (w & E & H0 & _). now exists w.
Qed.

Lemma avgWin_nonneg (closed : list Trade) :
  Spec.finiteNonneg (Internal.avgWin closed).
Proof.
  unfold Internal.avgWin.
  destruct (0 <? length (Internal.winningTrades closed))%nat eqn:E;
    [|apply finiteNonneg_zero].
  apply Nat.ltb_lt in E.
  destruct (grossProfit_fin closed) as (g & -> & Eg).
  apply div_of_nat_nonneg; [|exact E].
  rewrite Eg. apply grossProfit_nonneg.
Qed.

Lemma avgLoss_nonneg (closed : list Trade) :
  Spec.finiteNonneg (Internal.avgLoss closed).
Proof.
  unfold Internal.avgLoss.
  destruct (0 <? length (Internal.losingTrades closed))%nat eqn:E;
    [|apply finiteNonneg_zero].
  apply Nat.ltb_lt in E.
  destruct (grossLoss_fin closed) as (l & -> & El).
  apply div_of_nat_nonneg; [|exact E].
  rewrite El. apply grossLoss_nonneg.
Qed.

(** The profit factor is a finite ratio that is not negative, or
    [+infinity]. *)
Lemma profitFactor_nonneg (closed : list Trade) :
  Spec.finiteNonneg (Internal.profitFactor closed) \/
  Internal.profitFactor closed = PosInf.
Proof.
  unfold Internal.profitFactor.
  destruct (grossProfit_fin closed) as (g & -> & Eg).
  destruct (grossLoss_fin closed) as (l & -> & El).
  unfold zero. rewrite !gtb_fin.
  destruct (Qltb 0 l) eqn:E1.
  - left. apply Qltb_lt in E1. rewrite div_fin by lra.
    eexists. split; [reflexivity|].
    apply Qdiv_nonneg; [|exact E1]. rewrite Eg. apply grossProfit_nonneg.
  - destruct (Qltb 0 g); [now right | left; apply finiteNonneg_zero].
Qed.

Lemma maxDrawdown_nonneg (closed : list Trade) :
  Spec.finiteNonneg (Internal.maxDrawdown closed).
Proof. apply calculateMaxDrawdown_nonneg. Qed.

Lemma expectancy_finite (closed : list Trade) :
  finite (Internal.expectancy closed).
Proof.
  unfold Internal.expectancy, Internal.lossRate.
  destruct (winRate_nonneg closed) as (w & -> & _).
  destruct (avgWin_nonneg closed) as (a & -> & _).
  destruct (avgLoss_nonneg closed) as (l & -> & _).
  exact I.
Qed.

(** ** Output rounding on doubles *)

Lemma two_power_pos (k : Z) : (0 <= k -> 0 < 2 ^ k)%Z.
Proof. intros H. apply Z.pow_pos_nonneg; lia. Qed.

Lemma Qpower_two (e : Z) :
  (0 <= e)%Z -> (2 ^ e)%Q == inject_Z (2 ^ e).
Proof.
  intros H. rewrite (Zpower_Qpower 2 e H). reflexivity.
Qed.

Lemma Qpower_two_neg (e : Z) :
  (e < 0)%Z -> (2 ^ e)%Q == / inject_Z (2 ^ (- e)).
Proof.
  intros H. replace e with (- - e)%Z at 1 by lia.
  rewrite Qpower_opp, Qpower_two by lia. reflexivity.
Qed.

Lemma inject_Z_two_power_pos (k : Z) : (0 <= k)%Z -> 0 < inject_Z (2 ^ k).
Proof.
  intros H. change 0 with (inject_Z 0). rewrite <- Zlt_Qlt.
  now apply two_power_pos.
Qed.

(** A quotient by a power of two is an integer exactly when the power
    divides. *)
Lemma dyadic_integral (v k : Z) :
  (0 < k)%Z ->
  let q := inject_Z v * / inject_Z (2 ^ k) in
  Qeq_bool q (inject_Z (Qfloor q)) = (v mod 2 ^ k =? 0)%Z.
Proof.
  intros Hk q. pose proof (two_power_pos k ltac:(lia)) as Hp.
  pose proof (inject_Z_two_power_pos k ltac:(lia)) as HpQ.
  assert (Hf : Qfloor q = (v / 2 ^ k)%Z) by (subst q; now rewrite Zdiv_Qdiv).
  apply eq_true_iff_eq. rewrite Qeq_bool_iff, Z.eqb_eq, Hf. split.
  - intros H.
    assert (E : inject_Z v == inject_Z (v / 2 ^ k * 2 ^ k)).
    { rewrite inject_Z_mult, <- H. subst q. field.
      intros E0. rewrite E0 in HpQ. discriminate. }
    apply (proj1 (inject_Z_injective _ _)) in E.
    pose proof (Z.div_mod v (2 ^ k) ltac:(lia)) as Hdm.
    revert E Hdm. generalize (v / 2 ^ k)%Z (v mod 2 ^ k)%Z (2 ^ k)%Z.
    intros a b c E Hdm. lia.
  - intros H. subst q.
    rewrite (Z.div_mod v (2 ^ k)) at 1 by lia. rewrite H, Z.add_0_r.
    rewrite inject_Z_mult. field.
    intros E0. rewrite E0 in HpQ. discriminate.
Qed.

Lemma half_floor (v k : Z) :
  (0 < k)%Z ->
  Qfloor (inject_Z v * / inject_Z (2 ^ k) + (1 # 2))
  = ((v + 2 ^ (k - 1)) / 2 ^ k)%Z.
Proof.
  intros Hk. rewrite Zdiv_Qdiv. apply Qfloor_comp.
  pose proof (inject_Z_two_power_pos k ltac:(lia)) as HpQ.
  pose proof (inject_Z_two_power_pos (k - 1) ltac:(lia)) as HpQ'.
  assert (E : inject_Z (2 ^ k) == 2 * inject_Z (2 ^ (k - 1))).
  { replace k with (1 + (k - 1))%Z at 1 by lia.
    rewrite Z.pow_add_r by lia. rewrite inject_Z_mult. reflexivity. }
  rewrite inject_Z_plus. unfold Qdiv.
  setoid_replace (1 # 2) with (inject_Z (2 ^ (k - 1)) * / inject_Z (2 ^ k)).
  - ring.
  - rewrite E. field. intros E0. rewrite E0 in HpQ'. discriminate.
Qed.

Lemma signed_mantissa_negative (s : bool) (m : BinNums.positive) (d : Q) :
  0 < d -> Qltb (inject_Z (cond_Zopp s (Zpos m)) * d) 0 = s.
Proof.
  intros Hd. apply eq_true_iff_eq. rewrite Qltb_lt.
  destruct s; cbn [cond_Zopp Z.opp].
  - split; [reflexivity|]. intros _.
    assert (H : inject_Z (Z.neg m) < 0) by reflexivity.
    revert H. generalize (inject_Z (Z.neg m)). intros a H.
    assert (H0 : a * d < 0 * d) by (apply Qmult_lt_compat_r; assumption).
    lra.
  - split; [|discriminate]. intros H. exfalso.
    assert (H' : 0 < inject_Z (Z.pos m)) by reflexivity.
    revert H H'. generalize (inject_Z (Z.pos m)). intros a H H'.
    assert (0 < a * d) by (apply Qmult_lt_0_compat; assumption).
    lra.
Qed.

(** [Math.round] computed on the bits is [Math.round] as the language
    defines it on the value: the nearest integer, a tie going up. *)
Lemma round_mathRound (y : float) :
  Binary64.round y = Binary64.Spec.mathRound y.
Proof.
  unfold Binary64.round, Binary64.Spec.mathRound, Binary64.exact.
  destruct (Prim2SF y) as [s0| s0 | |s m e]; try reflexivity.
  set (v := cond_Zopp s (Z.pos m)). set (q := inject_Z v * 2 ^ e).
  destruct (0 <=? e)%Z eqn:He.
  - apply Z.leb_le in He.
    assert (E : q == inject_Z (v * 2 ^ e))
      by (subst q; rewrite inject_Z_mult, Qpower_two by exact He; reflexivity).
    assert (H : Qeq_bool q (inject_Z (Qfloor q)) = true).
    { apply Qeq_bool_iff. rewrite (Qfloor_comp _ _ E), Qfloor_Z. exact E. }
    now rewrite H.
  - apply Z.leb_gt in He. cbv zeta.
    assert (E : q == inject_Z v * / inject_Z (2 ^ (- e)))
      by (subst q; now rewrite Qpower_two_neg).
    assert (H1 : Qeq_bool q (inject_Z (Qfloor q)) = (v mod 2 ^ (- e) =? 0)%Z).
    { rewrite <- (dyadic_integral v (- e)) by lia. cbv zeta.
      apply eq_true_iff_eq. rewrite !Qeq_bool_iff.
      rewrite (Qfloor_comp _ _ E), E. reflexivity. }
    assert (H2 : Qltb q 0 = s).
    { subst q v. apply signed_mantissa_negative. apply Qpower_0_lt.
      reflexivity. }
    assert (H3 : Qfloor (q + (1 # 2)) = ((v + 2 ^ (- e - 1)) / 2 ^ (- e))%Z).
    { rewrite <- (half_floor v (- e)) by lia. apply Qfloor_comp.
      now rewrite E. }
    now rewrite H1, H2, H3.
Qed.

Lemma round2_roundTiesUp2 (x : float) :
  Binary64.round2 x = Binary64.Spec.roundTiesUp2 x.
Proof.
  unfold Binary64.round2, Binary64.Spec.roundTiesUp2.
  now rewrite round_mathRound.
Qed.

(** C5, as the code has it.  Every percentage and currency field of the
    result is [Math.round(v * 100) / 100] of the full-precision value [v],
    computed on doubles at the output only: the product [v * 100] is a
    double, [Math.round] takes the integer nearest to that double, a tie
    going toward [+infinity], and the quotient by [100] is a double. *)
Theorem metrics_rounded_at_output (trades : list Binary64.Trade.t) :
  let closed := Binary64.closedWithPnl trades in
  let m := Binary64.calculateMetrics trades in
  Binary64.winRate m
  = Binary64.Spec.roundTiesUp2 (Binary64.Internal.winRate closed) /\
  Binary64.avgWin m
  = Binary64.Spec.roundTiesUp2 (Binary64.Internal.avgWin closed) /\
  Binary64.avgLoss m
  = Binary64.Spec.roundTiesUp2 (Binary64.Internal.avgLoss closed) /\
  Binary64.profitFactor m
  = Binary64.Spec.roundTiesUp2 (Binary64.Internal.profitFactor closed) /\
  Binary64.maxDrawdown m
  = Binary64.Spec.roundTiesUp2 (Binary64.Internal.maxDrawdown closed) /\
  Binary64.expectancy m
  = Binary64.Spec.roundTiesUp2 (Binary64.Internal.expectancy closed).
Proof.
  intros closed m. subst m. unfold Binary64.calculateMetrics. cbv zeta.
  fold closed. rewrite <- !round2_roundTiesUp2.
  destruct closed as [|t l].
  - cbn [length Nat.eqb]. repeat split; vm_compute; reflexivity.
  - cbn [length Nat.eqb]. repeat split; reflexivity.
Qed.

(** C5, counterexample.  One closed trade that lost an eighth: the
    expectancy is [-0.125], a tie between [-0.13] and [-0.12];
    round-half-away-from-zero gives [-0.13], the result holds [-0.12]. *)
Lemma expectancy_rounding_counterexample :
  let trades := [Binary64.closedTrade 1000 (-0.125)] in
  let closed := Binary64.closedWithPnl trades in
  Binary64.Internal.expectancy closed = (-0.125)%float /\
  Binary64.Spec.roundHalfAway2 (Binary64.Internal.expectancy closed)
  = (-0.13)%float /\
  Binary64.expectancy (Binary64.calculateMetrics trades) = (-0.12)%float /\
  (Binary64.expectancy (Binary64.calculateMetrics trades)
   =? Binary64.Spec.roundHalfAway2 (Binary64.Internal.expectancy closed))%float
  = false.
Proof. cbv zeta. repeat split; vm_compute; reflexivity. Qed.

(** The field is not always the decimal rounding of the value either.  One
    closed trade that won the double [1.115], which lies below 1.115: the
    multiple of [1/100] nearest to it is [1.11], but [1.115 * 100] is the
    double [111.5] and the result holds [1.12]. *)
Example avgWin_rounding_example :
  let trades := [Binary64.closedTrade 1000 1.115] in
  let closed := Binary64.closedWithPnl trades in
  Binary64.Internal.avgWin closed = 1.115%float /\
  option_map (fun q => Qltb q (1115 # 1000)) (Binary64.exact 1.115)
  = Some true /\
  Binary64.Spec.roundHalfAway2 (Binary64.Internal.avgWin closed)
  = 1.11%float /\
  (1.115 * 100 = 111.5)%float /\
  Binary64.avgWin (Binary64.calculateMetrics trades) = 1.12%float.
Proof. cbv zeta. repeat split; vm_compute; reflexivity. Qed.

(** One win and seven losses whose expectancy is [-3.375] on the reals: the
    doubles give [-3.3750000000000004], and the result holds [-3.38]. *)
Example expectancy_example :
  let loss := Binary64.closedTrade 1000 (-1) in
  let trades :=
    [Binary64.closedTrade 1000 2; Binary64.closedTrade 1000 (-23);
     loss; loss; loss; loss; loss; loss] in
  Binary64.Internal.expectancy (Binary64.closedWithPnl trades)
  = (-3.3750000000000004)%float /\
  Binary64.expectancy (Binary64.calculateMetrics trades) = (-3.38)%float.
Proof. cbv zeta. repeat split; vm_compute; reflexivity. Qed.

(** ** Behaviour analyser: the parts of the result *)

Section Warnings.

Variable clock : Clock.
Variable trades : list Trade.
Variable accountBalance : number.

Lemma revengeScan_cons (prev curr : Trade) (rest : list Trade) :
  revengeScan (prev :: curr :: rest) =
    if revengePair prev curr then [revengeWarning curr]
    else revengeScan (curr :: rest).
Proof. reflexivity. Qed.

Lemma revengeScan_shape (l : list Trade) :
  revengeScan l = [] \/
  exists curr, In curr l /\ revengeScan l = [revengeWarning curr].
Proof.
  induction l as [|prev rest IH]; [now left|].
  destruct rest as [|curr rest']; [now left|].
  rewrite revengeScan_cons. destruct (revengePair prev curr).
  - right. exists curr. split; [right; left; reflexivity | reflexivity].
  - destruct IH as [IH | (c & Hc & IH)]; [now left|].
    right. exists c. split; [now right | exact IH].
Qed.

Lemma riskWarning_shape (t : Trade) :
  Forall (fun w => type w = HIGH_RISK /\ (severity w = MEDIUM \/ severity w = HIGH))
    (riskWarning accountBalance t).
Proof.
  unfold riskWarning.
  destruct (riskPercentOf accountBalance t >? Fin 2)%num; [|constructor].
  constructor; [|constructor]. cbn [type severity]. split; [reflexivity|].
  destruct (riskPercentOf accountBalance t >? Fin 5)%num; auto.
Qed.

Lemma risk_shape (l : list Trade) :
  Forall (fun w => type w = HIGH_RISK /\ (severity w = MEDIUM \/ severity w = HIGH))
    (flat_map (riskWarning accountBalance) l).
Proof.
  induction l as [|t l IH]; simpl; [constructor|].
  apply Forall_app. split; [apply riskWarning_shape | exact IH].
Qed.

Lemma warningsOf_app (ty : WarningType) (a b : list BehaviorWarning) :
  warningsOf ty (a ++ b) = warningsOf ty a ++ warningsOf ty b.
Proof. apply filter_app. Qed.

Lemma warningsOf_other (ty ty' : WarningType) (l : list BehaviorWarning) :
  ty <> ty' -> Forall (fun w => type w = ty') l -> warningsOf ty l = [].
Proof.
  intros Hne H. induction H as [|w l Hw _ IH]; [reflexivity|].
  unfold warningsOf in *. cbn [filter]. unfold hasType at 1. rewrite Hw.
  destruct ty, ty'; try contradiction; exact IH.
Qed.

Lemma warningsOf_same (ty : WarningType) (l : list BehaviorWarning) :
  Forall (fun w => type w = ty) l -> warningsOf ty l = l.
Proof.
  intros H. induction H as [|w l Hw _ IH]; [reflexivity|].
  unfold warningsOf in *. cbn [filter]. unfold hasType at 1. rewrite Hw.
  destruct ty; now rewrite IH.
Qed.

Lemma revengeScan_type (l : list Trade) :
  Forall (fun w => type w = REVENGE_TRADING) (revengeScan l).
Proof.
  destruct (revengeScan_shape l) as [-> | (c & _ & ->)]; repeat constructor.
Qed.

Lemma risk_type (l : list Trade) :
  Forall (fun w => type w = HIGH_RISK) (flat_map (riskWarning accountBalance) l).
Proof.
  eapply Forall_impl; [|apply risk_shape]. now intros w [H _].
Qed.

(** The result, one rule after the other. *)
Lemma detectBehaviorWarnings_parts :
  exists overtrading streak : list BehaviorWarning,
    detectBehaviorWarnings clock trades accountBalance =
      overtrading ++ revengeScan (closedWithDate trades)
      ++ flat_map (riskWarning accountBalance) (todayTradesOf clock trades)
      ++ streak /\
    (overtrading = [] \/
     exists sev, (sev = MEDIUM \/ sev = HIGH) /\
       overtrading =
         [mkWarning OVERTRADING
            (MsgOvertrading (length (todayTradesOf clock trades))) sev
            (todayOf clock)]) /\
    streak =
      (let n := countConsecutiveLosses (closedWithDate trades) in
       if (3 <=? n)%nat then
         [mkWarning CONSECUTIVE_LOSS (MsgConsecutive n)
            (if (5 <=? n)%nat then HIGH else MEDIUM) (todayOf clock)]
       else []).
Proof.
  unfold detectBehaviorWarnings. cbv zeta.
  do 2 eexists. split; [reflexivity|]. split; [|reflexivity].
  destruct (10 <? length (todayTradesOf clock trades))%nat; [right | now left].
  destruct (15 <? length (todayTradesOf clock trades))%nat;
    [exists HIGH | exists MEDIUM]; (split; [auto | reflexivity]).
Qed.

End Warnings.

(** C9. Every warning [detectBehaviorWarnings] returns has severity [MEDIUM]
    or [HIGH]; [LOW], which the [BehaviorWarning] type admits, is never
    emitted. *)
Theorem severity_never_low (clock : Clock) (trades : list Trade)
    (accountBalance : number) :
  Forall (fun w => (severity w = MEDIUM \/ severity w = HIGH) /\ severity w <> LOW)
    (detectBehaviorWarnings clock trades accountBalance).
Proof.
  assert (Hno : forall w, severity w = MEDIUM \/ severity w = HIGH ->
                  (severity w = MEDIUM \/ severity w = HIGH) /\ severity w <> LOW)
    by (intros w H; split; [exact H | destruct H as [-> | ->]; discriminate]).
  destruct (detectBehaviorWarnings_parts clock trades accountBalance)
    as (overtrading & streak & -> & Hover & Hstreak).
  cbv zeta in *. repeat rewrite Forall_app. repeat split.
  - destruct Hover as [-> | (sev & Hsev & ->)]; [constructor|].
    constructor; [apply Hno; exact Hsev | constructor].
  - destruct (revengeScan_shape (closedWithDate trades)) as [-> | (c & _ & ->)];
      [constructor|].
    constructor; [apply Hno; right; reflexivity | constructor].
  - eapply Forall_impl; [|apply risk_shape].
    intros w [_ H]. now apply Hno.
  - subst streak.
    destruct (3 <=? _)%nat; [|constructor].
    constructor; [|constructor]. apply Hno. cbn [severity].
    destruct (5 <=? _)%nat; auto.
Qed.

(** ** Behaviour analyser: consecutive losses *)

Lemma sliceLast_lastEntries {A : Type} (n : nat) (l : list A) :
  sliceLast n l = Spec.lastEntries n l.
Proof.
  unfold sliceLast, Spec.lastEntries. now rewrite firstn_rev, rev_involutive.
Qed.

Lemma firstn_snoc {A : Type} (l : list A) (i : nat) (x : A) :
  nth_error l i = Some x -> firstn (S i) l = firstn i l ++ [x].
Proof.
  revert i. induction l as [|a l IH]; intros [|i] H; simpl in *;
    try discriminate.
  - now injection H as ->.
  - f_equal. now apply IH.
Qed.

Lemma lossFlag (t : Trade) : (pnlOrZero t <? zero)%num = Qltb (Spec.pnlQ t) 0.
Proof. now rewrite pnlOrZero_fin. Qed.

(** The countdown loop counts the losses at the end of the part of the list
    it has still to visit. *)
Lemma lossLoop_streak (l : list Trade) (k acc : nat) :
  (k <= length l)%nat ->
  lossLoop l k acc = (acc + Spec.trailingLossStreak (firstn k l))%nat.
Proof.
  unfold Spec.trailingLossStreak.
  revert acc. induction k as [|i IH]; intros acc Hk.
  - simpl. lia.
  - destruct (nth_error l i) as [t|] eqn:E.
    + cbn [lossLoop]. rewrite E, (firstn_snoc _ _ _ E), rev_unit.
      cbn [Spec.leadingLosses]. rewrite lossFlag.
      destruct (Qltb (Spec.pnlQ t) 0).
      * rewrite IH by lia. lia.
      * lia.
    + apply nth_error_None in E. lia.
Qed.

Lemma countConsecutiveLosses_streak (closed : list Trade) :
  countConsecutiveLosses closed
  = Spec.trailingLossStreak (Spec.lastEntries 5 closed).
Proof.
  unfold countConsecutiveLosses. cbv zeta.
  rewrite lossLoop_streak by lia.
  now rewrite firstn_all, sliceLast_lastEntries.
Qed.

Lemma leadingLosses_le (l : list Trade) :
  (Spec.leadingLosses l <= length l)%nat.
Proof.
  induction l as [|t l IH]; simpl; [lia|].
  destruct (Qltb (Spec.pnlQ t) 0); lia.
Qed.

Lemma listLossStreak_le (trades : list Trade) :
  (Spec.listLossStreak trades <= 5)%nat.
Proof.
  unfold Spec.listLossStreak, Spec.trailingLossStreak, Spec.lastEntries.
  rewrite rev_involutive.
  etransitivity; [apply leadingLosses_le|]. apply firstn_le_length.
Qed.

Lemma leadingLosses_spec (r : list Trade) :
  exists before streak : list Trade,
    rev r = before ++ streak /\
    length streak = Spec.leadingLosses r /\
    Forall (fun t => Spec.pnlQ t < 0) streak /\
    (before = [] \/
     exists before' t, before = before' ++ [t] /\ 0 <= Spec.pnlQ t).
Proof.
  induction r as [|t r IH].
  - exists [], []. repeat split; auto.
  - cbn [Spec.leadingLosses]. destruct (Qltb (Spec.pnlQ t) 0) eqn:E.
    + destruct IH as (before & streak & Hr & Hlen & Hall & Hbefore).
      exists before, (streak ++ [t]). repeat split.
      * cbn [rev]. rewrite Hr. now rewrite app_assoc.
      * rewrite length_app. simpl. lia.
      * apply Forall_app. split; [exact Hall|].
        constructor; [now apply Qltb_lt | constructor].
      * exact Hbefore.
    + exists (rev (t :: r)), []. repeat split.
      * now rewrite app_nil_r.
      * constructor.
      * right. exists (rev r), t. split; [reflexivity | now apply Qltb_ge].
Qed.

(** What a trailing streak is: the last [k] entries all lost and the entry
    before them, if there is one, did not. *)
Lemma trailingLossStreak_spec (l : list Trade) :
  exists before streak : list Trade,
    l = before ++ streak /\
    length streak = Spec.trailingLossStreak l /\
    Forall (fun t => Spec.pnlQ t < 0) streak /\
    (before = [] \/
     exists before' t, before = before' ++ [t] /\ 0 <= Spec.pnlQ t).
Proof.
  destruct (leadingLosses_spec (rev l)) as (before & streak & H & Hrest).
  rewrite rev_involutive in H. now exists before, streak.
Qed.

Lemma warningsOf_streak (clock : Clock) (trades : list Trade)
    (accountBalance : number) :
  warningsOf CONSECUTIVE_LOSS (detectBehaviorWarnings clock trades accountBalance)
  = (let n := countConsecutiveLosses (closedWithDate trades) in
     if (3 <=? n)%nat then
       [mkWarning CONSECUTIVE_LOSS (MsgConsecutive n)
          (if (5 <=? n)%nat then HIGH else MEDIUM) (todayOf clock)]
     else []).
Proof.
  destruct (detectBehaviorWarnings_parts clock trades accountBalance)
    as (overtrading & streak & -> & Hover & ->).
  cbv zeta in *. rewrite !warningsOf_app.
  rewrite (warningsOf_other CONSECUTIVE_LOSS OVERTRADING overtrading);
    [|discriminate|destruct Hover as [-> | (sev & _ & ->)]; repeat constructor].
  rewrite (warningsOf_other CONSECUTIVE_LOSS REVENGE_TRADING);
    [|discriminate|apply revengeScan_type].
  rewrite (warningsOf_other CONSECUTIVE_LOSS HIGH_RISK);
    [|discriminate|apply risk_type].
  cbn [app]. apply warningsOf_same.
  destruct (3 <=? _)%nat; repeat constructor.
Qed.

(** The consecutive-loss rule as the loop has it: over the five last closed
    trades of the supplied list, counted from the last one back to the first
    trade whose P&L is not negative.  Exactly one [CONSECUTIVE_LOSS] warning
    iff that streak is at least 3, none otherwise; [HIGH] iff the streak is
    at least 5, [MEDIUM] otherwise. *)
Lemma consecutive_loss_rule_in_list_order (clock : Clock)
    (trades : list Trade) (accountBalance : number) :
  let streak := Spec.listLossStreak trades in
  let ws := warningsOf CONSECUTIVE_LOSS
              (detectBehaviorWarnings clock trades accountBalance) in
  (length ws = 1%nat <-> (3 <= streak)%nat) /\
  (ws = [] <-> (streak < 3)%nat) /\
  (forall w, In w ws ->
     message w = MsgConsecutive streak /\
     (severity w = HIGH <-> (5 <= streak)%nat) /\
     (severity w = MEDIUM <-> (streak < 5)%nat)).
Proof.
  intros streak ws. subst ws. rewrite warningsOf_streak. cbv zeta.
  rewrite countConsecutiveLosses_streak. fold (Spec.listLossStreak trades).
  fold streak.
  destruct (3 <=? streak)%nat eqn:E3.
  - apply Nat.leb_le in E3.
    split; [split; intros; [exact E3 | reflexivity]|].
    split; [split; intros H; [discriminate | lia]|].
    intros w [<- | []]. cbn [message severity]. split; [reflexivity|].
    destruct (5 <=? streak)%nat eqn:E5;
      [apply Nat.leb_le in E5 | apply Nat.leb_gt in E5];
      split; split; intros; try reflexivity; try discriminate; lia.
  - apply Nat.leb_gt in E3.
    split; [split; intros H; [discriminate | lia]|].
    split; [split; intros; [exact E3 | reflexivity]|].
    intros w [].
Qed.

(** The loop follows the rule whenever the closed trades already reach it
    in ascending close-time order. *)
Lemma consecutive_loss_rule_when_ordered (clock : Clock)
    (trades : list Trade) (accountBalance : number) :
  sortByClose (closedWithDate trades) = closedWithDate trades ->
  let streak := Spec.recentLossStreak trades in
  let ws := warningsOf CONSECUTIVE_LOSS
              (detectBehaviorWarnings clock trades accountBalance) in
  (length ws = 1%nat <-> (3 <= streak)%nat) /\
  (forall w, In w ws ->
     (severity w = HIGH <-> (5 <= streak)%nat) /\
     (severity w = MEDIUM <-> (streak < 5)%nat)).
Proof.
  intros Hsorted streak ws.
  assert (E : streak = Spec.listLossStreak trades)
    by (unfold streak, Spec.recentLossStreak; now rewrite Hsorted).
  destruct (consecutive_loss_rule_in_list_order clock trades accountBalance)
    as (H1 & _ & H3).
  rewrite E. split; [exact H1|]. intros w Hw. now destruct (H3 w Hw).
Qed.

(** C7, at the list the [/behavior] route supplies (most recently opened
    first).  The three most recently closed trades lost and the three
    before them won: the streak over the five most recently closed trades,
    counted from the most recent, is 3, and one [MEDIUM] warning is due.
    The loop takes the five last entries of the list, which are the five
    oldest trades, starts from the oldest, a win, counts 0 and emits no
    [CONSECUTIVE_LOSS] warning. *)
Theorem consecutive_losses_read_in_list_order (clock : Clock)
    (accountBalance : number) :
  let trades := [dayTrade 5 (-10); dayTrade 4 (-10); dayTrade 3 (-10);
                 dayTrade 2 5; dayTrade 1 5; dayTrade 0 5] in
  Spec.recentLossStreak trades = 3%nat /\
  sliceLast 5 (closedWithDate trades)
    = [dayTrade 4 (-10); dayTrade 3 (-10); dayTrade 2 5; dayTrade 1 5;
       dayTrade 0 5] /\
  countConsecutiveLosses (closedWithDate trades) = 0%nat /\
  warningsOf CONSECUTIVE_LOSS
    (detectBehaviorWarnings clock trades accountBalance) = [].
Proof.
  cbv zeta. split; [reflexivity|]. split; [reflexivity|].
  split; [reflexivity|].
  rewrite warningsOf_streak. reflexivity.
Qed.

(** ** Behaviour analyser: revenge trading *)

Lemma warningsOf_revenge (clock : Clock) (trades : list Trade)
    (accountBalance : number) :
  warningsOf REVENGE_TRADING (detectBehaviorWarnings clock trades accountBalance)
  = revengeScan (closedWithDate trades).
Proof.
  destruct (detectBehaviorWarnings_parts clock trades accountBalance)
    as (overtrading & streak & -> & Hover & ->).
  cbv zeta in *. rewrite !warningsOf_app.
  rewrite (warningsOf_other REVENGE_TRADING OVERTRADING overtrading);
    [|discriminate|destruct Hover as [-> | (sev & _ & ->)]; repeat constructor].
  rewrite (warningsOf_same REVENGE_TRADING) by apply revengeScan_type.
  rewrite (warningsOf_other REVENGE_TRADING HIGH_RISK);
    [|discriminate|apply risk_type].
  rewrite (warningsOf_other REVENGE_TRADING CONSECUTIVE_LOSS);
    [|discriminate|destruct (3 <=? _)%nat; repeat constructor].
  now rewrite !app_nil_r.
Qed.

(** On a trade that carries a close time, the test of the loop is the test
    of the rule: the earlier trade lost and the gap is under five minutes. *)
Lemma revengePair_spec (prev curr : Trade) :
  isSome (Trade.closedAt prev) = true ->
  revengePair prev curr =
    Qltb (Spec.pnlQ prev) 0 &&
    (Trade.openedAt curr - closeTime prev <? 5 * 60 * 1000)%Z.
Proof.
  unfold revengePair, Spec.pnlQ, closeTime.
  destruct (Trade.closedAt prev) as [c|]; [intros _ | discriminate].
  destruct (Trade.pnl prev) as [p|]; [|reflexivity].
  cbn [truthy ltb zero]. unfold zero. cbn [ltb].
  destruct (Qltb p 0) eqn:E; [|now rewrite andb_false_r].
  apply Qltb_lt in E.
  assert (H : Qeq_bool p 0 = false) by (apply Qeq_bool_false; lra).
  now rewrite H.
Qed.

Lemma revengeScan_firstRevenge (l : list Trade) :
  Forall (fun t => isSome (Trade.closedAt t) = true) l ->
  revengeScan l =
    match Spec.firstRevenge l with
    | Some later => [revengeWarning later]
    | None => []
    end.
Proof.
  induction 1 as [|prev rest Hprev Hrest IH]; [reflexivity|].
  destruct rest as [|curr rest']; [reflexivity|].
  rewrite revengeScan_cons, (revengePair_spec _ _ Hprev).
  cbn [Spec.firstRevenge].
  destruct (Qltb (Spec.pnlQ prev) 0 && _); [reflexivity | exact IH].
Qed.

Lemma closedWithDate_dated (trades : list Trade) :
  Forall (fun t => isSome (Trade.closedAt t) = true) (closedWithDate trades).
Proof.
  apply Forall_forall. intros t Ht. apply filter_In in Ht as [_ Ht].
  now apply andb_true_iff in Ht as [_ Ht].
Qed.

(** The loop follows the rule whenever the closed trades already reach it
    in ascending close-time order: what it lacks is the ordering. *)
Lemma revenge_rule_when_ordered (clock : Clock) (trades : list Trade)
    (accountBalance : number) :
  sortByClose (closedWithDate trades) = closedWithDate trades ->
  warningsOf REVENGE_TRADING (detectBehaviorWarnings clock trades accountBalance)
  = Spec.revengeWarnings trades.
Proof.
  intros Hsorted. rewrite warningsOf_revenge.
  unfold Spec.revengeWarnings. rewrite Hsorted.
  apply revengeScan_firstRevenge, closedWithDate_dated.
Qed.

(** C10. The revenge test has no lower bound on the gap: below any bound,
    there is a list of two closed trades, a loss followed by a trade opened
    before that loss was closed (a negative gap), on which
    [detectBehaviorWarnings] emits a [REVENGE_TRADING] warning.  The list is
    in ascending close-time order: the warning comes from the test
    [timeDiff < 5 * 60 * 1000] alone. *)
Theorem revenge_gap_unbounded_below (clock : Clock) (accountBalance : number)
    (bound : Z) :
  exists prevTrade currTrade : Trade,
    let gap := (Trade.openedAt currTrade - closeTime prevTrade)%Z in
    closedWithDate [prevTrade; currTrade] = [prevTrade; currTrade] /\
    sortByClose [prevTrade; currTrade] = [prevTrade; currTrade] /\
    Spec.pnlQ prevTrade < 0 /\
    (gap < 0)%Z /\ (gap < bound)%Z /\
    warningsOf REVENGE_TRADING
      (detectBehaviorWarnings clock [prevTrade; currTrade] accountBalance)
    = [mkWarning REVENGE_TRADING MsgRevenge HIGH (Trade.openedAt currTrade)].
Proof.
  set (closed := 1704106800000%Z).
  set (opened := (closed + Z.min 0 bound - 1)%Z).
  set (prevTrade := closedTrade 1704103200000 closed (-1)).
  set (currTrade := closedTrade opened (closed + 1) 1).
  exists prevTrade, currTrade. cbv zeta.
  assert (Hgap : (Trade.openedAt currTrade - closeTime prevTrade
                  = Z.min 0 bound - 1)%Z)
    by (cbn; subst opened; lia).
  split; [reflexivity|]. split; [reflexivity|]. split; [reflexivity|].
  rewrite Hgap. split; [lia|]. split; [lia|].
  rewrite warningsOf_revenge.
  change (closedWithDate _) with [prevTrade; currTrade].
  rewrite revengeScan_cons, revengePair_spec by reflexivity.
  rewrite Hgap.
  assert (Hlt : (Z.min 0 bound - 1 <? 5 * 60 * 1000)%Z = true)
    by (apply Z.ltb_lt; lia).
  rewrite Hlt. reflexivity.
Qed.

(** C6, at the list the [/behavior] route supplies (most recently opened
    first).  A loss closed on the second day is followed in the list by a
    win opened and closed the day before.  In ascending close-time order the
    only adjacent pair starts with the win, and the rule gives no warning;
    the loop pairs the trades in the order of the list, finds a gap of
    minus twenty-five hours, and emits a [REVENGE_TRADING] warning dated at
    the older trade's opening. *)
Theorem revenge_scan_keeps_list_order (clock : Clock) (accountBalance : number) :
  let newer := dayTrade 1 (-10) in
  let older := dayTrade 0 5 in
  let trades := [newer; older] in
  sortByClose (closedWithDate trades) = [older; newer] /\
  Spec.revengeWarnings trades = [] /\
  warningsOf REVENGE_TRADING (detectBehaviorWarnings clock trades accountBalance)
  = [mkWarning REVENGE_TRADING MsgRevenge HIGH 1704103200000].
Proof.
  cbv zeta. split; [reflexivity|]. split; [reflexivity|].
  rewrite warningsOf_revenge. reflexivity.
Qed.

(** On a list supplied newest first the loop also misses what the rule
    finds: a loss on day 0 and a trade opened one minute after it was
    closed. *)
Lemma revenge_missed_in_list_order (clock : Clock) (accountBalance : number) :
  let loss := dayTrade 0 (-10) in
  let next := closedTrade 1704106860000 1704110400000 5 in
  let trades := [next; loss] in
  Spec.revengeWarnings trades
    = [mkWarning REVENGE_TRADING MsgRevenge HIGH 1704106860000] /\
  warningsOf REVENGE_TRADING (detectBehaviorWarnings clock trades accountBalance)
    = [].
Proof.
  cbv zeta. split; [reflexivity|]. rewrite warningsOf_revenge. reflexivity.
Qed.

(** On a list supplied newest first the loop reports a streak of old
    losses although the three most recently closed trades won. *)
Lemma consecutive_losses_of_the_oldest (clock : Clock)
    (accountBalance : number) :
  let trades := [dayTrade 5 5; dayTrade 4 5; dayTrade 3 5;
                 dayTrade 2 (-10); dayTrade 1 (-10); dayTrade 0 (-10)] in
  Spec.recentLossStreak trades = 0%nat /\
  warningsOf CONSECUTIVE_LOSS (detectBehaviorWarnings clock trades accountBalance)
    = [mkWarning CONSECUTIVE_LOSS (MsgConsecutive 3) MEDIUM (todayOf clock)].
Proof.
  cbv zeta. split; [reflexivity|]. rewrite warningsOf_streak. reflexivity.
Qed.

(** ** Division guards *)

Lemma calculatePnL_finite (position : Position) (e x q f : Q) :
  exists p pp : Q,
    calculatePnL position (Fin e) (Fin x) (Fin q) (Fin f) = mkPnL (Fin p) (Fin pp).
Proof.
  unfold calculatePnL.
  change (Fin e * Fin q)%num with (Fin (e * q)). unfold zero.
  rewrite gtb_fin. destruct (Qltb 0 (e * q)) eqn:E.
  - apply Qltb_lt in E.
    assert (Hne : ~ e * q == 0) by lra.
    destruct position; unfold sub; cbn [neg add mul];
      rewrite (div_fin _ _ Hne); do 2 eexists; reflexivity.
  - destruct position; do 2 eexists; reflexivity.
Qed.

Lemma riskPercentOf_nonzero_balance (b : Q) (t : Trade) :
  ~ b == 0 ->
  riskPercentOf (Fin b) t
  = Fin (Trade.entryPrice t * Trade.quantity t / b * 100).
Proof.
  intros H. unfold riskPercentOf. cbn [mul]. now rewrite div_fin.
Qed.

Lemma riskPercentOf_zero_balance (t : Trade) :
  0 < Trade.entryPrice t * Trade.quantity t ->
  riskPercentOf (Fin 0) t = PosInf.
Proof.
  intros H. unfold riskPercentOf. cbn [mul div].
  change (Qeq_bool 0 0) with true. cbv iota. unfold signed.
  apply Qgt_alt in H. now rewrite H.
Qed.

(** C4, at an account balance of [0] (the default of the [accountBalance]
    column).  The risk percentage of a trade opened today at price [100],
    quantity [1], is [100 / 0 * 100]: the division has no guard and no
    fallback, the percentage is [+infinity], and a [HIGH_RISK] warning of
    severity [HIGH] carries it. *)
Theorem risk_division_unguarded :
  let opened := 1704103200000%Z in
  let trade := openTrade opened 100 1 in
  let clock := utcClock (opened + 60000) in
  riskPercentOf (Fin 0) trade = PosInf /\
  detectBehaviorWarnings clock [trade] (Fin 0)
  = [mkWarning HIGH_RISK (MsgHighRisk "BBCA" PosInf) HIGH opened].
Proof.
  cbv zeta. split.
  - apply riskPercentOf_zero_balance. reflexivity.
  - vm_compute. reflexivity.
Qed.

Lemma round2_finite (x : number) : finite x -> finite (round2 x).
Proof. destruct x; simpl; try contradiction. intros _. exact I. Qed.

(** Every division of [calculateMetrics] is guarded: the fields of the
    result are finite, but for a profit factor of [+infinity]. *)
Lemma calculateMetrics_guarded (trades : list Trade) :
  let m := calculateMetrics trades in
  finite (winRate m) /\ finite (avgWin m) /\ finite (avgLoss m) /\
  (finite (profitFactor m) \/ profitFactor m = PosInf) /\
  finite (maxDrawdown m) /\ finite (expectancy m).
Proof.
  assert (Hfin : forall x, Spec.finiteNonneg x -> finite (round2 x))
    by (intros x (q & -> & _); exact I).
  cbv zeta. destruct (closedWithPnl trades) as [|t l] eqn:E.
  - unfold calculateMetrics. rewrite E. cbn. intuition.
  - rewrite calculateMetrics_nonempty by (rewrite E; discriminate).
    cbv zeta. rewrite E.
    cbn [winRate avgWin avgLoss profitFactor maxDrawdown expectancy].
    refine (conj _ (conj _ (conj _ (conj _ (conj _ _))))).
    + apply Hfin, winRate_nonneg.
    + apply Hfin, avgWin_nonneg.
    + apply Hfin, avgLoss_nonneg.
    + destruct (profitFactor_nonneg (t :: l)) as [H | ->];
        [left; now apply Hfin | now right].
    + apply Hfin, maxDrawdown_nonneg.
    + apply round2_finite, expectancy_finite.
Qed.

(** ** The examples of the specification *)

Example drawdown_example :
  maxDrawdown (calculateMetrics [dayTrade 0 100; dayTrade 1 (-100)])
  =~= Fin 100.
Proof. vm_compute. reflexivity. Qed.

Example winRate_example :
  let m := calculateMetrics
             [dayTrade 0 100; dayTrade 1 100; dayTrade 2 (-100); dayTrade 3 100] in
  totalTrades m = 4%nat /\ winRate m =~= Fin 75 /\ profitFactor m =~= Fin 3.
Proof. cbv zeta. repeat split; vm_compute; reflexivity. Qed.

Example empty_metrics_example : calculateMetrics [] = zeroMetrics.
Proof. reflexivity. Qed.

Example risk_example :
  let opened := 1704103200000%Z in
  let ws := detectBehaviorWarnings_opt (utcClock opened)
              [openTrade opened 5000 1] None in
  riskPercentOf defaultAccountBalance (openTrade opened 5000 1) =~= Fin 50 /\
  map type ws = [HIGH_RISK] /\ map severity ws = [HIGH].
Proof. cbv zeta. repeat split; vm_compute; reflexivity. Qed.

Example overtrading_example :
  let opened := 1704103200000%Z in
  let day n := repeat (openTrade opened 1 1) n in
  detectBehaviorWarnings_opt (utcClock opened) (day 11%nat) None
    = [mkWarning OVERTRADING (MsgOvertrading 11) MEDIUM 1704067200000] /\
  detectBehaviorWarnings_opt (utcClock opened) (day 16%nat) None
    = [mkWarning OVERTRADING (MsgOvertrading 16) HIGH 1704067200000].
Proof. cbv zeta. split; vm_compute; reflexivity. Qed.

(** ** The thresholds of the rules *)

Example revenge_window_example :
  let loss := dayTrade 0 (-10) in
  let at_ gap := closedTrade (1704106800000 + gap) 1704110400000 5 in
  revengeScan [loss; at_ 299999%Z] = [revengeWarning (at_ 299999%Z)] /\
  revengeScan [loss; at_ 300000%Z] = [] /\
  revengeScan [dayTrade 0 0; at_ 0%Z] = [].
Proof. cbv zeta. repeat split; reflexivity. Qed.

Example streak_thresholds_example :
  let losses n := map (fun d => dayTrade (Z.of_nat d) (-10)) (seq 0 n) in
  countConsecutiveLosses (losses 2%nat) = 2%nat /\
  countConsecutiveLosses (losses 4%nat) = 4%nat /\
  countConsecutiveLosses (losses 7%nat) = 5%nat /\
  countConsecutiveLosses (losses 2%nat ++ [dayTrade 9 0]) = 0%nat /\
  countConsecutiveLosses (dayTrade 0 5 :: losses 3%nat) = 3%nat.
Proof. cbv zeta. repeat split; reflexivity. Qed.

Example risk_thresholds_example :
  let t e := openTrade 1704103200000 e 1 in
  riskWarning defaultAccountBalance (t 200) = [] /\
  map severity (riskWarning defaultAccountBalance (t 201)) = [MEDIUM] /\
  map severity (riskWarning defaultAccountBalance (t 500)) = [MEDIUM] /\
  map severity (riskWarning defaultAccountBalance (t 501)) = [HIGH].
Proof. cbv zeta. repeat split; reflexivity. Qed.

Example sort_is_stable_example :
  let a := closedTrade 1 10 1 in
  let b := closedTrade 2 10 2 in
  let c := closedTrade 3 5 3 in
  let d := openTrade 4 1 1 in
  sortByClose [a; b; c; d] = [d; c; a; b].
Proof. reflexivity. Qed.

(** * Properties beyond the specification *)

(** ** Metrics aggregator: counts and totals *)

Lemma sign_flags (x : Q) :
  (Qltb 0 x = true /\ Qltb x 0 = false /\ Qeq_bool x 0 = false) \/
  (Qltb 0 x = false /\ Qltb x 0 = true /\ Qeq_bool x 0 = false) \/
  (Qltb 0 x = false /\ Qltb x 0 = false /\ Qeq_bool x 0 = true).
Proof.
  destruct (Q_dec x 0) as [[H | H] | H].
  - right; left. repeat split.
    + apply Qltb_ge. lra.
    + now apply Qltb_lt.
    + apply Qeq_bool_false. lra.
  - left. repeat split.
    + now apply Qltb_lt.
    + apply Qltb_ge. lra.
    + apply Qeq_bool_false. lra.
  - right; right. repeat split.
    + apply Qltb_ge. lra.
    + apply Qltb_ge. lra.
    + now apply Qeq_bool_iff.
Qed.

Lemma winFlag (t : Trade) : (pnlOrZero t >? zero)%num = Qltb 0 (Spec.pnlQ t).
Proof. now rewrite pnlOrZero_fin. Qed.

Lemma closed_partition (l : list Trade) :
  (length (Internal.winningTrades l) + length (Internal.losingTrades l)
   + length (filter breaksEven l) = length l)%nat.
Proof.
  unfold Internal.winningTrades, Internal.losingTrades, breaksEven.
  induction l as [|t l IH]; [reflexivity|].
  cbn [filter]. rewrite winFlag, lossFlag.
  destruct (sign_flags (Spec.pnlQ t))
    as [(-> & -> & ->) | [(-> & -> & ->) | (-> & -> & ->)]];
    cbn [length]; lia.
Qed.

(** X1. The winners and the losers never outnumber the closed trades, and
    they account for all of them exactly when no closed trade broke even. *)
Theorem winners_losers_total (trades : list Trade) :
  let m := calculateMetrics trades in
  (winningTrades m + losingTrades m <= totalTrades m)%nat /\
  ((winningTrades m + losingTrades m)%nat = totalTrades m
   <-> Forall (fun t => ~ Spec.pnlQ t == 0) (closedWithPnl trades)) /\
  totalTrades m = length (closedWithPnl trades).
Proof.
  cbv zeta.
  assert (Hzero : forall l : list Trade,
            length (filter breaksEven l) = 0%nat
            <-> Forall (fun t => ~ Spec.pnlQ t == 0) l).
  { induction l as [|t l IH]; [split; [constructor | reflexivity]|].
    cbn [filter]. unfold breaksEven at 1.
    destruct (Qeq_bool (Spec.pnlQ t) 0) eqn:E.
    - split; [discriminate|]. intros H. inversion H as [|? ? Ht _].
      apply Qeq_bool_iff in E. contradiction.
    - rewrite IH. apply Qeq_bool_false in E. split.
      + now constructor.
      + intros H. now inversion H. }
  pose proof (closed_partition (closedWithPnl trades)) as Hp.
  destruct (closedWithPnl trades) as [|t l] eqn:E.
  - unfold calculateMetrics. rewrite E. cbn.
    repeat split; auto.
  - rewrite calculateMetrics_nonempty by (rewrite E; discriminate).
    cbv zeta. rewrite E. cbn [winningTrades losingTrades totalTrades].
    rewrite <- (Hzero (t :: l)). repeat split; try lia.
Qed.

Lemma round2_above_one (q : Q) :
  (round2 (Fin q) >? Fin 1)%num = true -> 1 < q.
Proof.
  rewrite round2_fin, gtb_fin, Qltb_lt. intros H.
  set (F := Qfloor (q * 100 + (1 # 2))) in *.
  assert (HF : (100 < F)%Z).
  { rewrite Zlt_Qlt. unfold Qdiv in H. change (/ 100) with (1 # 100) in H.
    change (inject_Z 100) with 100. lra. }
  assert (HF' : inject_Z 101 <= inject_Z F) by (rewrite <- Zle_Qle; lia).
  pose proof (Qfloor_le (q * 100 + (1 # 2))) as Hle. fold F in Hle.
  change (inject_Z 101) with 101 in HF'. lra.
Qed.

Lemma round2_not_below_one (q : Q) :
  1 <= q -> (round2 (Fin q) <? Fin 1)%num = false.
Proof.
  intros H. rewrite round2_fin. cbn [ltb]. apply Qltb_ge.
  assert (HF : (Qfloor 100 <= Qfloor (q * 100 + (1 # 2)))%Z)
    by (apply Qfloor_resp_le; lra).
  change (Qfloor 100) with 100%Z in HF. rewrite Zle_Qle in HF.
  change (inject_Z 100) with 100 in HF.
  unfold Qdiv. change (/ 100) with (1 # 100). lra.
Qed.

(** X2. The profit factor, before rounding, is above 1 exactly when the
    gross profit the function has summed is above the gross loss it has
    summed.  The field of the result is rounded: a value above 1 there still
    means that the gross profit is above the gross loss, and a gross profit
    above the gross loss is never shown as a value below 1. *)
Theorem profitFactor_above_one (trades : list Trade) :
  let closed := closedWithPnl trades in
  let m := calculateMetrics trades in
  let grossProfit := Internal.grossProfit closed in
  let grossLoss := Internal.grossLoss closed in
  (Internal.profitFactor closed >? Fin 1)%num = (grossProfit >? grossLoss)%num /\
  ((profitFactor m >? Fin 1)%num = true ->
   (grossProfit >? grossLoss)%num = true) /\
  ((grossProfit >? grossLoss)%num = true ->
   (profitFactor m <? Fin 1)%num = false).
Proof.
  intros closed m grossProfit grossLoss. subst grossProfit grossLoss.
  pose proof (grossProfit_nonneg closed) as Hg0.
  pose proof (grossLoss_nonneg closed) as Hl0.
  destruct (grossProfit_fin closed) as (g & Eg' & Eg).
  destruct (grossLoss_fin closed) as (l & El' & El).
  rewrite <- Eg in Hg0. rewrite <- El in Hl0.
  assert (Hpf :
    (exists q : Q, Internal.profitFactor closed = Fin q /\ (1 < q <-> l < g)) \/
    (Internal.profitFactor closed = PosInf /\ l < g)).
  { unfold Internal.profitFactor. rewrite Eg', El'.
    unfold zero. rewrite !gtb_fin.
    destruct (Qltb 0 l) eqn:E1.
    - left. apply Qltb_lt in E1. rewrite div_fin by lra.
      eexists. split; [reflexivity|].
      assert (Hr : g / l * l == g) by (field; lra).
      split; intros H; nra.
    - apply Qltb_ge in E1. destruct (Qltb 0 g) eqn:E2.
      + right. split; [reflexivity|]. apply Qltb_lt in E2. lra.
      + left. apply Qltb_ge in E2. exists 0. split; [reflexivity|].
        split; intros H; lra. }
  assert (Hm : profitFactor m = round2 (Internal.profitFactor closed) \/
               (closed = [] /\ profitFactor m = zero)).
  { subst m. destruct closed as [|t r] eqn:E.
    - right. split; [reflexivity|]. unfold calculateMetrics.
      fold closed. now rewrite E.
    - left. rewrite calculateMetrics_nonempty
        by (fold closed; rewrite E; discriminate).
      cbv zeta. fold closed. now rewrite E. }
  rewrite Eg', El', gtb_fin.
  split; [|split].
  - apply eq_true_iff_eq. rewrite Qltb_lt.
    destruct Hpf as [(q & -> & Hq) | (-> & Hpos)].
    + rewrite gtb_fin, Qltb_lt. exact Hq.
    + split; [intros _; exact Hpos | reflexivity].
  - rewrite Qltb_lt.
    destruct Hm as [-> | (Hnil & ->)]; [|discriminate].
    destruct Hpf as [(q & -> & Hq) | (-> & Hpos)].
    + intros H. apply Hq. now apply round2_above_one.
    + intros _. exact Hpos.
  - rewrite Qltb_lt. intros Hpos. destruct Hm as [-> | (Hnil & ->)].
    + destruct Hpf as [(q & -> & Hq) | (-> & _)]; [|reflexivity].
      apply round2_not_below_one. apply Hq in Hpos. lra.
    + rewrite Hnil in Eg, El.
      change (Spec.grossProfit []) with 0 in Eg.
      change (Spec.grossLoss []) with 0 in El. lra.
Qed.

(** ** Maximum drawdown: the order of the input *)

Lemma key_injective {A : Type} (key : A -> Z) (l : list A) (a b : A) :
  NoDup (map key l) -> In a l -> In b l -> key a = key b -> a = b.
Proof.
  induction l as [|x l IH]; intros Hnd Ha Hb E; [contradiction|].
  cbn [map] in Hnd. inversion Hnd as [|? ? Hx Hnd']; subst.
  destruct Ha as [-> | Ha], Hb as [-> | Hb].
  - reflexivity.
  - exfalso. apply Hx. rewrite E. now apply in_map.
  - exfalso. apply Hx. rewrite <- E. now apply in_map.
  - now apply IH.
Qed.

Lemma sorted_unique (l l' : list Trade) :
  StronglySorted closesBefore l -> StronglySorted closesBefore l' ->
  Permutation l l' -> NoDup (map closeTime l) -> l = l'.
Proof.
  intros Hl. revert l'. induction Hl as [|a l Hl IH Ha]; intros l' Hl' Hp Hnd.
  - apply Permutation_nil in Hp. now subst.
  - destruct l' as [|b r]; [now apply Permutation_sym, Permutation_nil in Hp|].
    inversion Hl' as [|? ? Hr Hb]; subst.
    assert (Hab : a = b).
    { assert (Ina : In a (b :: r))
        by (eapply Permutation_in; [exact Hp | now left]).
      assert (Inb : In b (a :: l))
        by (eapply Permutation_in; [apply Permutation_sym, Hp | now left]).
      apply (key_injective closeTime (a :: l)); auto; [now left|].
      destruct Ina as [-> | Ina]; [reflexivity|].
      destruct Inb as [-> | Inb]; [reflexivity|].
      rewrite Forall_forall in Ha, Hb.
      pose proof (Ha b Inb). pose proof (Hb a Ina).
      unfold closesBefore in *. lia. }
    subst b. f_equal. apply IH; [exact Hr | | now inversion Hnd].
    now apply Permutation_cons_inv in Hp.
Qed.

Lemma sortByClose_order_free (l l' : list Trade) :
  Permutation l l' -> NoDup (map closeTime l) -> sortByClose l = sortByClose l'.
Proof.
  intros Hp Hnd. apply sorted_unique; try apply sortByClose_sorted.
  - rewrite <- (sortByClose_perm l), <- (sortByClose_perm l'). exact Hp.
  - eapply Permutation_NoDup; [|exact Hnd].
    apply Permutation_map, sortByClose_perm.
Qed.

Lemma filter_perm {A : Type} (f : A -> bool) (l l' : list A) :
  Permutation l l' -> Permutation (filter f l) (filter f l').
Proof.
  induction 1 as [|x l l' _ IH|x y l|l l' l'' _ IH1 _ IH2]; cbn [filter].
  - constructor.
  - destruct (f x); [now constructor | exact IH].
  - destruct (f x), (f y); try reflexivity. apply perm_swap.
  - now transitivity (filter f l').
Qed.

(** X5. The maximum drawdown does not depend on the order in which the
    trades are supplied, as long as no two closed trades share a close time:
    the walk follows the close times. *)
Theorem maxDrawdown_order_free (trades trades' : list Trade) :
  Permutation trades trades' ->
  NoDup (map closeTime (closedWithPnl trades)) ->
  calculateMaxDrawdown (closedWithPnl trades)
    = calculateMaxDrawdown (closedWithPnl trades') /\
  maxDrawdown (calculateMetrics trades) = maxDrawdown (calculateMetrics trades').
Proof.
  intros Hp Hnd.
  assert (Hc : Permutation (closedWithPnl trades) (closedWithPnl trades'))
    by now apply filter_perm.
  pose proof (sortByClose_order_free _ _ Hc Hnd) as Hs.
  assert (Hd : calculateMaxDrawdown (closedWithPnl trades)
               = calculateMaxDrawdown (closedWithPnl trades')).
  { unfold calculateMaxDrawdown.
    destruct (closedWithPnl trades) as [|t l] eqn:E.
    - apply Permutation_nil in Hc. now rewrite Hc.
    - destruct (closedWithPnl trades') as [|t' l'] eqn:E';
        [now apply Permutation_sym, Permutation_nil in Hc|].
      cbv zeta. now rewrite Hs. }
  split; [exact Hd|].
  unfold calculateMetrics.
  destruct (closedWithPnl trades) as [|t l] eqn:E.
  - apply Permutation_nil in Hc. now rewrite Hc.
  - destruct (closedWithPnl trades') as [|t' l'] eqn:E';
      [now apply Permutation_sym, Permutation_nil in Hc|].
    cbn [length Nat.eqb maxDrawdown]. unfold Internal.maxDrawdown.
    now rewrite Hd.
Qed.

Lemma maxDrawdown_order_free_witness :
  calculateMaxDrawdown (closedWithPnl [dayTrade 1 (-5); dayTrade 0 10])
  = calculateMaxDrawdown (closedWithPnl [dayTrade 0 10; dayTrade 1 (-5)]).
Proof.
  apply (maxDrawdown_order_free [dayTrade 1 (-5); dayTrade 0 10]
                                [dayTrade 0 10; dayTrade 1 (-5)]).
  - apply perm_swap.
  - repeat constructor; simpl; intuition discriminate.
Defined.

(** ** Behaviour analyser: overtrading, risk and the shape of the result *)

Lemma warningsOf_overtrading (clock : Clock) (trades : list Trade)
    (accountBalance : number) :
  let n := length (todayTradesOf clock trades) in
  warningsOf OVERTRADING (detectBehaviorWarnings clock trades accountBalance)
  = if (10 <? n)%nat then
      [mkWarning OVERTRADING (MsgOvertrading n)
         (if (15 <? n)%nat then HIGH else MEDIUM) (todayOf clock)]
    else [].
Proof.
  cbv zeta. unfold detectBehaviorWarnings. cbv zeta.
  rewrite !warningsOf_app.
  rewrite (warningsOf_other OVERTRADING REVENGE_TRADING (revengeScan _));
    [|discriminate|apply revengeScan_type].
  rewrite (warningsOf_other OVERTRADING HIGH_RISK (flat_map _ _));
    [|discriminate|apply risk_type].
  match goal with |- context [warningsOf OVERTRADING (if (3 <=? ?k)%nat then ?a else ?b)] =>
    rewrite (warningsOf_other OVERTRADING CONSECUTIVE_LOSS
               (if (3 <=? k)%nat then a else b));
      [|discriminate|destruct (3 <=? k)%nat; repeat constructor]
  end.
  rewrite !app_nil_r. apply warningsOf_same.
  destruct (10 <? _)%nat; repeat constructor.
Qed.

(** X6. Overtrading rule: exactly one [OVERTRADING] warning when more than
    10 of the trades were opened on the current day, none otherwise; its
    severity is [HIGH] when they are more than 15 and [MEDIUM] otherwise, it
    carries their number, and it is the first warning of the result. *)
Theorem overtrading_rule (clock : Clock) (trades : list Trade)
    (accountBalance : number) :
  let n := length (todayTradesOf clock trades) in
  let all := detectBehaviorWarnings clock trades accountBalance in
  let ws := warningsOf OVERTRADING all in
  (length ws = 1%nat <-> (10 < n)%nat) /\
  (ws = [] <-> (n <= 10)%nat) /\
  (forall w, In w ws ->
     hd_error all = Some w /\ message w = MsgOvertrading n /\
     (severity w = HIGH <-> (15 < n)%nat) /\
     (severity w = MEDIUM <-> (n <= 15)%nat)).
Proof.
  intros n all ws. subst ws.
  pose proof (warningsOf_overtrading clock trades accountBalance) as Hw.
  cbv zeta in Hw. fold n in Hw. fold all in Hw. rewrite Hw.
  assert (Hall : (10 < n)%nat ->
                 hd_error all
                 = Some (mkWarning OVERTRADING (MsgOvertrading n)
                           (if (15 <? n)%nat then HIGH else MEDIUM)
                           (todayOf clock))).
  { intros H. subst all. unfold detectBehaviorWarnings. cbv zeta. fold n.
    apply Nat.ltb_lt in H. now rewrite H. }
  destruct (10 <? n)%nat eqn:E10.
  - apply Nat.ltb_lt in E10.
    split; [split; intros; [exact E10 | reflexivity]|].
    split; [split; intros H; [discriminate | lia]|].
    intros w [<- | []]. split; [now apply Hall|].
    cbn [message severity]. split; [reflexivity|].
    destruct (15 <? n)%nat eqn:E15;
      [apply Nat.ltb_lt in E15 | apply Nat.ltb_ge in E15];
      split; split; intros; try reflexivity; try discriminate; lia.
  - apply Nat.ltb_ge in E10.
    split; [split; intros H; [discriminate | lia]|].
    split; [split; intros; [exact E10 | reflexivity]|].
    intros w [].
Qed.

Lemma warningsOf_risk (clock : Clock) (trades : list Trade)
    (accountBalance : number) :
  warningsOf HIGH_RISK (detectBehaviorWarnings clock trades accountBalance)
  = flat_map (riskWarning accountBalance) (todayTradesOf clock trades).
Proof.
  destruct (detectBehaviorWarnings_parts clock trades accountBalance)
    as (overtrading & streak & -> & Hover & ->).
  cbv zeta. rewrite !warningsOf_app.
  rewrite (warningsOf_other HIGH_RISK OVERTRADING overtrading);
    [|discriminate|destruct Hover as [-> | (sev & _ & ->)]; repeat constructor].
  rewrite (warningsOf_other HIGH_RISK REVENGE_TRADING);
    [|discriminate|apply revengeScan_type].
  rewrite (warningsOf_same HIGH_RISK) by apply risk_type.
  rewrite (warningsOf_other HIGH_RISK CONSECUTIVE_LOSS);
    [|discriminate|destruct (3 <=? _)%nat; repeat constructor].
  now rewrite app_nil_r.
Qed.

Lemma revengeScan_type_double (l : list Binary64.Trade.t) :
  Forall (fun w => Binary64.type w = REVENGE_TRADING) (Binary64.revengeScan l).
Proof.
  induction l as [|a l IH]; [constructor|].
  cbn [Binary64.revengeScan]. destruct l as [|b l]; [constructor|].
  destruct (Binary64.revengePair a b); [repeat constructor | exact IH].
Qed.

Lemma risk_type_double (accountBalance : float) (l : list Binary64.Trade.t) :
  Forall (fun w => Binary64.type w = HIGH_RISK)
    (flat_map (Binary64.riskWarning accountBalance) l).
Proof.
  induction l as [|t l IH]; cbn [flat_map]; [constructor|].
  apply Forall_app. split; [|exact IH].
  unfold Binary64.riskWarning. cbv zeta.
  destruct (2 <? Binary64.riskPercentOf accountBalance t)%float;
    repeat constructor.
Qed.

Lemma warningsOf_app_double (ty : WarningType)
    (a b : list Binary64.BehaviorWarning) :
  Binary64.warningsOf ty (a ++ b)
  = Binary64.warningsOf ty a ++ Binary64.warningsOf ty b.
Proof. apply filter_app. Qed.

Lemma warningsOf_other_double (ty ty' : WarningType)
    (l : list Binary64.BehaviorWarning) :
  ty <> ty' -> Forall (fun w => Binary64.type w = ty') l ->
  Binary64.warningsOf ty l = [].
Proof.
  intros Hne H. induction H as [|w l Hw _ IH]; [reflexivity|].
  unfold Binary64.warningsOf in *. cbn [filter].
  unfold Binary64.hasType at 1. rewrite Hw.
  destruct ty, ty'; try contradiction; exact IH.
Qed.

Lemma warningsOf_same_double (ty : WarningType)
    (l : list Binary64.BehaviorWarning) :
  Forall (fun w => Binary64.type w = ty) l -> Binary64.warningsOf ty l = l.
Proof.
  intros H. induction H as [|w l Hw _ IH]; [reflexivity|].
  unfold Binary64.warningsOf in *. cbn [filter].
  unfold Binary64.hasType at 1. rewrite Hw.
  destruct ty; now rewrite IH.
Qed.

(** X7. Risk rule, for any account balance: one [HIGH_RISK] warning for
    each trade opened on the current day whose [riskPercent], the double
    [entryPrice * quantity / accountBalance * 100], is above 2, in the order
    of the list and dated at the trade's opening; the warning carries the
    asset and that [riskPercent], and its severity is [HIGH] when the
    [riskPercent] is above 5 and [MEDIUM] otherwise. *)
Theorem high_risk_rule (clock : Clock) (trades : list Binary64.Trade.t)
    (accountBalance : float) :
  Binary64.warningsOf HIGH_RISK
    (Binary64.detectBehaviorWarnings clock trades accountBalance)
  = map (fun t =>
           let riskPercent := Binary64.riskPercentOf accountBalance t in
           Binary64.mkWarning HIGH_RISK
             (Binary64.MsgHighRisk (Binary64.Trade.asset t) riskPercent)
             (if (5 <? riskPercent)%float then HIGH else MEDIUM)
             (Binary64.Trade.openedAt t))
        (filter (fun t => (2 <? Binary64.riskPercentOf accountBalance t)%float)
           (Binary64.todayTradesOf clock trades)).
Proof.
  unfold Binary64.detectBehaviorWarnings. cbv zeta.
  rewrite !warningsOf_app_double.
  rewrite (warningsOf_other_double HIGH_RISK OVERTRADING);
    [|discriminate|destruct (10 <? _)%nat; repeat constructor].
  rewrite (warningsOf_other_double HIGH_RISK REVENGE_TRADING);
    [|discriminate|apply revengeScan_type_double].
  rewrite (warningsOf_same_double HIGH_RISK) by apply risk_type_double.
  rewrite (warningsOf_other_double HIGH_RISK CONSECUTIVE_LOSS);
    [|discriminate|destruct (3 <=? _)%nat; repeat constructor].
  rewrite app_nil_r. cbn [app].
  induction (Binary64.todayTradesOf clock trades) as [|t l IH]; [reflexivity|].
  cbn [flat_map filter]. rewrite IH. unfold Binary64.riskWarning at 1. cbv zeta.
  destruct (2 <? Binary64.riskPercentOf accountBalance t)%float; reflexivity.
Qed.

(** Four trades opened today against a balance of 10000.  An exposure of
    500.00000000000006 is 5 percent of the balance as a double, and the
    warning is [MEDIUM]; 0.1 times 2000 is 2 percent as a double, and
    there is no warning. *)
Example high_risk_rule_example :
  Binary64.detectBehaviorWarnings (utcClock 0)
    [ Binary64.openTrade 0 500.00000000000006 1;
      Binary64.openTrade 0 0.1 2000;
      Binary64.openTrade 0 501 1 ] 10000
  = [ Binary64.mkWarning HIGH_RISK (Binary64.MsgHighRisk "BBCA" 5) MEDIUM 0;
      Binary64.mkWarning HIGH_RISK (Binary64.MsgHighRisk "BBCA" 5.01) HIGH 0 ].
Proof. vm_compute. reflexivity. Qed.

Lemma riskWarning_length (accountBalance : number) (l : list Trade) :
  (length (flat_map (riskWarning accountBalance) l) <= length l)%nat.
Proof.
  induction l as [|t l IH]; [reflexivity|].
  cbn [flat_map]. rewrite length_app. unfold riskWarning at 1. cbv zeta.
  destruct (riskPercentOf accountBalance t >? Fin 2)%num; simpl; lia.
Qed.

(** X8. The warnings come in the order of the rules: overtrading, revenge
    trading, risk, consecutive losses.  There is at most one warning of each
    kind but risk, at most one risk warning per trade opened on the current
    day, and none at all when no trade was opened on that day and none is
    closed. *)
Theorem warnings_shape (clock : Clock) (trades : list Trade)
    (accountBalance : number) :
  let ws := detectBehaviorWarnings clock trades accountBalance in
  ws = warningsOf OVERTRADING ws ++ warningsOf REVENGE_TRADING ws
       ++ warningsOf HIGH_RISK ws ++ warningsOf CONSECUTIVE_LOSS ws /\
  (length (warningsOf OVERTRADING ws) <= 1)%nat /\
  (length (warningsOf REVENGE_TRADING ws) <= 1)%nat /\
  (length (warningsOf CONSECUTIVE_LOSS ws) <= 1)%nat /\
  (length (warningsOf HIGH_RISK ws) <= length (todayTradesOf clock trades))%nat /\
  (todayTradesOf clock trades = [] -> closedWithDate trades = [] -> ws = []).
Proof.
  intros ws. subst ws.
  pose proof (warningsOf_overtrading clock trades accountBalance) as H1.
  pose proof (warningsOf_revenge clock trades accountBalance) as H2.
  pose proof (warningsOf_risk clock trades accountBalance) as H3.
  pose proof (warningsOf_streak clock trades accountBalance) as H4.
  cbv zeta in H1, H4. rewrite H1, H2, H3, H4.
  refine (conj _ (conj _ (conj _ (conj _ (conj _ _))))).
  - reflexivity.
  - destruct (10 <? _)%nat; simpl; lia.
  - destruct (revengeScan_shape (closedWithDate trades)) as [-> | (c & _ & ->)];
      simpl; lia.
  - destruct (3 <=? _)%nat; simpl; lia.
  - apply riskWarning_length.
  - intros Ht Hc. unfold detectBehaviorWarnings. cbv zeta.
    rewrite Ht, Hc. reflexivity.
Qed.

(** ** Risk calculators *)

(** *** Doubles: the sign of a difference

    A difference of two doubles is rounded, and with gradual underflow it
    is never rounded to zero: it compares with zero as its operands compare
    with each other. *)

Section DoubleDifference.

Local Open Scope Z_scope.

Lemma digits2_bounds (p : BinNums.positive) :
  2 ^ (Zpos (digits2_pos p) - 1) <= Zpos p < 2 ^ Zpos (digits2_pos p).
Proof.
  induction p as [p IH | p IH |]; cbn [digits2_pos].
  - rewrite Pos2Z.inj_succ, (Pos2Z.inj_xI p).
    replace (Z.succ (Zpos (digits2_pos p)) - 1)
      with (Z.succ (Zpos (digits2_pos p) - 1)) by lia.
    rewrite !Z.pow_succ_r by lia.
    revert IH. generalize (2 ^ (Zpos (digits2_pos p) - 1))
      (2 ^ Zpos (digits2_pos p)). lia.
  - rewrite Pos2Z.inj_succ, (Pos2Z.inj_xO p).
    replace (Z.succ (Zpos (digits2_pos p)) - 1)
      with (Z.succ (Zpos (digits2_pos p) - 1)) by lia.
    rewrite !Z.pow_succ_r by lia.
    revert IH. generalize (2 ^ (Zpos (digits2_pos p) - 1))
      (2 ^ Zpos (digits2_pos p)). lia.
  - cbn. lia.
Qed.

Lemma shr_1_half (r : shr_record) :
  0 <= shr_m r -> shr_m (shr_1 r) = shr_m r / 2.
Proof.
  destruct r as [m r s]. cbn [shr_m]. intros Hm.
  destruct m as [|[q|q|]|q]; cbn [shr_1 shr_m]; try reflexivity; try lia.
  - rewrite (Pos2Z.inj_xI q). apply Z.div_unique with 1; lia.
  - rewrite (Pos2Z.inj_xO q). apply Z.div_unique with 0; lia.
Qed.

Lemma iter_shr_1 (p : BinNums.positive) : forall r : shr_record,
  0 <= shr_m r -> shr_m (iter_pos shr_1 p r) = shr_m r / 2 ^ Zpos p.
Proof.
  induction p as [p IH | p IH |]; intros r Hr; cbn [iter_pos].
  - assert (H1 : 0 <= shr_m (shr_1 r))
      by (rewrite shr_1_half by exact Hr; apply Z.div_pos; lia).
    assert (H2 : 0 <= shr_m (iter_pos shr_1 p (shr_1 r)))
      by (rewrite IH by exact H1; apply Z.div_pos; lia).
    rewrite IH by exact H2. rewrite IH by exact H1.
    rewrite shr_1_half by exact Hr.
    rewrite !Z.div_div by lia.
    f_equal. rewrite (Pos2Z.inj_xI p).
    replace (2 * Zpos p + 1) with (1 + Zpos p + Zpos p) by lia.
    rewrite !Z.pow_add_r by lia. change (2 ^ 1) with 2. ring.
  - assert (H2 : 0 <= shr_m (iter_pos shr_1 p r))
      by (rewrite IH by exact Hr; apply Z.div_pos; lia).
    rewrite IH by exact H2. rewrite IH by exact Hr.
    rewrite !Z.div_div by lia.
    f_equal. rewrite (Pos2Z.inj_xO p).
    replace (2 * Zpos p) with (Zpos p + Zpos p) by lia.
    rewrite !Z.pow_add_r by lia. ring.
  - rewrite shr_1_half by exact Hr. reflexivity.
Qed.

Lemma shr_record_of_loc_m (m : Z) (l : location) :
  shr_m (shr_record_of_loc m l) = m.
Proof. destruct l as [|[| |]]; reflexivity. Qed.

Lemma emin_value : SpecFloat.emin prec emax = -1074.
Proof. reflexivity. Qed.

(** Shifting a positive mantissa to its format exponent leaves it
    positive, above the smallest exponent. *)
Lemma shr_fexp_positive (m e : Z) (l : location) :
  1 <= m -> -1074 <= e ->
  1 <= shr_m (fst (shr_fexp prec emax m e l)) /\
  -1074 <= snd (shr_fexp prec emax m e l).
Proof.
  intros Hm He. unfold shr_fexp, shr.
  destruct m as [|p|p]; try lia. cbn [Zdigits2].
  pose proof (digits2_bounds p) as [Hlo _].
  set (d := Zpos (digits2_pos p)) in *.
  unfold fexp. rewrite emin_value. change prec with 53.
  destruct (Z.max (d + e - 53) (-1074) - e) as [|n|n] eqn:En;
    cbn [fst snd]; rewrite ?shr_record_of_loc_m; try lia.
  split; [|lia].
  rewrite iter_shr_1 by (rewrite shr_record_of_loc_m; lia).
  rewrite shr_record_of_loc_m.
  assert (Hd : d = Zpos n + 53) by lia.
  apply Z.div_le_lower_bound; [lia|].
  rewrite Z.mul_1_r. etransitivity; [|exact Hlo].
  apply Z.pow_le_mono_r; lia.
Qed.

Lemma round_nearest_even_ge (m : Z) (l : location) :
  m <= round_nearest_even m l.
Proof.
  destruct l as [|[| |]]; cbn [round_nearest_even]; try lia.
  destruct (Z.even m); lia.
Qed.

Lemma binary_round_aux_sign (s : bool) (m e : Z) (l : location) :
  1 <= m -> -1074 <= e ->
  (exists m' e', binary_round_aux prec emax s m e l = S754_finite s m' e') \/
  binary_round_aux prec emax s m e l = S754_infinity s.
Proof.
  intros Hm He. unfold binary_round_aux.
  destruct (shr_fexp_positive m e l Hm He) as [H1 H2].
  destruct (shr_fexp prec emax m e l) as [mrs' e']. cbn [fst snd] in H1, H2.
  pose proof (round_nearest_even_ge (shr_m mrs') (loc_of_shr_record mrs')) as Hr.
  set (m1 := round_nearest_even (shr_m mrs') (loc_of_shr_record mrs')) in *.
  assert (Hm1 : 1 <= m1) by lia.
  destruct (shr_fexp_positive m1 e' loc_Exact Hm1 H2) as [H3 _].
  destruct (shr_fexp prec emax m1 e' loc_Exact) as [mrs'' e''].
  cbn [fst] in H3.
  destruct (shr_m mrs'') as [|q|q]; try lia.
  destruct (e'' <=? emax - prec); [left; eauto | right; reflexivity].
Qed.

Lemma iter_xO (d m : BinNums.positive) :
  Zpos (Pos.iter xO m d) = Zpos m * 2 ^ Zpos d.
Proof.
  induction d as [|d IH] using Pos.peano_ind.
  - cbn. lia.
  - rewrite Pos.iter_succ, Pos2Z.inj_xO, IH, Pos2Z.inj_succ, Z.pow_succ_r by lia.
    lia.
Qed.

Lemma shl_align_value (m : BinNums.positive) (e e' : Z) :
  e' <= e ->
  Zpos (fst (shl_align m e e')) = Zpos m * 2 ^ (e - e').
Proof.
  intros H. unfold shl_align.
  destruct (e' - e) as [|d|d] eqn:E; cbn [fst]; try lia.
  - replace (e - e') with 0 by lia. lia.
  - rewrite iter_xO. f_equal. f_equal. lia.
Qed.

Lemma shl_align_exponent (m : BinNums.positive) (e e' : Z) :
  -1074 <= e -> -1074 <= e' -> -1074 <= snd (shl_align m e e').
Proof.
  intros H H'. unfold shl_align. destruct (e' - e); cbn [snd]; lia.
Qed.

Lemma binary_round_sign (s : bool) (m : BinNums.positive) (e : Z) :
  -1074 <= e ->
  (exists m' e', binary_round prec emax s m e = S754_finite s m' e') \/
  binary_round prec emax s m e = S754_infinity s.
Proof.
  intros He. unfold binary_round.
  pose proof (shl_align_exponent m e
                (fexp prec emax (Zpos (digits2_pos m) + e)) He) as Hs.
  destruct (shl_align m e (fexp prec emax (Zpos (digits2_pos m) + e)))
    as [mz ez]. cbn [snd] in Hs.
  apply binary_round_aux_sign; [lia|].
  apply Hs. unfold fexp. rewrite emin_value. lia.
Qed.

(** The result of a rounded sum or difference compares with zero as the
    exact sum or difference does: gradual underflow. *)
Lemma binary_normalize_compare (d e : Z) :
  -1074 <= e ->
  SFcompare (binary_normalize prec emax d e false) (S754_zero false)
  = Some (d ?= 0).
Proof.
  intros He. destruct d as [|p|p]; cbn [binary_normalize].
  - reflexivity.
  - destruct (binary_round_sign false p e He) as [(m' & e' & ->) | ->];
      reflexivity.
  - destruct (binary_round_sign true p e He) as [(m' & e' & ->) | ->];
      reflexivity.
Qed.

Lemma canonical_bounds (m : BinNums.positive) (e : Z) :
  bounded prec emax m e = true ->
  -1074 <= e /\ Zpos m < 2 ^ 53 /\ (-1074 < e -> 2 ^ 52 <= Zpos m).
Proof.
  unfold bounded, canonical_mantissa, fexp. rewrite emin_value.
  change prec with 53. intros H. apply andb_true_iff in H as [H _].
  apply Z.eqb_eq in H.
  pose proof (digits2_bounds m) as [Hlo Hhi].
  set (d := Zpos (digits2_pos m)) in *.
  split; [lia|]. split.
  - eapply Z.lt_le_trans; [exact Hhi|]. apply Z.pow_le_mono_r; lia.
  - intros He. assert (d = 53) by lia.
    replace 52 with (d - 1) by lia. exact Hlo.
Qed.

(** Two finite doubles compare as their mantissas at a common exponent. *)
Lemma SFcompare_aligned (sx sy : bool) (mx my : BinNums.positive) (ex ey : Z) :
  bounded prec emax mx ex = true -> bounded prec emax my ey = true ->
  let ez := Z.min ex ey in
  SFcompare (S754_finite sx mx ex) (S754_finite sy my ey)
  = Some (cond_Zopp sx (Zpos (fst (shl_align mx ex ez)))
          - cond_Zopp sy (Zpos (fst (shl_align my ey ez))) ?= 0).
Proof.
  intros Hx Hy ez.
  apply canonical_bounds in Hx as (Hex & Hmx & Hnx).
  apply canonical_bounds in Hy as (Hey & Hmy & Hny).
  rewrite !shl_align_value by (unfold ez; lia).
  cbn [SFcompare]. f_equal.
  assert (Hp : forall k, 0 <= k -> 1 <= 2 ^ k).
  { intros k Hk. change 1 with (2 ^ 0). apply Z.pow_le_mono_r; lia. }
  assert (Hq : forall k, 1 <= k -> 2 <= 2 ^ k).
  { intros k Hk. change 2 with (2 ^ 1) at 1. apply Z.pow_le_mono_r; lia. }
  destruct (Z.compare_spec ex ey) as [E | E | E].
  - subst ey. unfold ez. rewrite Z.min_id, Z.sub_diag. cbn [Z.pow].
    rewrite !Z.mul_1_r.
    change (Pos.compare_cont Eq mx my) with (Zpos mx ?= Zpos my).
    destruct sx, sy; cbn [cond_Zopp]; symmetry;
      destruct (Z.compare_spec (Zpos mx) (Zpos my)) as [H | H | H];
      cbn [CompOpp];
      first [ apply Z.compare_eq_iff; lia | apply Z.compare_lt_iff; lia
            | apply Z.compare_gt_iff; lia ].
  - assert (Hez : ez = ex) by (unfold ez; lia). rewrite Hez, Z.sub_diag.
    cbn [Z.pow]. rewrite Z.mul_1_r.
    specialize (Hny ltac:(lia)). specialize (Hq (ey - ex) ltac:(lia)).
    assert (Hb : Zpos mx < Zpos my * 2 ^ (ey - ex)) by nia.
    destruct sx, sy; cbn [cond_Zopp]; symmetry.
    + apply Z.compare_gt_iff. lia.
    + apply Z.compare_lt_iff. lia.
    + apply Z.compare_gt_iff. lia.
    + apply Z.compare_lt_iff. lia.
  - assert (Hez : ez = ey) by (unfold ez; lia). rewrite Hez, Z.sub_diag.
    cbn [Z.pow]. rewrite Z.mul_1_r.
    specialize (Hnx ltac:(lia)). specialize (Hq (ex - ey) ltac:(lia)).
    assert (Hb : Zpos my < Zpos mx * 2 ^ (ex - ey)) by nia.
    destruct sx, sy; cbn [cond_Zopp]; symmetry.
    + apply Z.compare_lt_iff. lia.
    + apply Z.compare_lt_iff. lia.
    + apply Z.compare_gt_iff. lia.
    + apply Z.compare_gt_iff. lia.
Qed.

(** The difference of two doubles compares with zero as the doubles compare
    with each other, but for two infinities of one sign, whose difference
    is [NaN]. *)
Lemma SFsub_compare (fx fy : spec_float) :
  valid_binary fx = true -> valid_binary fy = true ->
  SFcompare (SF64sub fx fy) (S754_zero false)
  = match fx, fy with
    | S754_infinity sx, S754_infinity sy =>
        if Bool.eqb sx sy then None else SFcompare fx fy
    | _, _ => SFcompare fx fy
    end.
Proof.
  intros Hx Hy.
  destruct fx as [sx | sx | | sx mx ex], fy as [sy | sy | | sy my ey];
    try reflexivity;
    try (destruct sx, sy; reflexivity);
    try (destruct sx; reflexivity); try (destruct sy; reflexivity).
  cbn [valid_binary] in Hx, Hy.
  rewrite (SFcompare_aligned sx sy mx my ex ey Hx Hy).
  unfold SF64sub, SFsub. cbv zeta.
  apply binary_normalize_compare.
  apply canonical_bounds in Hx as (Hex & _). apply canonical_bounds in Hy as (Hey & _).
  lia.
Qed.

Local Open Scope float_scope.


Lemma sub_leb_zero (x y : float) :
  (x - y <=? 0) = (x <=? y) && negb (Binary64.sameInfinity x y).
Proof.
  unfold Binary64.sameInfinity, is_infinity.
  rewrite !leb_spec, !eqb_spec, abs_spec, sub_spec.
  change (Prim2SF 0) with (S754_zero false).
  change (Prim2SF infinity) with (S754_infinity false).
  unfold SFleb, SFeqb.
  rewrite SFsub_compare by apply Prim2SF_valid.
  destruct (Prim2SF x) as [sx | sx | | sx mx ex],
           (Prim2SF y) as [sy | sy | | sy my ey];
    try reflexivity;
    try (destruct sx, sy; reflexivity);
    try (destruct sx; reflexivity); try (destruct sy; reflexivity).
  cbn [SFabs]. change (SFcompare (S754_finite false mx ex) (S754_infinity false))
    with (Some Lt).
  cbn [andb negb]. now rewrite andb_true_r.
Qed.

Lemma abs_sub_eqb_zero (x y : float) :
  (PrimFloat.abs (x - y) =? 0) = (x =? y) && negb (Binary64.sameInfinity x y).
Proof.
  unfold Binary64.sameInfinity, is_infinity.
  rewrite !eqb_spec, !abs_spec, sub_spec.
  change (Prim2SF 0) with (S754_zero false).
  change (Prim2SF infinity) with (S754_infinity false).
  assert (Habs : forall f, SFeqb (SFabs f) (S754_zero false)
                           = SFeqb f (S754_zero false))
    by (intros [s | s | | s m e]; try destruct s; reflexivity).
  rewrite Habs. unfold SFeqb.
  rewrite SFsub_compare by apply Prim2SF_valid.
  destruct (Prim2SF x) as [sx | sx | | sx mx ex],
           (Prim2SF y) as [sy | sy | | sy my ey];
    try reflexivity;
    try (destruct sx, sy; reflexivity);
    try (destruct sx; reflexivity); try (destruct sy; reflexivity).
  cbn [SFabs]. change (SFcompare (S754_finite false mx ex) (S754_infinity false))
    with (Some Lt).
  cbn [andb negb]. now rewrite andb_true_r.
Qed.

End DoubleDifference.

(** [Math.floor] computed on the bits is [Math.floor] as the language
    defines it on the value. *)
Lemma floor_mathFloor (y : float) :
  Binary64.floor y = Binary64.Spec.mathFloor y.
Proof.
  unfold Binary64.floor, Binary64.Spec.mathFloor, Binary64.exact.
  destruct (Prim2SF y) as [s0| s0 | |s m e]; try reflexivity.
  set (v := cond_Zopp s (Z.pos m)). set (q := inject_Z v * 2 ^ e).
  destruct (0 <=? e)%Z eqn:He.
  - apply Z.leb_le in He.
    assert (E : q == inject_Z (v * 2 ^ e))
      by (subst q; rewrite inject_Z_mult, Qpower_two by exact He; reflexivity).
    assert (H : Qeq_bool q (inject_Z (Qfloor q)) = true).
    { apply Qeq_bool_iff. rewrite (Qfloor_comp _ _ E), Qfloor_Z. exact E. }
    now rewrite H.
  - apply Z.leb_gt in He. cbv zeta.
    assert (E : q == inject_Z v * / inject_Z (2 ^ (- e)))
      by (subst q; now rewrite Qpower_two_neg).
    assert (H1 : Qeq_bool q (inject_Z (Qfloor q)) = (v mod 2 ^ (- e) =? 0)%Z).
    { rewrite <- (dyadic_integral v (- e)) by lia. cbv zeta.
      apply eq_true_iff_eq. rewrite !Qeq_bool_iff.
      rewrite (Qfloor_comp _ _ E), E. reflexivity. }
    assert (H2 : Qltb q 0 = s).
    { subst q v. apply signed_mantissa_negative. apply Qpower_0_lt.
      reflexivity. }
    assert (H3 : Qfloor q = (v / 2 ^ (- e))%Z).
    { rewrite Zdiv_Qdiv. apply Qfloor_comp. exact E. }
    now rewrite H1, H2, H3.
Qed.

(** X9. Position size.  The schema refuses a request unless its four
    numbers are positive and the risk percent is at most 100.  A request
    that passes is refused with a message exactly when entry and stop are
    the same finite number, and answered with a size otherwise: the
    difference of two distinct doubles is not zero, however close they are.
    Two infinite prices are not refused; their difference is [NaN]. *)
Theorem position_size_rule (r : Binary64.PositionSize.request) :
  let accountBalance := Binary64.PositionSize.accountBalance r in
  let riskPercent := Binary64.PositionSize.riskPercent r in
  let entryPrice := Binary64.PositionSize.entryPrice r in
  let stopLoss := Binary64.PositionSize.stopLoss r in
  let valid :=
    ((0 <? accountBalance) && ((0 <? riskPercent) && (riskPercent <=? 100))
     && (0 <? entryPrice) && (0 <? stopLoss))%float in
  (Binary64.PositionSize.handle r = Invalid <-> valid = false) /\
  (Binary64.PositionSize.handle r
   = Rejected "Stop loss cannot be equal to entry price"
   <-> valid = true /\ (entryPrice =? stopLoss)%float = true /\
       is_infinity entryPrice = false) /\
  (Binary64.PositionSize.handle r = Ok (Binary64.PositionSize.answer r)
   <-> valid = true /\
       ((entryPrice =? stopLoss)%float = false \/
        is_infinity entryPrice = true)).
Proof.
  destruct r as [b rp e s].
  cbn [Binary64.PositionSize.accountBalance Binary64.PositionSize.riskPercent
       Binary64.PositionSize.entryPrice Binary64.PositionSize.stopLoss].
  cbv zeta. unfold Binary64.PositionSize.handle.
  change (Binary64.PositionSize.valid (Binary64.PositionSize.mkRequest b rp e s))
    with ((0 <? b) && ((0 <? rp) && (rp <=? 100)) && (0 <? e) && (0 <? s))%float.
  change (Binary64.PositionSize.riskPerUnit
            (Binary64.PositionSize.values
               (Binary64.PositionSize.mkRequest b rp e s)))
    with (PrimFloat.abs (e - s)).
  rewrite abs_sub_eqb_zero. unfold Binary64.sameInfinity.
  destruct ((0 <? b) && ((0 <? rp) && (rp <=? 100)) && (0 <? e) && (0 <? s))%float;
    destruct (e =? s)%float, (is_infinity e); cbn [andb negb];
    repeat split; intros; try discriminate; try reflexivity;
    try tauto;
    repeat match goal with
           | H : _ /\ _ |- _ => destruct H
           | H : _ \/ _ |- _ => destruct H
           end; discriminate.
Qed.

(** A risk of 1 percent of 100 between 29 and 28: the share of the balance
    is shown as 28.99, the position being 29 percent of the balance. *)
Example position_size_truncation_example :
  Binary64.PositionSize.handle (Binary64.PositionSize.mkRequest 100 1 29 28)
  = Ok (Binary64.PositionSize.mkResult 1 29 1 1 28.99).
Proof. vm_compute. reflexivity. Qed.

(** The two smallest positive doubles as entry and stop: the request is
    answered, with an infinite size. *)
Example position_size_closest_example :
  Binary64.PositionSize.handle
    (Binary64.PositionSize.mkRequest 10000 2 0x1p-1074 0x1p-1073)
  = Ok (Binary64.PositionSize.mkResult infinity infinity 200 0 infinity).
Proof. vm_compute. reflexivity. Qed.

(** X11. Risk and reward.  The schema refuses a request unless its three
    prices are positive.  A request that passes is refused for its stop
    exactly when the stop is not on the losing side of the entry (at or
    above it for [BELI], at or below it for [JUAL]), refused for its target
    exactly when the stop is accepted and the target is not on the winning
    side, and answered otherwise.  Two infinite prices are never found
    misplaced: their difference is [NaN]. *)
Theorem risk_reward_rule (r : Binary64.RiskReward.request) :
  let entryPrice := Binary64.RiskReward.entryPrice r in
  let stopLoss := Binary64.RiskReward.stopLoss r in
  let targetPrice := Binary64.RiskReward.targetPrice r in
  let valid :=
    ((0 <? entryPrice) && (0 <? stopLoss) && (0 <? targetPrice))%float in
  let stopMisplaced :=
    match Binary64.RiskReward.position r with
    | BELI => Binary64.notAbove entryPrice stopLoss
    | JUAL => Binary64.notAbove stopLoss entryPrice
    end in
  let targetMisplaced :=
    match Binary64.RiskReward.position r with
    | BELI => Binary64.notAbove targetPrice entryPrice
    | JUAL => Binary64.notAbove entryPrice targetPrice
    end in
  (Binary64.RiskReward.handle r = Invalid <-> valid = false) /\
  (Binary64.RiskReward.handle r
   = Rejected "Invalid stop loss for the given position"
   <-> valid = true /\ stopMisplaced = true) /\
  (Binary64.RiskReward.handle r
   = Rejected "Invalid target price for the given position"
   <-> valid = true /\ stopMisplaced = false /\ targetMisplaced = true) /\
  (Binary64.RiskReward.handle r = Ok (Binary64.RiskReward.answer r)
   <-> valid = true /\ stopMisplaced = false /\ targetMisplaced = false).
Proof.
  destruct r as [e s t pos].
  cbn [Binary64.RiskReward.entryPrice Binary64.RiskReward.stopLoss
       Binary64.RiskReward.targetPrice Binary64.RiskReward.position].
  cbv zeta. unfold Binary64.RiskReward.handle.
  change (Binary64.RiskReward.valid (Binary64.RiskReward.mkRequest e s t pos))
    with ((0 <? e) && (0 <? s) && (0 <? t))%float.
  assert (Hrisk :
    (Binary64.RiskReward.riskOf (Binary64.RiskReward.mkRequest e s t pos) <=? 0)%float
    = match pos with
      | BELI => Binary64.notAbove e s
      | JUAL => Binary64.notAbove s e
      end)
    by (destruct pos; apply sub_leb_zero).
  assert (Hreward :
    (Binary64.RiskReward.rewardOf (Binary64.RiskReward.mkRequest e s t pos) <=? 0)%float
    = match pos with
      | BELI => Binary64.notAbove t e
      | JUAL => Binary64.notAbove e t
      end)
    by (destruct pos; apply sub_leb_zero).
  rewrite Hrisk, Hreward.
  destruct ((0 <? e) && (0 <? s) && (0 <? t))%float;
    destruct (match pos with
              | BELI => Binary64.notAbove e s
              | JUAL => Binary64.notAbove s e
              end);
    destruct (match pos with
              | BELI => Binary64.notAbove t e
              | JUAL => Binary64.notAbove e t
              end);
    repeat split; intros; try discriminate; try reflexivity;
    repeat match goal with
           | H : _ /\ _ |- _ => destruct H
           end; discriminate.
Qed.

(** Entry 200, stop 100, target 229: reward over risk is the double nearest
    to 0.29, and the ratio is shown as 0.28. *)
Example risk_reward_truncation_example :
  Binary64.RiskReward.handle (Binary64.RiskReward.mkRequest 200 100 229 BELI)
  = Ok (Binary64.RiskReward.mkResult 100 29 0.28 50 14.49 false).
Proof. vm_compute. reflexivity. Qed.

(** Entry 1.1, stop 1.0, target 1.3: the differences of the doubles are
    just above 0.1 and just below 0.2, and the trade is not a good one. *)
Example risk_reward_ratio_example :
  Binary64.RiskReward.handle (Binary64.RiskReward.mkRequest 1.1 1.0 1.3 BELI)
  = Ok (Binary64.RiskReward.mkResult 0.1 0.19 1.99 9.09 18.18 false).
Proof. vm_compute. reflexivity. Qed.

(** ** Trade handlers *)

Lemma positive_iff (x : Q) : positive x = true <-> 0 < x.
Proof. apply Qltb_lt. Qed.

Lemma nonNegative_iff (x : Q) : nonNegative x = true <-> 0 <= x.
Proof. apply Qle_bool_iff. Qed.

Lemma optionally_iff {A : Type} (check : A -> bool) (P : A -> Prop)
    (x : option A) :
  (forall a, check a = true <-> P a) ->
  (optionally check x = true <-> forall a, x = Some a -> P a).
Proof.
  intros H. destruct x as [a|]; simpl.
  - rewrite H. split; [now intros Ha b [= <-] | auto].
  - split; [discriminate | reflexivity].
Qed.

Lemma truthy_positive (x : Q) : 0 < x -> truthy (Fin x) = true.
Proof.
  intros H. cbn [truthy]. apply negb_true_iff, Qeq_bool_false. lra.
Qed.

Lemma calculatePnL_stored (position : Position) (e x q f : Q) :
  0 < e -> 0 < q ->
  let result := calculatePnL position (Fin e) (Fin x) (Fin q) (Fin f) in
  stored (pnl result) = Some (pnlOf position e x q f) /\
  stored (pnlPercent result) = Some (pnlPercentOf position e x q f).
Proof.
  intros He Hq. cbv zeta.
  assert (Hinv : 0 < e * q) by nra.
  assert (Hne : ~ e * q == 0) by lra.
  unfold calculatePnL. cbv zeta. cbn [pnl pnlPercent].
  change (Fin e * Fin q)%num with (Fin (e * q)). unfold zero.
  rewrite gtb_fin. apply Qltb_lt in Hinv. rewrite Hinv.
  destruct position; unfold sub; cbn [neg add mul];
    rewrite (div_fin _ _ Hne); split; reflexivity.
Qed.

Lemma settle_closed (position : Position) (e x q f : Q) (d : Z)
    (otherwise : option Q * option Q * bool) :
  0 < e -> 0 < q -> 0 < x ->
  settle position e (Some x) q f (Some d) otherwise
  = (Some (pnlOf position e x q f), Some (pnlPercentOf position e x q f), false).
Proof.
  intros He Hq Hx. unfold settle. rewrite (truthy_positive x Hx). cbv zeta.
  destruct (calculatePnL_stored position e x q f He Hq) as [-> ->].
  reflexivity.
Qed.

Lemma settle_open (position : Position) (e : Q) (x : option Q) (q f : Q)
    (d : option Z) (otherwise : option Q * option Q * bool) :
  x = None \/ d = None ->
  settle position e x q f d otherwise = otherwise.
Proof.
  intros [-> | ->]; unfold settle; [reflexivity|]. now destruct x.
Qed.







Lemma pnlOf_fees (position : Position) (e x q f f' : Q) :
  f == f' -> pnlOf position e x q f == pnlOf position e x q f'.
Proof. intros H. destruct position; simpl; rewrite H; reflexivity. Qed.

(** X16. Opening a trade and closing it later, with no further fees, writes
    the same row as creating it closed: same prices, fees, dates, [pnl],
    [pnlPercent] and [isOpen]. *)
Theorem open_then_close (toUpperCase : string -> string) (data : NewTrade.t)
    (now : Z) (x : Q) (d : Z) :
  NewTrade.exitPrice data = None -> NewTrade.closedAt data = None ->
  NewTrade.asset data <> EmptyString ->
  0 < NewTrade.entryPrice data -> 0 < NewTrade.quantity data ->
  (forall f, NewTrade.fees data = Some f -> 0 <= f) ->
  0 < x ->
  exists opened closedLater closedAtOnce : Trade,
    createTrade toUpperCase data = Ok opened /\
    Trade.isOpen opened = true /\
    closeTrade now opened (CloseRequest.mk x (Some d) None) = Ok closedLater /\
    createTrade toUpperCase
      (NewTrade.mk (NewTrade.asset data) (NewTrade.market data)
         (NewTrade.position data) (NewTrade.entryPrice data) (Some x)
         (NewTrade.quantity data) (NewTrade.fees data)
         (NewTrade.openedAt data) (Some d)) = Ok closedAtOnce /\
    sameRow closedLater closedAtOnce.
Proof.
  destruct data as [asset market position e x0 q f opened closed].
  cbn [NewTrade.asset NewTrade.market NewTrade.position NewTrade.entryPrice
       NewTrade.exitPrice NewTrade.quantity NewTrade.fees NewTrade.openedAt
       NewTrade.closedAt].
  intros -> -> Ha He Hq Hf Hx.
  assert (Hfv : optionally nonNegative f = true).
  { rewrite (optionally_iff nonNegative (fun a => 0 <= a))
      by apply nonNegative_iff. exact Hf. }
  assert (Hav : nonEmpty asset = true)
    by (destruct asset; [contradiction | reflexivity]).
  apply positive_iff in He as Hev. apply positive_iff in Hq as Hqv.
  apply positive_iff in Hx as Hxv.
  unfold createTrade.
  cbn [NewTrade.asset NewTrade.market NewTrade.position NewTrade.entryPrice
       NewTrade.exitPrice NewTrade.quantity NewTrade.fees NewTrade.openedAt
       NewTrade.closedAt optionally].
  rewrite Hav, Hev, Hqv, Hfv, Hxv. cbn [andb]. cbv zeta.
  rewrite settle_open by now left.
  rewrite settle_closed by assumption.
  do 3 eexists. split; [reflexivity|]. split; [reflexivity|].
  unfold closeTrade.
  cbn [CloseRequest.exitPrice CloseRequest.fees CloseRequest.closedAt
       optionally Trade.isOpen Trade.position Trade.entryPrice Trade.quantity
       Trade.fees Trade.asset Trade.market Trade.openedAt negb orElse add].
  rewrite Hxv. cbn [andb]. cbv zeta.
  destruct (calculatePnL_stored position e x q (orElse f 0 + 0) He Hq)
    as [Hp Hpp].
  cbv zeta in Hp, Hpp. rewrite Hp, Hpp.
  split; [reflexivity|]. split; [reflexivity|].
  assert (E0 : orElse f 0 + 0 == orElse f 0) by ring.
  unfold sameRow. cbn. repeat split; try reflexivity.
  - exact E0.
  - now apply pnlOf_fees.
  - unfold pnlPercentOf. now rewrite (pnlOf_fees position e x q _ _ E0).
Qed.

Lemma open_then_close_witness :
  exists opened closedLater closedAtOnce : Trade,
    createTrade (fun a => a)
      (NewTrade.mk "BBCA" STOCK BELI 100 None 10 None 1704103200000 None)
      = Ok opened /\
    closeTrade 0 opened (CloseRequest.mk 110 (Some 1704106800000%Z) None)
      = Ok closedLater /\
    createTrade (fun a => a)
      (NewTrade.mk "BBCA" STOCK BELI 100 (Some 110) 10 None 1704103200000
         (Some 1704106800000%Z)) = Ok closedAtOnce /\
    sameRow closedLater closedAtOnce.
Proof.
  destruct (open_then_close (fun a => a)
              (NewTrade.mk "BBCA" STOCK BELI 100 None 10 None 1704103200000 None)
              0 110 1704106800000)
    as (o & l & a & Ho & _ & Hl & Ha & Hs);
    try reflexivity; try discriminate.
  exists o, l, a. split; [exact Ho|]. split; [exact Hl|].
  split; [exact Ha | exact Hs].
Defined.

(** ** Accumulating by key *)

Section GroupingFacts.

Context {K V Row : Type}.
Variable keyEq : K -> K -> bool.
Variable key : Row -> K.
Variable init : Row -> V.
Variable merge : V -> Row -> V.
Hypothesis keyEq_spec : forall a b, keyEq a b = true <-> a = b.

Lemma keyEq_refl (a : K) : keyEq a a = true.
Proof. now apply keyEq_spec. Qed.

Lemma keyEq_sym (a b : K) : keyEq a b = keyEq b a.
Proof.
  apply eq_true_iff_eq. rewrite !keyEq_spec. split; congruence.
Qed.

Lemma lookup_upsert (k : K) (acc : list (K * V)) (e : Row) :
  lookup keyEq k (upsert keyEq key init merge acc e)
  = if keyEq (key e) k
    then Some (match lookup keyEq k acc with
               | Some v => merge v e
               | None => init e
               end)
    else lookup keyEq k acc.
Proof.
  unfold lookup. induction acc as [|[k0 v0] rest IH]; cbn [upsert find fst snd].
  - destruct (keyEq (key e) k); reflexivity.
  - destruct (keyEq k0 (key e)) eqn:E0; cbn [find fst snd].
    + apply keyEq_spec in E0. subst k0.
      destruct (keyEq (key e) k); reflexivity.
    + destruct (keyEq k0 k) eqn:E1.
      * apply keyEq_spec in E1. subst k0.
        rewrite keyEq_sym, E0. reflexivity.
      * exact IH.
Qed.

(** Looking a key up after grouping gives what its rows accumulate to. *)
Lemma lookup_groupBy (k : K) (l : list Row) :
  lookup keyEq k (groupBy keyEq key init merge l)
  = accumulated keyEq key init merge k l.
Proof.
  unfold groupBy, accumulated.
  induction l as [|e l IH] using rev_ind; [reflexivity|].
  rewrite fold_left_app. cbn [fold_left]. rewrite lookup_upsert, IH.
  rewrite filter_app. cbn [filter].
  destruct (keyEq (key e) k); [|now rewrite app_nil_r].
  destruct (filter (fun e0 => keyEq (key e0) k) l) as [|e1 es]; [reflexivity|].
  cbn [app]. now rewrite fold_left_app.
Qed.

Lemma keys_upsert (acc : list (K * V)) (e : Row) :
  map fst (upsert keyEq key init merge acc e)
  = if existsb (keyEq (key e)) (map fst acc) then map fst acc
    else map fst acc ++ [key e].
Proof.
  induction acc as [|[k0 v0] rest IH]; cbn [upsert map fst existsb];
    [reflexivity|].
  rewrite (keyEq_sym (key e) k0).
  destruct (keyEq k0 (key e)); cbn [map fst orb]; [reflexivity|].
  rewrite IH. now destruct (existsb (keyEq (key e)) (map fst rest)).
Qed.

Lemma existsb_filter_other (k k0 : K) (l : list K) :
  keyEq k0 k = false ->
  existsb (keyEq k) (filter (fun k' => negb (keyEq k0 k')) l)
  = existsb (keyEq k) l.
Proof.
  intros Hne. induction l as [|a l IH]; [reflexivity|].
  cbn [filter existsb]. destruct (keyEq k0 a) eqn:E; cbn [negb existsb].
  - rewrite IH. apply keyEq_spec in E. subst a.
    rewrite keyEq_sym, Hne. reflexivity.
  - now rewrite IH.
Qed.

Lemma existsb_firstSeen (k : K) (l : list K) :
  existsb (keyEq k) (firstSeen keyEq l) = existsb (keyEq k) l.
Proof.
  induction l as [|a l IH]; [reflexivity|].
  cbn [firstSeen existsb]. destruct (keyEq k a) eqn:E; [reflexivity|].
  cbn [orb]. rewrite existsb_filter_other; [exact IH|].
  now rewrite keyEq_sym.
Qed.

Lemma firstSeen_snoc (l : list K) (k : K) :
  firstSeen keyEq (l ++ [k])
  = if existsb (keyEq k) l then firstSeen keyEq l
    else firstSeen keyEq l ++ [k].
Proof.
  induction l as [|a l IH]; [reflexivity|].
  cbn [app firstSeen existsb]. rewrite IH.
  rewrite (keyEq_sym k a).
  destruct (keyEq a k) eqn:E; cbn [orb].
  - destruct (existsb (keyEq k) l); [reflexivity|].
    rewrite filter_app. simpl. rewrite E. simpl.
    now rewrite app_nil_r.
  - destruct (existsb (keyEq k) l); [reflexivity|].
    rewrite filter_app. simpl. rewrite E. reflexivity.
Qed.

(** The entries stand in the order in which their keys first appear. *)
Lemma keys_groupBy (l : list Row) :
  map fst (groupBy keyEq key init merge l) = firstSeen keyEq (map key l).
Proof.
  unfold groupBy. induction l as [|e l IH] using rev_ind; [reflexivity|].
  rewrite fold_left_app. cbn [fold_left]. rewrite keys_upsert, IH.
  rewrite map_app. cbn [map]. rewrite firstSeen_snoc.
  now rewrite existsb_firstSeen.
Qed.

Lemma firstSeen_NoDup (l : list K) : NoDup (firstSeen keyEq l).
Proof.
  induction l as [|a l IH]; cbn [firstSeen]; constructor.
  - intros H. apply filter_In in H as [_ H]. now rewrite keyEq_refl in H.
  - now apply NoDup_filter.
Qed.

Lemma firstSeen_In (k : K) (l : list K) : In k (firstSeen keyEq l) <-> In k l.
Proof.
  induction l as [|a l IH]; [reflexivity|].
  cbn [firstSeen In]. rewrite filter_In, IH. split.
  - intros [H | [H _]]; auto.
  - intros [H | H]; [now left|].
    destruct (keyEq a k) eqn:E.
    + left. now apply keyEq_spec.
    + right. split; [exact H | reflexivity].
Qed.

Lemma keys_groupBy_NoDup (l : list Row) :
  NoDup (map fst (groupBy keyEq key init merge l)).
Proof. rewrite keys_groupBy. apply firstSeen_NoDup. Qed.

Lemma lookup_In (k : K) (v : V) (acc : list (K * V)) :
  NoDup (map fst acc) -> In (k, v) acc -> lookup keyEq k acc = Some v.
Proof.
  unfold lookup. induction acc as [|[k0 v0] rest IH]; intros Hnd Hin;
    [contradiction|].
  cbn [map fst] in Hnd. inversion Hnd as [|? ? Hk Hnd']; subst.
  cbn [find fst snd]. destruct Hin as [[= -> ->] | Hin].
  - now rewrite keyEq_refl.
  - destruct (keyEq k0 k) eqn:E.
    + apply keyEq_spec in E. subst k0. exfalso. apply Hk.
      change k with (fst (k, v)). now apply in_map.
    + now apply IH.
Qed.

(** Every entry holds what the rows of its key accumulate to. *)
Lemma groupBy_entry (k : K) (v : V) (l : list Row) :
  In (k, v) (groupBy keyEq key init merge l) ->
  accumulated keyEq key init merge k l = Some v.
Proof.
  intros H. rewrite <- lookup_groupBy.
  apply lookup_In; [apply keys_groupBy_NoDup | exact H].
Qed.

End GroupingFacts.

(** ** The two analysers on the rows the handlers write *)




(** ** Distribution *)

Lemma tallyAll_market (trades : list Trade) (a b : Tally.t) :
  exists a' b' : Tally.t,
    tallyAll (fun trade => marketName (Trade.market trade))
      [("STOCK"%string, a); ("CRYPTO"%string, b)] trades
    = Some [("STOCK"%string, a'); ("CRYPTO"%string, b')] /\
    Tally.count a'
    = (Tally.count a
       + length (filter (fun t => match Trade.market t with
                                  | STOCK => true
                                  | CRYPTO => false
                                  end) trades))%nat /\
    Tally.count b'
    = (Tally.count b
       + length (filter (fun t => match Trade.market t with
                                  | STOCK => false
                                  | CRYPTO => true
                                  end) trades))%nat.
Proof.
  revert a b. induction trades as [|t l IH]; intros a b.
  - exists a, b. cbn. repeat split; lia.
  - cbn [tallyAll filter]. destruct (Trade.market t).
    + destruct (IH (tally a t) b) as (a' & b' & E & Ha & Hb).
      exists a', b'. split; [exact E|]. cbn in Ha |- *. lia.
    + destruct (IH a (tally b t)) as (a' & b' & E & Ha & Hb).
      exists a', b'. split; [exact E|]. cbn in Hb |- *. lia.
Qed.

Lemma tallyAll_position (t : Trade) (l : list Trade) :
  tallyAll (fun trade => positionName (Trade.position trade))
    byPositionStart (t :: l) = None.
Proof. cbn [tallyAll]. now destruct (Trade.position t). Qed.

(** X17. [GET /distribution] answers with a distribution only when the
    query returns no row.  The loop over the markets always completes, and
    counts every row under its market; the loop over the positions looks
    the position of a row up in an object whose properties are [LONG] and
    [SHORT], finds nothing under [BELI] or [JUAL], and throws at the first
    row, so that the handler answers with status 500. *)
Theorem distribution_only_when_empty (trades : list Trade) :
  (exists stock crypto : Tally.t,
     tallyAll (fun trade => marketName (Trade.market trade))
       byMarketStart trades
     = Some [("STOCK"%string, stock); ("CRYPTO"%string, crypto)] /\
     (Tally.count stock + Tally.count crypto = length trades)%nat) /\
  (tallyAll (fun trade => positionName (Trade.position trade))
     byPositionStart trades = None <-> trades <> []) /\
  (distribution trades = None <-> trades <> []) /\
  distribution []
  = Some (Distribution.mk [] (roundedTallies byMarketStart)
            (roundedTallies byPositionStart)).
Proof.
  refine (conj _ (conj _ (conj _ _))).
  - destruct (tallyAll_market trades emptyTally emptyTally)
      as (a & b & E & Ha & Hb).
    exists a, b. split; [exact E|]. rewrite Ha, Hb. cbn [Tally.count emptyTally].
    clear. induction trades as [|t l IH]; [reflexivity|].
    cbn [filter length]. destruct (Trade.market t); cbn [length]; lia.
  - destruct trades as [|t l].
    + split; [discriminate | congruence].
    + split; [discriminate | intros _; apply tallyAll_position].
  - destruct trades as [|t l].
    + split; [discriminate | congruence].
    + split; [discriminate | intros _]. unfold distribution. cbv zeta.
      rewrite tallyAll_position.
      now destruct (tallyAll _ byMarketStart (t :: l)).
  - reflexivity.
Qed.

(** ** Equity curve *)

Lemma sameKey_spec (a b : option string) : sameKey a b = true <-> a = b.
Proof.
  destruct a as [x|], b as [y|]; cbn; try (split; congruence).
  rewrite String.eqb_eq. split; congruence.
Qed.

Lemma last_cons_default {A : Type} (x : A) (l : list A) (d d' : A) :
  last (x :: l) d = last (x :: l) d'.
Proof.
  revert x. induction l as [|y l IH]; intros x; [reflexivity|].
  change (last (y :: l) d = last (y :: l) d'). apply IH.
Qed.

Lemma fold_left_map {A B C : Type} (f : A -> B -> A) (g : C -> B)
    (l : list C) (a : A) :
  fold_left f (map g l) a = fold_left (fun x c => f x (g c)) l a.
Proof.
  revert a. induction l as [|c l IH]; intros a; [reflexivity|].
  cbn [map fold_left]. apply IH.
Qed.

Section EquityCurveFacts.

Variable isoDate : Z -> string.

Lemma aggregate_date (es : list Binary64.EquityPoint.t) (e : Binary64.EquityPoint.t) :
  Binary64.EquityPoint.date (fold_left Binary64.aggregate es e) = Binary64.EquityPoint.date e.
Proof.
  revert e. induction es as [|p es IH]; intros e; [reflexivity|].
  cbn [fold_left]. now rewrite IH.
Qed.

Lemma aggregate_pnl (es : list Binary64.EquityPoint.t) (e : Binary64.EquityPoint.t) :
  Binary64.EquityPoint.pnl (fold_left Binary64.aggregate es e)
  = fold_left PrimFloat.add (map Binary64.EquityPoint.pnl es) (Binary64.EquityPoint.pnl e).
Proof.
  revert e. induction es as [|p es IH]; intros e; [reflexivity|].
  cbn [fold_left map]. now rewrite IH.
Qed.

Lemma aggregate_equity (es : list Binary64.EquityPoint.t) (e : Binary64.EquityPoint.t) :
  Binary64.EquityPoint.equity (fold_left Binary64.aggregate es e)
  = Binary64.EquityPoint.equity (last es e).
Proof.
  revert e. induction es as [|p es IH]; intros e; [reflexivity|].
  cbn [fold_left]. rewrite IH. destruct es as [|p' es]; [reflexivity|].
  now rewrite (last_cons_default p' es (Binary64.aggregate e p) e).
Qed.

Lemma curveFrom_dates (c : float) (l : list Binary64.Trade.t) :
  map Binary64.EquityPoint.date (Binary64.curveFrom isoDate c l) = map (Binary64.closeDate isoDate) l.
Proof.
  revert c. induction l as [|t l IH]; intros c; [reflexivity|].
  cbn [Binary64.curveFrom map Binary64.EquityPoint.date]. now rewrite IH.
Qed.

Lemma curveFrom_app (c : float) (l1 l2 : list Binary64.Trade.t) :
  Binary64.curveFrom isoDate c (l1 ++ l2)
  = Binary64.curveFrom isoDate c l1
    ++ Binary64.curveFrom isoDate
         (fold_left (fun sum t => (sum + Binary64.pnlOrZero t)%float) l1 c) l2.
Proof.
  revert c. induction l1 as [|t l1 IH]; intros c; [reflexivity|].
  cbn [app Binary64.curveFrom fold_left]. now rewrite IH.
Qed.

Lemma curveFrom_filter (d : option string) (c : float) (l : list Binary64.Trade.t) :
  map Binary64.EquityPoint.pnl
    (filter (fun p => sameKey (Binary64.EquityPoint.date p) d) (Binary64.curveFrom isoDate c l))
  = map (fun t => Binary64.round2 (Binary64.pnlOrZero t))
      (filter (fun t => sameKey (Binary64.closeDate isoDate t) d) l).
Proof.
  revert c. induction l as [|t l IH]; intros c; [reflexivity|].
  cbn [Binary64.curveFrom filter Binary64.EquityPoint.date].
  destruct (sameKey (Binary64.closeDate isoDate t) d); cbn [map Binary64.EquityPoint.pnl];
    now rewrite IH.
Qed.

Lemma curveFrom_filter_none (d : option string) (c : float)
    (l : list Binary64.Trade.t) :
  (forall u, In u l -> Binary64.closeDate isoDate u <> d) ->
  filter (fun p => sameKey (Binary64.EquityPoint.date p) d) (Binary64.curveFrom isoDate c l)
  = [].
Proof.
  revert c. induction l as [|t l IH]; intros c H; [reflexivity|].
  cbn [Binary64.curveFrom filter Binary64.EquityPoint.date].
  destruct (sameKey (Binary64.closeDate isoDate t) d) eqn:E.
  - apply sameKey_spec in E. exfalso. apply (H t); [now left | exact E].
  - apply IH. intros u Hu. apply H. now right.
Qed.

Lemma equityCurve_entries (trades : list Binary64.Trade.t) (k : option string)
    (v : Binary64.EquityPoint.t) :
  In (k, v)
    (groupBy sameKey Binary64.EquityPoint.date (fun point => point) Binary64.aggregate
       (Binary64.curveFrom isoDate 0 trades)) ->
  Binary64.EquityPoint.date v = k /\
  accumulated sameKey Binary64.EquityPoint.date (fun point => point) Binary64.aggregate
    k (Binary64.curveFrom isoDate 0 trades) = Some v.
Proof.
  intros H. apply (groupBy_entry _ _ _ _ sameKey_spec) in H.
  split; [|exact H]. unfold accumulated in H.
  destruct (filter _ (Binary64.curveFrom isoDate 0 trades)) as [|e es] eqn:F;
    [discriminate|].
  injection H as <-. rewrite aggregate_date.
  assert (He : In e (e :: es)) by now left.
  rewrite <- F in He. apply filter_In in He as [_ He].
  now apply sameKey_spec.
Qed.

Lemma equityCurve_entry (trades : list Binary64.Trade.t) (p : Binary64.EquityPoint.t) :
  In p (Binary64.equityCurve isoDate trades) ->
  accumulated sameKey Binary64.EquityPoint.date (fun point => point) Binary64.aggregate
    (Binary64.EquityPoint.date p) (Binary64.curveFrom isoDate 0 trades) = Some p.
Proof.
  unfold Binary64.equityCurve. cbv zeta. intros H.
  apply in_map_iff in H as ([k v] & <- & H). cbn [snd].
  now destruct (equityCurve_entries trades k v H) as [-> E].
Qed.

Lemma equityCurve_dates (trades : list Binary64.Trade.t) :
  map Binary64.EquityPoint.date (Binary64.equityCurve isoDate trades)
  = firstSeen sameKey (map (Binary64.closeDate isoDate) trades).
Proof.
  rewrite <- (curveFrom_dates 0).
  rewrite <- (keys_groupBy sameKey Binary64.EquityPoint.date (fun point => point)
                Binary64.aggregate sameKey_spec).
  unfold Binary64.equityCurve. cbv zeta. rewrite map_map.
  apply map_ext_in. intros [k v] H. cbn [fst snd].
  now destruct (equityCurve_entries trades k v H).
Qed.

End EquityCurveFacts.

(** X18. [GET /equity-curve], on doubles, answers with one point for each
    close date of the rows, in the order in which the dates first appear
    (the rows with no close time together count as one date).  The [pnl] of
    a point is the sum, from the first row of its date to the last, of the
    P&L of each row rounded to the cent before it is added; its [equity] is
    the running total of all rows up to the last row of its date, rounded
    to the cent once. *)
Theorem equity_curve_by_date (isoDate : Z -> string)
    (trades : list Binary64.Trade.t) :
  let curve := Binary64.equityCurve isoDate trades in
  let dateOf := Binary64.closeDate isoDate in
  let cents := fun t => Binary64.round2 (Binary64.pnlOrZero t) in
  map Binary64.EquityPoint.date curve = firstSeen sameKey (map dateOf trades) /\
  NoDup (map Binary64.EquityPoint.date curve) /\
  (forall p : Binary64.EquityPoint.t, In p curve ->
     exists (first : Binary64.Trade.t) (rest : list Binary64.Trade.t),
       filter (fun t => sameKey (dateOf t) (Binary64.EquityPoint.date p)) trades
       = first :: rest /\
       Binary64.EquityPoint.pnl p
       = fold_left (fun sum t => (sum + cents t)%float) rest (cents first)) /\
  (forall (pre : list Binary64.Trade.t) (t : Binary64.Trade.t)
          (post : list Binary64.Trade.t) (p : Binary64.EquityPoint.t),
     trades = pre ++ t :: post ->
     (forall u, In u post -> dateOf u <> dateOf t) ->
     In p curve -> Binary64.EquityPoint.date p = dateOf t ->
     Binary64.EquityPoint.equity p
     = Binary64.round2 (Binary64.Internal.sumPnl (pre ++ [t]))).
Proof.
  intros curve dateOf cents. subst curve dateOf cents.
  refine (conj _ (conj _ (conj _ _))).
  - apply equityCurve_dates.
  - rewrite equityCurve_dates.
    apply (firstSeen_NoDup sameKey sameKey_spec).
  - intros p Hp. apply equityCurve_entry in Hp.
    unfold accumulated in Hp.
    pose proof (curveFrom_filter isoDate (Binary64.EquityPoint.date p)
                  0 trades) as F.
    destruct (filter _ (Binary64.curveFrom isoDate 0 trades)) as [|e es];
      [discriminate|].
    injection Hp as <-.
    rewrite aggregate_pnl, aggregate_date in *.
    destruct (filter _ trades) as [|t l]; [discriminate|].
    cbn [map] in F. injection F as -> ->.
    exists t, l. split; [reflexivity|]. apply fold_left_map.
  - intros pre t post p -> Hpost Hp Hd.
    apply equityCurve_entry in Hp. unfold accumulated in Hp.
    rewrite Hd, curveFrom_app in Hp. cbn [Binary64.curveFrom] in Hp.
    rewrite filter_app in Hp. cbn [filter Binary64.EquityPoint.date] in Hp.
    rewrite (proj2 (sameKey_spec _ _) eq_refl) in Hp.
    rewrite (curveFrom_filter_none isoDate _ _ post Hpost) in Hp.
    unfold Binary64.Internal.sumPnl. rewrite fold_left_app. cbn [fold_left].
    destruct (filter _ (Binary64.curveFrom isoDate 0 pre)) as [|e es].
    + cbn [app] in Hp. now injection Hp as <-.
    + cbn [app] in Hp. injection Hp as <-.
      rewrite aggregate_equity, last_last. reflexivity.
Qed.

(** ** Totals of a grouping *)


Section GroupingTotals.

Context {K V Row : Type}.
Variable keyEq : K -> K -> bool.
Variable key : Row -> K.
Variable init : Row -> V.
Variable merge : V -> Row -> V.

(** The amount a row contributes, the amount an entry holds, and what an
    entry keeps true. *)
Variable amount : Row -> Q.
Variable held : V -> Q.
Variable sound : V -> Prop.

Hypothesis init_sound : forall e, sound (init e).
Hypothesis merge_sound : forall v e, sound v -> sound (merge v e).
Hypothesis init_held : forall e, held (init e) == amount e.
Hypothesis merge_held :
  forall v e, sound v -> held (merge v e) == held v + amount e.





End GroupingTotals.

(** ** Profit by period *)



(** X19. [GET /profit-by-period], on doubles, answers with one bucket for
    each period key of the rows that have a close time, in the order in
    which the keys first appear; a row with no close time is in no bucket.
    The profit of a bucket is the sum of the P&L of the rows of its key,
    added in the order of the rows from [0], and rounded to the cent
    once. *)
Theorem profit_by_period (isoDate weekStartDate monthKey yearKey : Z -> string)
    (period : Period) (trades : list Binary64.Trade.t) :
  let keyOf := fun t =>
    Binary64.periodKey isoDate weekStartDate monthKey yearKey period
      (Binary64.closeTime t) in
  let buckets :=
    Binary64.profitByPeriod isoDate weekStartDate monthKey yearKey period
      trades in
  map fst buckets = firstSeen String.eqb (map keyOf (Binary64.dated trades)) /\
  NoDup (map fst buckets) /\
  (forall (k : string) (profit : float), In (k, profit) buckets ->
     let rows :=
       filter (fun t => String.eqb (keyOf t) k) (Binary64.dated trades) in
     rows <> [] /\
     profit = Binary64.round2 (Binary64.Internal.sumPnl rows)).
Proof.
  intros keyOf buckets. subst buckets. unfold Binary64.profitByPeriod.
  assert (Hkeys :
    map fst
      (map (fun entry : string * float =>
              (fst entry, Binary64.round2 (snd entry)))
         (Binary64.grouped isoDate weekStartDate monthKey yearKey period
            trades))
    = firstSeen String.eqb (map keyOf (Binary64.dated trades))).
  { rewrite map_map. cbn [fst]. unfold Binary64.grouped.
    apply (keys_groupBy String.eqb _ _ _ String.eqb_eq). }
  refine (conj Hkeys (conj _ _)).
  - rewrite Hkeys. apply (firstSeen_NoDup String.eqb String.eqb_eq).
  - intros k profit H. apply in_map_iff in H as ([k' v] & [= -> <-] & H).
    unfold Binary64.grouped in H.
    apply (groupBy_entry _ _ _ _ String.eqb_eq) in H.
    unfold accumulated in H. cbv zeta. fold keyOf in H.
    destruct (filter _ (Binary64.dated trades)) as [|e es];
      [discriminate|].
    injection H as <-. split; [discriminate | reflexivity].
Qed.
(** ** Portfolio *)


















Section PerformanceFacts.

Variable isoDate : Z -> string.





End PerformanceFacts.

